(** * olcs.FeatureConverter: conversion of OpenLayers 3 vector features to
      Cesium primitives (src/featureconverter.js)

    A shallow embedding of the converter.  JavaScript numbers are IEEE 754
    binary64 values (Rocq's primitive floats), objects that are only built
    and returned are records and inductive values, and the objects the code
    shares and mutates (the conversion context with its billboard
    collection and feature map, the event registry of pending image
    listeners, the polygon hierarchy under construction) live in explicit
    stores that are threaded through the calls.  Exceptions are completions:
    a call either returns normally or throws. *)

From Stdlib Require Import Floats ZArith NArith Bool String List.
From stdpp Require Import gmap strings list.
Import ListNotations.

Set Warnings "-register-all".

Local Open Scope string_scope.
Local Open Scope list_scope.

(** ** JavaScript values and control flow *)

Module JS.

(** The three error classes the converter can raise: a failed
    [goog.asserts] check, a [TypeError] of the language itself, and an
    explicit [throw new Error(...)]. *)
Inductive Error : Type :=
| AssertionError (message : string)
| TypeError (message : string)
| JsError (message : string).

(** The outcome of a call. *)
Inductive completion (A : Type) : Type :=
| Normal (value : A)
| Throw (error : Error).
Arguments Normal {A} value.
Arguments Throw {A} error.

Definition bind {A B} (c : completion A) (k : A -> completion B) : completion B :=
  match c with
  | Normal a => k a
  | Throw e => Throw e
  end.

Definition returns {A} (c : completion A) : Prop :=
  match c with Normal _ => True | Throw _ => False end.

Definition throws {A} (c : completion A) : Prop :=
  match c with Normal _ => False | Throw _ => True end.

(** A value that may be [undefined] or [null]. *)
Inductive nullable (A : Type) : Type :=
| Undefined
| Null
| Defined (value : A).
Arguments Undefined {A}.
Arguments Null {A}.
Arguments Defined {A} value.

(** [goog.isDef(x)]: [x !== undefined]. *)
Definition isDef {A} (x : nullable A) : bool :=
  match x with Undefined => false | _ => true end.

(** [goog.isDefAndNotNull(x)]: [x != null]. *)
Definition isDefAndNotNull {A} (x : nullable A) : bool :=
  match x with Defined _ => true | _ => false end.

(** [array[0]]: the first element, [undefined] on an empty array. *)
Definition first_element {A} (array : list A) : nullable A :=
  match array with
  | [] => Undefined
  | x :: _ => Defined x
  end.

(** Truthiness of a string: only the empty string is falsy. *)
Definition truthy_string (s : string) : bool :=
  negb (String.eqb s "").

(** [ToNumber] on a number that may be [undefined]. *)
Definition ToNumber (x : option float) : float :=
  match x with
  | Some n => n
  | None => nan
  end.

(** [Math.min(a, b)] on two numbers: [NaN] when either is [NaN],
    otherwise the smaller one; of two equal values the one with the
    negative sign, so that the negative zero is the smaller zero. *)
Definition Math_min (a b : float) : float :=
  if is_nan a || is_nan b then nan
  else if (a <? b)%float then a
  else if (b <? a)%float then b
  else if get_sign a then a
  else b.

(** [a != b] on numbers. *)
Definition number_neq (a b : float) : bool := negb (a =? b)%float.

End JS.
Import JS.

Declare Scope js_scope.
Delimit Scope js_scope with js.
Notation "'let!' x ':=' c 'in' k" := (JS.bind c (fun x => k))
  (at level 10, x pattern, c at level 100, k at level 200) : js_scope.

(** ** The OpenLayers side: the objects the converter reads *)

Module Ol.

(** [ol.Coordinate]: an array of numbers, [x, y] or [x, y, z]. *)
Definition Coordinate : Type := list float.

(** [ol.proj.Projection], known by its code. *)
Record Projection : Type := { code : string }.

(** The value of the ['altitudeMode'] property of an [ol.Object]
    ([None]: the property is not set, [get] returns [undefined]). *)
Definition Properties : Type := option string.

(** [ol.geom.Geometry]: the nine geometry types of OpenLayers 3, each
    with its properties and its coordinates.  The members of a geometry
    collection may be null. *)
Inductive Geometry : Type :=
| Point (props : Properties) (coordinates : Coordinate)
| LineString (props : Properties) (coordinates : list Coordinate)
| LinearRing (props : Properties) (coordinates : list Coordinate)
| Polygon (props : Properties) (rings : list (list Coordinate))
| Circle (props : Properties) (center : Coordinate) (radius : float)
| MultiPoint (props : Properties) (points : list Coordinate)
| MultiLineString (props : Properties) (lines : list (list Coordinate))
| MultiPolygon (props : Properties) (polygons : list (list (list Coordinate)))
| GeometryCollection (props : Properties) (geometries : list (option Geometry)).

(** [geometry.getType()]. *)
Definition getType (g : Geometry) : string :=
  match g with
  | Point _ _ => "Point"
  | LineString _ _ => "LineString"
  | LinearRing _ _ => "LinearRing"
  | Polygon _ _ => "Polygon"
  | Circle _ _ _ => "Circle"
  | MultiPoint _ _ => "MultiPoint"
  | MultiLineString _ _ => "MultiLineString"
  | MultiPolygon _ _ => "MultiPolygon"
  | GeometryCollection _ _ => "GeometryCollection"
  end.

(** [geometry.get('altitudeMode')]. *)
Definition geometry_altitudeMode (g : Geometry) : option string :=
  match g with
  | Point p _ | LineString p _ | LinearRing p _ | Polygon p _
  | Circle p _ _ | MultiPoint p _ | MultiLineString p _
  | MultiPolygon p _ | GeometryCollection p _ => p
  end.

(** [polygon.getLinearRings()], [multiPoint.getPoints()],
    [multiLineString.getLineStrings()], [multiPolygon.getPolygons()]:
    fresh geometries, without properties, over the member coordinates. *)
Definition getLinearRings (rings : list (list Coordinate)) : list Geometry :=
  map (LinearRing None) rings.
Definition getPoints (points : list Coordinate) : list Geometry :=
  map (Point None) points.
Definition getLineStrings (lines : list (list Coordinate)) : list Geometry :=
  map (LineString None) lines.
Definition getPolygons (polygons : list (list (list Coordinate))) : list Geometry :=
  map (Polygon None) polygons.

(** [geometry.clone()]: a new geometry of the same type over the same
    coordinates.  The properties of the geometry are not copied: the
    clone has none.  A collection is cloned with its members; a member
    that is null stays null. *)
Fixpoint clone (g : Geometry) : Geometry :=
  match g with
  | Point _ c => Point None c
  | LineString _ cs => LineString None cs
  | LinearRing _ cs => LinearRing None cs
  | Polygon _ rs => Polygon None rs
  | Circle _ c r => Circle None c r
  | MultiPoint _ cs => MultiPoint None cs
  | MultiLineString _ ls => MultiLineString None ls
  | MultiPolygon _ ps => MultiPolygon None ps
  | GeometryCollection _ gs => GeometryCollection None (map (option_map clone) gs)
  end.

(** [collection.getGeometries()]: an array of clones of the members. *)
Definition getGeometries (geometries : list (option Geometry)) : list (option Geometry) :=
  map (option_map clone) geometries.

(** [ring.getCoordinates()] of a linear ring or line string. *)
Definition getCoordinates (g : Geometry) : list Coordinate :=
  match g with
  | LineString _ cs | LinearRing _ cs => cs
  | _ => []
  end.

(** [geometry instanceof ol.geom.SimpleGeometry]: every geometry but a
    collection. *)
Definition isSimpleGeometry (g : Geometry) : bool :=
  match g with
  | GeometryCollection _ _ => false
  | _ => true
  end.

(** [simpleGeometry.getFirstCoordinate()]: the first coordinate of the
    flat coordinates, an empty array for an empty geometry. *)
Definition getFirstCoordinate (g : Geometry) : Coordinate :=
  match g with
  | Point _ c => c
  | LineString _ cs | LinearRing _ cs | MultiPoint _ cs => hd [] cs
  | Polygon _ rs | MultiLineString _ rs => hd [] (concat rs)
  | Circle _ c _ => c
  | MultiPolygon _ ps => hd [] (concat (concat ps))
  | GeometryCollection _ _ => []
  end.

(** [ol.Color|string]: an rgba array or a CSS color string. *)
Inductive Color : Type :=
| ColorArray (rgba : list float)
| ColorString (css : string).

(** Truthiness of a color that may be null: an array is always truthy,
    a string unless it is empty. *)
Definition truthy_color (c : option Color) : bool :=
  match c with
  | None => false
  | Some (ColorArray _) => true
  | Some (ColorString s) => truthy_string s
  end.

(** [ol.style.Fill]. *)
Record Fill : Type := { fill_getColor : option Color }.

(** [ol.style.Stroke]: the width is optional ([getWidth] returns
    [number|undefined]), and so is the dash pattern. *)
Record Stroke : Type := {
  stroke_getColor : option Color;
  stroke_getWidth : option float;
  stroke_getLineDash : option (list float)
}.

(** The image an [ol.style.Image] resolves to: a canvas, an image
    element with its loading state, or another element (a video). *)
Inductive ImageObject : Type :=
| HTMLCanvasElement (id : nat)
| HTMLImageElement (id : nat) (src : string)
    (naturalHeight naturalWidth : N) (complete : bool)
| HTMLVideoElement (id : nat).

Definition image_id (i : ImageObject) : nat :=
  match i with
  | HTMLCanvasElement id | HTMLImageElement id _ _ _ _ | HTMLVideoElement id => id
  end.

(** [ol.style.Image]: [getImage(1)] may be null. *)
Record ImageStyle : Type := {
  image_getImage : option ImageObject;
  image_getOpacity : option float
}.

(** [ol.style.Text]. *)
Record Text : Type := {
  text_getText : option string;
  text_getFont : option string;
  text_getOffsetX : float;
  text_getOffsetY : float;
  text_getFill : option Fill;
  text_getStroke : option Stroke;
  text_getTextAlign : option string;
  text_getTextBaseline : option string
}.

(** [ol.style.Style]: a resolved style. *)
Record Style : Type := {
  style_getFill : option Fill;
  style_getStroke : option Stroke;
  style_getImage : option ImageStyle;
  style_getText : option Text
}.

(** What [extractColorFromOlStyle] and [extractLineWidthFromOlStyle]
    need of their argument, which is an [ol.style.Style] or an
    [ol.style.Text]. *)
Class FillStroke (A : Type) : Type := {
  getFill : A -> option Fill;
  getStroke : A -> option Stroke
}.
#[export] Instance Style_FillStroke : FillStroke Style :=
  {| getFill := style_getFill; getStroke := style_getStroke |}.
#[export] Instance Text_FillStroke : FillStroke Text :=
  {| getFill := text_getFill; getStroke := text_getStroke |}.

(** What a style function returns: an array of styles, null or
    undefined. *)
Definition StyleResult : Type := nullable (list Style).

(** [ol.Feature]: its identity ([goog.getUid]), its geometry (which may
    be missing), its own style function (which may be undefined; it is
    called with the feature as [this]) and its ['altitudeMode']
    property. *)
Record Feature : Type := {
  getUid : nat;
  getGeometry : option Geometry;
  getStyleFunction : option (float -> StyleResult);
  feature_altitudeMode : option string
}.

(** [ol.layer.Vector]: its identity, the features of its source (an
    entry may be null or undefined), its style function and its
    ['altitudeMode'] property. *)
Record Layer : Type := {
  layer_uid : nat;
  getFeatures : list (option Feature);
  layer_getStyleFunction : option (Feature -> float -> StyleResult);
  layer_altitudeMode : option string
}.

(** [ol.View]: projection and resolution, each undefined until the view
    is ready. *)
Record View : Type := {
  getProjection : option Projection;
  getResolution : option float
}.

End Ol.
Import Ol.

(** ** The Cesium side: the objects the converter builds *)

Module Cesium.

(** [Cesium.Cartesian3] and [Cesium.Cartesian2]. *)
Record Cartesian3 : Type := { x : float; y : float; z : float }.
Record Cartesian2 : Type := { px : float; py : float }.

(** [Cesium.Color]. *)
Record Color : Type := { red : float; green : float; blue : float; alpha : float }.

Inductive HeightReference : Type :=
| HeightReference_NONE
| HeightReference_CLAMP_TO_GROUND
| HeightReference_RELATIVE_TO_GROUND.

Inductive HorizontalOrigin : Type :=
| HorizontalOrigin_CENTER
| HorizontalOrigin_LEFT
| HorizontalOrigin_RIGHT.

Inductive VerticalOrigin : Type :=
| VerticalOrigin_TOP
| VerticalOrigin_CENTER
| VerticalOrigin_BOTTOM.

Inductive LabelStyle : Type :=
| LabelStyle_FILL
| LabelStyle_OUTLINE
| LabelStyle_FILL_AND_OUTLINE.

(** [Cesium.Material.fromType('Stripe', ...)] and
    [Cesium.Material.fromType('Color', ...)]. *)
Inductive Material : Type :=
| Stripe (horizontal : bool) (repeat : float) (evenColor oddColor : Color)
| ColorMaterial (color : Color).

(** One object of a polygon hierarchy as the converter builds it: its
    ring positions and a reference to the object of its [holes]
    property, each undefined until it is assigned. *)
Record HierarchyObject : Type := {
  positions : option (list Cartesian3);
  holes : option nat
}.

(** A reference to a hierarchy object: the objects allocated so far, in
    allocation order, and the index of the one referred to. *)
Record Hierarchy : Type := {
  objects : list HierarchyObject;
  target : nat
}.

(** The geometries the converter constructs, with the options it passes
    to each constructor. *)
Inductive Geometry : Type :=
| CircleGeometry (center : Cartesian3) (radius height : float)
| CircleOutlineGeometry (center : Cartesian3) (radius extrudedHeight height : float)
| PolylineGeometry (positions : list Cartesian3) (width : float)
| PolygonGeometry (polygonHierarchy : Hierarchy) (perPositionHeight : bool)
| PolygonOutlineGeometry (polygonHierarchy : Hierarchy) (perPositionHeight : bool).

(** [Cesium.GeometryInstance]: a geometry and, for a colored primitive,
    its color attribute. *)
Record GeometryInstance : Type := {
  geometry : Geometry;
  attributes_color : option Color
}.

(** [Cesium.PerInstanceColorAppearance] with its render state, and
    [Cesium.PolylineMaterialAppearance] with its material (null when
    the style has no stroke). *)
Inductive Appearance : Type :=
| PerInstanceColorAppearance (flat depthTest_enabled : bool) (lineWidth : option float)
| PolylineMaterialAppearance (material : option Material).

(** The back-reference [setReferenceForPicking] writes: the properties
    [olLayer] and [olFeature], each a reference to an object, held here
    by the identity of that object. *)
Record PickingReference : Type := { olLayer : nat; olFeature : nat }.

(** [Cesium.Label], with the options it was added with. *)
Record Label : Type := {
  label_position : Cartesian3;
  label_text : string;
  label_heightReference : HeightReference;
  label_pixelOffset : option Cartesian2;
  label_font : option string;
  label_fillColor : option Color;
  label_outlineWidth : option float;
  label_outlineColor : option Color;
  label_style : option LabelStyle;
  label_horizontalOrigin : option HorizontalOrigin;
  label_verticalOrigin : option VerticalOrigin;
  label_reference : option PickingReference
}.

(** [Cesium.Billboard], with the options it was added with. *)
Record Billboard : Type := {
  billboard_image : Ol.ImageObject;
  billboard_color : option Color;
  billboard_heightReference : HeightReference;
  billboard_verticalOrigin : VerticalOrigin;
  billboard_position : Cartesian3;
  billboard_reference : option PickingReference
}.

(** What a conversion returns: a [Cesium.Primitive] (geometry instances
    and appearance are undefined for [new Cesium.Primitive()]), a
    [Cesium.PrimitiveCollection] or a [Cesium.LabelCollection].  Every
    one of them is an object, so every one has the slot of the picking
    properties, undefined until they are written. *)
Inductive Primitive : Type :=
| CsPrimitive (geometryInstances : option GeometryInstance)
    (appearance : option Appearance) (reference : option PickingReference)
| PrimitiveCollection (members : list Primitive) (reference : option PickingReference)
| LabelCollection (labels : list Label) (reference : option PickingReference).

(** [new Cesium.PrimitiveCollection()] and [new Cesium.Primitive()]. *)
Definition new_PrimitiveCollection : Primitive := PrimitiveCollection [] None.
Definition new_Primitive : Primitive := CsPrimitive None None None.

(** [primitives.add(p)]: the collection with [p] appended. *)
Definition add (primitives : Primitive) (p : Primitive) : Primitive :=
  match primitives with
  | PrimitiveCollection members reference => PrimitiveCollection (members ++ [p]) reference
  | other => other
  end.

(** [Cesium.Scene]: the converter reads its GL line-width ceiling. *)
Record Scene : Type := { maximumAliasedLineWidth : float }.

End Cesium.

(** ** The shared, mutable objects *)

Module Store.

(** [olcsx.core.OlFeatureToCesiumContext]: the projection of the layer,
    the billboard collection and the map from feature identity to
    billboard. *)
Record Context : Type := {
  projection : Projection;
  billboards : list Cesium.Billboard;
  featureToCesiumMap : gmap nat Cesium.Billboard
}.

(** The context objects, by reference. *)
Definition Contexts : Type := gmap nat Context.

(** A pending [goog.events.listenOnce] registration: the event source
    (an image element), the event type and the listener, a closure that
    acts on the context objects it captured. *)
Record Listener : Type := {
  listener_src : nat;
  listener_type : string;
  listener_call : gmap nat Context -> gmap nat Context
}.

(** Everything the converter shares with its callers across calls. *)
Record World : Type := {
  contexts : gmap nat Context;
  listeners : list Listener
}.

(** [goog.events.listenOnce(src, type, listener)]. *)
Definition listenOnce (src : nat) (type : string)
    (listener : gmap nat Context -> gmap nat Context) (w : World) : World :=
  {| contexts := contexts w;
     listeners := listeners w ++
       [{| listener_src := src; listener_type := type; listener_call := listener |}] |}.

Definition listens (src : nat) (type : string) (l : Listener) : bool :=
  Nat.eqb (listener_src l) src && String.eqb (listener_type l) type.

(** The event [type] fires on [src]: the listeners registered for it
    run in registration order and, being one-shot, are removed. *)
Definition dispatchEvent (src : nat) (type : string) (w : World) : World :=
  {| contexts :=
       fold_left (fun cs l => listener_call l cs)
         (filter (fun l => listens src type l = true) (listeners w)) (contexts w);
     listeners := filter (fun l => listens src type l = false) (listeners w) |}.

(** [billboards.add(bb)] on the billboard collection of a context. *)
Definition billboards_add (context : nat) (bb : Cesium.Billboard)
    (cs : gmap nat Context) : gmap nat Context :=
  alter (fun c => {| projection := projection c;
                     billboards := billboards c ++ [bb];
                     featureToCesiumMap := featureToCesiumMap c |}) context cs.

(** [context.featureToCesiumMap[uid] = bb]. *)
Definition featureToCesiumMap_set (context : nat) (uid : nat) (bb : Cesium.Billboard)
    (cs : gmap nat Context) : gmap nat Context :=
  alter (fun c => {| projection := projection c;
                     billboards := billboards c;
                     featureToCesiumMap := <[uid := bb]> (featureToCesiumMap c) |}) context cs.

(** [context.projection = proj]. *)
Definition projection_set (context : nat) (proj : Projection)
    (cs : gmap nat Context) : gmap nat Context :=
  alter (fun c => {| projection := proj;
                     billboards := billboards c;
                     featureToCesiumMap := featureToCesiumMap c |}) context cs.

End Store.

(** ** What the converter calls outside this file *)

(** The functions of OpenLayers and Cesium the converter calls for their
    numeric results, taken as they are: the coordinate transformation of
    [ol.proj] into EPSG:4326 and what it makes of the radius of a circle,
    the center of the extent of a geometry, the conversion of a
    geographic coordinate to the Cartesian frame of the globe, the
    distance of two Cartesian positions, and the conversion of a color. *)
Class Externs : Type := {
  transformTo4326 : Projection -> Coordinate -> Coordinate;
  transformRadiusTo4326 : Projection -> Coordinate -> float -> float;
  extent_getCenter : Ol.Geometry -> float * float;
  ol4326CoordinateToCesiumCartesian : Coordinate -> Cesium.Cartesian3;
  Cartesian3_distance : Cesium.Cartesian3 -> Cesium.Cartesian3 -> float;
  convertColorToCesium : option Ol.Color -> Cesium.Color
}.

(** What can carry the picking properties: a primitive, a label or a
    billboard. *)
Class Pickable (A : Type) : Type := {
  reference_of : A -> option Cesium.PickingReference;
  with_reference : Cesium.PickingReference -> A -> A
}.

#[export] Instance Primitive_Pickable : Pickable Cesium.Primitive := {|
  reference_of p :=
    match p with
    | Cesium.CsPrimitive _ _ r | Cesium.PrimitiveCollection _ r
    | Cesium.LabelCollection _ r => r
    end;
  with_reference r p :=
    match p with
    | Cesium.CsPrimitive g a _ => Cesium.CsPrimitive g a (Some r)
    | Cesium.PrimitiveCollection m _ => Cesium.PrimitiveCollection m (Some r)
    | Cesium.LabelCollection l _ => Cesium.LabelCollection l (Some r)
    end
|}.

#[export] Instance Label_Pickable : Pickable Cesium.Label := {|
  reference_of := Cesium.label_reference;
  with_reference r l :=
    {| Cesium.label_position := Cesium.label_position l;
       Cesium.label_text := Cesium.label_text l;
       Cesium.label_heightReference := Cesium.label_heightReference l;
       Cesium.label_pixelOffset := Cesium.label_pixelOffset l;
       Cesium.label_font := Cesium.label_font l;
       Cesium.label_fillColor := Cesium.label_fillColor l;
       Cesium.label_outlineWidth := Cesium.label_outlineWidth l;
       Cesium.label_outlineColor := Cesium.label_outlineColor l;
       Cesium.label_style := Cesium.label_style l;
       Cesium.label_horizontalOrigin := Cesium.label_horizontalOrigin l;
       Cesium.label_verticalOrigin := Cesium.label_verticalOrigin l;
       Cesium.label_reference := Some r |}
|}.

#[export] Instance Billboard_Pickable : Pickable Cesium.Billboard := {|
  reference_of := Cesium.billboard_reference;
  with_reference r b :=
    {| Cesium.billboard_image := Cesium.billboard_image b;
       Cesium.billboard_color := Cesium.billboard_color b;
       Cesium.billboard_heightReference := Cesium.billboard_heightReference b;
       Cesium.billboard_verticalOrigin := Cesium.billboard_verticalOrigin b;
       Cesium.billboard_position := Cesium.billboard_position b;
       Cesium.billboard_reference := Some r |}
|}.

(** ** olcs.core: the helpers of the repository the converter relies on *)

Module Core.
Section Core.
Context {E : Externs}.

(** Modelled from the spec: [olcs.core.olGeometryCloneTo4326], which is
    not in the source file: "returns a deep copy of the geometry with
    all coordinates transformed into the fixed global (geographic)
    frame; source geometry is never mutated".  The copy keeps the type
    and the properties of the geometry. *)
Fixpoint olGeometryCloneTo4326 (geometry : Ol.Geometry) (projection : Projection)
    : Ol.Geometry :=
  let t := transformTo4326 projection in
  match geometry with
  | Point p c => Point p (t c)
  | LineString p cs => LineString p (map t cs)
  | LinearRing p cs => LinearRing p (map t cs)
  | Polygon p rs => Polygon p (map (map t) rs)
  | Circle p c r => Circle p (t c) (transformRadiusTo4326 projection c r)
  | MultiPoint p cs => MultiPoint p (map t cs)
  | MultiLineString p ls => MultiLineString p (map (map t) ls)
  | MultiPolygon p ps => MultiPolygon p (map (map (map t)) ps)
  | GeometryCollection p gs =>
      GeometryCollection p
        (map (option_map (fun g => olGeometryCloneTo4326 g projection)) gs)
  end.

(** Modelled from the spec: [olcs.core.ol4326CoordinateArrayToCsCartesians],
    which is not in the source file: the "order-preserving batch form"
    of the conversion of one coordinate. *)
Definition ol4326CoordinateArrayToCsCartesians (coordinates : list Coordinate)
    : list Cesium.Cartesian3 :=
  map ol4326CoordinateToCesiumCartesian coordinates.

(** Modelled from the spec: [olcs.core.OlLayerPrimitive], which is not
    in the source file: the collection a layer conversion returns,
    created together with its conversion context ("target projection,
    a container for point markers (billboards), and a mapping from
    feature identity to its produced renderable"), which starts
    empty. *)
Record OlLayerPrimitive : Type := {
  context : nat;
  primitives : list Cesium.Primitive
}.

Definition new_context (proj : Projection) : Store.Context :=
  {| Store.projection := proj; Store.billboards := [];
     Store.featureToCesiumMap := ∅ |}.

Definition new_OlLayerPrimitive (proj : Projection) (w : Store.World)
    : OlLayerPrimitive * Store.World :=
  let c := fresh (dom (Store.contexts w)) in
  ({| context := c; primitives := [] |},
   {| Store.contexts := <[c := new_context proj]> (Store.contexts w);
      Store.listeners := Store.listeners w |}).

End Core.
End Core.

(** ** olcs.FeatureConverter *)

Module FeatureConverter.
Import Cesium Store Core.

Section FeatureConverter.
Context {E : Externs}.

(** [this.scene], set by the constructor. *)
Variable scene : Scene.

Local Open Scope js_scope.

(** [goog.asserts.assert(condition)] and [goog.asserts.fail(message)],
    with assertions enabled. *)
Definition assert (condition : bool) : completion unit :=
  if condition then Normal tt else Throw (AssertionError "Assertion failed").

Definition fail {A} (message : string) : completion A :=
  Throw (AssertionError ("Failure: " ++ message)).

(** A computation over the shared objects: it returns or throws, and
    leaves the world as it has changed it so far. *)
Definition M (A : Type) : Type := World -> completion A * World.

Definition setReferenceForPicking {P} `{Pickable P}
    (layer : Layer) (feature : Feature) (primitive : P) : P :=
  with_reference {| olLayer := layer_uid layer; olFeature := getUid feature |} primitive.

Definition createColoredPrimitive (layer : Layer) (feature : Feature)
    (geometry : Cesium.Geometry) (color : Cesium.Color) (opt_lineWidth : option float)
    : Primitive :=
  let createInstance geometry color :=
    {| geometry := geometry; attributes_color := Some color |} in
  let appearance := PerInstanceColorAppearance true true opt_lineWidth in
  let instances := createInstance geometry color in
  let primitive := CsPrimitive (Some instances) (Some appearance) None in
  setReferenceForPicking layer feature primitive.

Definition extractColorFromOlStyle {S} `{FillStroke S} (style : S) (outline : bool)
    : Cesium.Color :=
  let fillColor :=
    match getFill style with Some f => fill_getColor f | None => None end in
  let strokeColor :=
    match getStroke style with Some s => stroke_getColor s | None => None end in
  let olColor :=
    if truthy_color strokeColor && outline then strokeColor
    else if truthy_color fillColor then fillColor
    else Some (ColorString "black") in
  convertColorToCesium olColor.

Definition extractLineWidthFromOlStyle {S} `{FillStroke S} (style : S) : float :=
  let width :=
    match getStroke style with
    | Some stroke => stroke_getWidth stroke
    | None => Some 1%float
    end in
  Math_min (ToNumber width) (maximumAliasedLineWidth scene).

Definition wrapFillAndOutlineGeometries (layer : Layer) (feature : Feature)
    (fillGeometry outlineGeometry : Cesium.Geometry) (olStyle : Style) : Primitive :=
  let fillColor := extractColorFromOlStyle olStyle false in
  let outlineColor := extractColorFromOlStyle olStyle true in
  let primitives := new_PrimitiveCollection in
  let primitives :=
    match style_getFill olStyle with
    | Some _ =>
        let p := createColoredPrimitive layer feature fillGeometry fillColor None in
        add primitives p
    | None => primitives
    end in
  let primitives :=
    match style_getStroke olStyle with
    | Some _ =>
        let width := extractLineWidthFromOlStyle olStyle in
        let p := createColoredPrimitive layer feature outlineGeometry outlineColor
                   (Some width) in
        add primitives p
    | None => primitives
    end in
  primitives.

Definition getHeightReference (layer : Layer) (feature : Feature)
    (geometry : Ol.Geometry) : HeightReference :=
  let altitudeMode := geometry_altitudeMode geometry in
  let altitudeMode :=
    match altitudeMode with
    | None => feature_altitudeMode feature
    | Some _ => altitudeMode
    end in
  let altitudeMode :=
    match altitudeMode with
    | None => layer_altitudeMode layer
    | Some _ => altitudeMode
    end in
  match altitudeMode with
  | Some mode =>
      if String.eqb mode "clampToGround" then HeightReference_CLAMP_TO_GROUND
      else if String.eqb mode "relativeToGround" then HeightReference_RELATIVE_TO_GROUND
      else HeightReference_NONE
  | None => HeightReference_NONE
  end.

(** [first.length == 3 ? first[2] : 0.0]. *)
Definition third_or_zero (c : Coordinate) : float :=
  if Nat.eqb (length c) 3 then nth 2 c 0%float else 0%float.

Definition olGeometry4326TextPartToCesium (layer : Layer) (feature : Feature)
    (geometry : Ol.Geometry) (style : Text) : completion Primitive :=
  match text_getText style with
  | None => Throw (AssertionError "Assertion failed")
  | Some text =>
      let extentCenter := extent_getCenter geometry in
      let extentCenter :=
        if isSimpleGeometry geometry then
          let first := getFirstCoordinate geometry in
          [fst extentCenter; snd extentCenter; third_or_zero first]
        else [fst extentCenter; snd extentCenter] in
      let position := ol4326CoordinateToCesiumCartesian extentCenter in
      let heightReference := getHeightReference layer feature geometry in
      let offsetX := text_getOffsetX style in
      let offsetY := text_getOffsetY style in
      let pixelOffset :=
        if number_neq offsetX 0 && number_neq offsetY 0
        then Some {| px := offsetX; py := offsetY |} else None in
      let font := text_getFont style in
      let fillColor :=
        match text_getFill style with
        | Some _ => Some (extractColorFromOlStyle style false)
        | None => None
        end in
      let labelStyle :=
        match text_getFill style with
        | Some _ => Some LabelStyle_FILL
        | None => None
        end in
      let outlineWidth :=
        match text_getStroke style with
        | Some _ => Some (extractLineWidthFromOlStyle style)
        | None => None
        end in
      let outlineColor :=
        match text_getStroke style with
        | Some _ => Some (extractColorFromOlStyle style true)
        | None => None
        end in
      let labelStyle :=
        match text_getStroke style with
        | Some _ => Some LabelStyle_OUTLINE
        | None => labelStyle
        end in
      let labelStyle :=
        match text_getFill style, text_getStroke style with
        | Some _, Some _ => Some LabelStyle_FILL_AND_OUTLINE
        | _, _ => labelStyle
        end in
      let! horizontalOrigin :=
        match text_getTextAlign style with
        | Some align =>
            if truthy_string align then
              if String.eqb align "center" then Normal (Some HorizontalOrigin_CENTER)
              else if String.eqb align "left" then Normal (Some HorizontalOrigin_LEFT)
              else if String.eqb align "right" then Normal (Some HorizontalOrigin_RIGHT)
              else fail ("unhandled text align " ++ align)
            else Normal None
        | None => Normal None
        end in
      let! verticalOrigin :=
        match text_getTextBaseline style with
        | Some baseline =>
            if truthy_string baseline then
              if String.eqb baseline "top" then Normal (Some VerticalOrigin_TOP)
              else if String.eqb baseline "middle" then Normal (Some VerticalOrigin_CENTER)
              else if String.eqb baseline "bottom" then Normal (Some VerticalOrigin_BOTTOM)
              else if String.eqb baseline "alphabetic" then Normal (Some VerticalOrigin_TOP)
              else if String.eqb baseline "hanging" then Normal (Some VerticalOrigin_BOTTOM)
              else fail ("unhandled baseline " ++ baseline)
            else Normal None
        | None => Normal None
        end in
      let l :=
        {| label_position := position;
           label_text := text;
           label_heightReference := heightReference;
           label_pixelOffset := pixelOffset;
           label_font := font;
           label_fillColor := fillColor;
           label_outlineWidth := outlineWidth;
           label_outlineColor := outlineColor;
           label_style := labelStyle;
           label_horizontalOrigin := horizontalOrigin;
           label_verticalOrigin := verticalOrigin;
           label_reference := None |} in
      let l := setReferenceForPicking layer feature l in
      Normal (LabelCollection [l] None)
  end.

Definition addTextStyle (layer : Layer) (feature : Feature) (geometry : Ol.Geometry)
    (style : Style) (primitive : Primitive) : completion Primitive :=
  let primitives :=
    match primitive with
    | PrimitiveCollection _ _ => primitive
    | _ => add new_PrimitiveCollection primitive
    end in
  match style_getText style with
  | None => Normal primitives
  | Some text =>
      let! label := olGeometry4326TextPartToCesium layer feature geometry text in
      Normal (add primitives label)
  end.

(** [billboards] refers to the billboard collection of a context, by the
    identity of that context; [bbOptions] are the options of the new
    billboard.  The billboard is tagged right after it is added, and the
    collection holds the very object that is tagged. *)
Definition csAddBillboard (billboards : nat) (bbOptions : Billboard)
    (layer : Layer) (feature : Feature) (geometry : Ol.Geometry) (style : Style)
    (cs : gmap nat Context) : Billboard * gmap nat Context :=
  let bb := setReferenceForPicking layer feature bbOptions in
  (bb, billboards_add billboards bb cs).

(** [point[0] += radius] on a copy of the center: on an empty array the
    first element is [undefined], and the sum is [NaN]. *)
Definition add_to_first (point : Coordinate) (radius : float) : Coordinate :=
  match point with
  | [] => [(ToNumber None + radius)%float]
  | x :: rest => (x + radius)%float :: rest
  end.

Definition olCircleGeometryToCesium (layer : Layer) (feature : Feature)
    (olGeometry : Ol.Geometry) (projection : Projection) (olStyle : Style)
    : completion Primitive :=
  let olGeometry := olGeometryCloneTo4326 olGeometry projection in
  match olGeometry with
  | Circle _ center radius =>
      let height := third_or_zero center in
      let point := center in
      let point := add_to_first point radius in
      let center := ol4326CoordinateToCesiumCartesian center in
      let point := ol4326CoordinateToCesiumCartesian point in
      let radius := Cartesian3_distance center point in
      let fillGeometry := CircleGeometry center radius height in
      let outlineGeometry := CircleOutlineGeometry center radius height height in
      let primitives :=
        wrapFillAndOutlineGeometries layer feature fillGeometry outlineGeometry olStyle in
      addTextStyle layer feature olGeometry olStyle primitives
  | _ => Throw (AssertionError "Assertion failed")
  end.

Definition olStyleToCesium (feature : Feature) (style : Style) (outline : bool)
    : option Material :=
  let fill := style_getFill style in
  let stroke := style_getStroke style in
  match outline, stroke, fill with
  | true, None, _ => None
  | false, _, None => None
  | true, Some stroke, _ =>
      let color := stroke_getColor stroke in
      let color := convertColorToCesium color in
      match stroke_getLineDash stroke with
      | Some _ =>
          Some (Stripe false 500%float color
                  {| red := 0; green := 0; blue := 0; alpha := 0 |})
      | None => Some (ColorMaterial color)
      end
  | false, _, Some fill =>
      let color := fill_getColor fill in
      let color := convertColorToCesium color in
      Some (ColorMaterial color)
  end.

Definition olLineStringGeometryToCesium (layer : Layer) (feature : Feature)
    (olGeometry : Ol.Geometry) (projection : Projection) (olStyle : Style)
    : completion Primitive :=
  let olGeometry := olGeometryCloneTo4326 olGeometry projection in
  match olGeometry with
  | LineString _ coordinates =>
      let positions := ol4326CoordinateArrayToCsCartesians coordinates in
      let appearance := PolylineMaterialAppearance (olStyleToCesium feature olStyle true) in
      let outlineGeometry :=
        PolylineGeometry positions (extractLineWidthFromOlStyle olStyle) in
      let outlinePrimitive :=
        CsPrimitive
          (Some {| geometry := outlineGeometry; attributes_color := None |})
          (Some appearance) None in
      let outlinePrimitive := setReferenceForPicking layer feature outlinePrimitive in
      addTextStyle layer feature olGeometry olStyle outlinePrimitive
  | _ => Throw (AssertionError "Assertion failed")
  end.

(** The object literals of the polygon hierarchy: [{}] and
    [{positions: positions}] allocate a new object, an assignment to a
    property updates the object a reference points to. *)
Definition new_object (objects : list HierarchyObject) (o : HierarchyObject)
    : list HierarchyObject * nat :=
  (objects ++ [o], length objects).

Definition set_positions (hierarchy : nat) (ps : list Cartesian3)
    (objects : list HierarchyObject) : list HierarchyObject :=
  alter (fun o => {| positions := Some ps; holes := holes o |}) hierarchy objects.

Definition set_holes (hierarchy : nat) (hole : nat)
    (objects : list HierarchyObject) : list HierarchyObject :=
  alter (fun o => {| positions := positions o; holes := Some hole |}) hierarchy objects.

(** The body of the loop over the rings, from index [i] on: [hierarchy]
    is the object the variable of that name refers to. *)
Fixpoint olPolygonGeometryToCesium_rings (i : nat) (rings : list Ol.Geometry)
    (objects : list HierarchyObject) (hierarchy : nat)
    : completion (list HierarchyObject * nat) :=
  match rings with
  | [] => Normal (objects, hierarchy)
  | ring :: rest =>
      let olPos := getCoordinates ring in
      let positions := ol4326CoordinateArrayToCsCartesians olPos in
      let! _ := assert (Nat.ltb 0 (length positions)) in
      if Nat.eqb i 0 then
        let objects := set_positions hierarchy positions objects in
        olPolygonGeometryToCesium_rings (S i) rest objects hierarchy
      else
        let '(objects, hole) :=
          new_object objects {| positions := Some positions; holes := None |} in
        let objects := set_holes hierarchy hole objects in
        let hierarchy := hole in
        olPolygonGeometryToCesium_rings (S i) rest objects hierarchy
  end.

Definition olPolygonGeometryToCesium (layer : Layer) (feature : Feature)
    (olGeometry : Ol.Geometry) (projection : Projection) (olStyle : Style)
    : completion Primitive :=
  let olGeometry := olGeometryCloneTo4326 olGeometry projection in
  match olGeometry with
  | Polygon _ coordinates =>
      let rings := getLinearRings coordinates in
      let '(objects, hierarchy) :=
        new_object [] {| positions := None; holes := None |} in
      let polygonHierarchy := hierarchy in
      let! _ := assert (Nat.ltb 0 (length rings)) in
      let! result := olPolygonGeometryToCesium_rings 0 rings objects hierarchy in
      let '(objects, hierarchy) := result in
      let fillGeometry :=
        PolygonGeometry {| objects := objects; target := polygonHierarchy |} true in
      let outlineGeometry :=
        PolygonOutlineGeometry {| objects := objects; target := hierarchy |} true in
      let primitives :=
        wrapFillAndOutlineGeometries layer feature fillGeometry outlineGeometry olStyle in
      addTextStyle layer feature olGeometry olStyle primitives
  | _ => Throw (AssertionError "Assertion failed")
  end.

(** The new-billboard callback: a closure over context objects. *)
Definition Callback : Type := Billboard -> gmap nat Context -> gmap nat Context.

(** [image instanceof Image]; [Image] and [HTMLImageElement] share their
    prototype. *)
Definition instanceof_Image (image : option ImageObject) : bool :=
  match image with
  | Some (HTMLImageElement _ _ _ _ _) => true
  | _ => false
  end.

Definition isImageLoaded (image : option ImageObject) : bool :=
  match image with
  | Some (HTMLImageElement _ src naturalHeight naturalWidth complete) =>
      negb (String.eqb src "") && negb (N.eqb naturalHeight 0)
      && negb (N.eqb naturalWidth 0) && complete
  | _ => false
  end.

(** [point.getCoordinates()]. *)
Definition point_getCoordinates (geometry : Ol.Geometry) : Coordinate :=
  match geometry with
  | Point _ c => c
  | _ => []
  end.

(** The closure [reallyCreateBillboard] of [olPointGeometryToCesium],
    over the variables it captures. *)
Definition reallyCreateBillboard (layer : Layer) (feature : Feature)
    (geometry : Ol.Geometry) (style : Style) (imageStyle : ImageStyle)
    (image : option ImageObject) (billboards : nat)
    (opt_newBillboardCallback : option Callback)
    (cs : gmap nat Context) : gmap nat Context :=
  match image with
  | None => cs
  | Some (HTMLVideoElement _) => cs
  | Some image =>
      let center := point_getCoordinates geometry in
      let position := ol4326CoordinateToCesiumCartesian center in
      let color :=
        match image_getOpacity imageStyle with
        | Some opacity => Some {| red := 1; green := 1; blue := 1; alpha := opacity |}
        | None => None
        end in
      let heightReference := getHeightReference layer feature geometry in
      let bbOptions :=
        {| billboard_image := image;
           billboard_color := color;
           billboard_heightReference := heightReference;
           billboard_verticalOrigin := VerticalOrigin_BOTTOM;
           billboard_position := position;
           billboard_reference := None |} in
      let '(bb, cs) :=
        csAddBillboard billboards bbOptions layer feature geometry style cs in
      match opt_newBillboardCallback with
      | Some callback => callback bb cs
      | None => cs
      end
  end.

Definition olPointGeometryToCesium (layer : Layer) (feature : Feature)
    (geometry : Ol.Geometry) (projection : Projection) (style : Style)
    (billboards : nat) (opt_newBillboardCallback : option Callback)
    : M (option Primitive) :=
  fun w =>
  match geometry with
  | Point _ _ =>
      let geometry := olGeometryCloneTo4326 geometry projection in
      match style_getImage style with
      | None => (Throw (TypeError "Cannot read property 'getImage' of null"), w)
      | Some imageStyle =>
          let image := image_getImage imageStyle in
          let reallyCreateBillboard :=
            reallyCreateBillboard layer feature geometry style imageStyle image
              billboards opt_newBillboardCallback in
          let w :=
            if instanceof_Image image && negb (isImageLoaded image) then
              let listener := fun cs => reallyCreateBillboard cs in
              match image with
              | Some image => listenOnce (image_id image) "load" listener w
              | None => w
              end
            else
              {| contexts := reallyCreateBillboard (contexts w);
                 listeners := listeners w |} in
          match style_getText style with
          | Some _ =>
              match addTextStyle layer feature geometry style new_Primitive with
              | Normal primitives => (Normal (Some primitives), w)
              | Throw e => (Throw e, w)
              end
          | None => (Normal None, w)
          end
      end
  | _ => (Throw (AssertionError "Assertion failed"), w)
  end.

(** The local function [accumulate] of [olMultiGeometryToCesium]: the
    collection of what [functor] makes of each geometry, in order. *)
Fixpoint accumulate (primitives : Primitive) (geometries : list Ol.Geometry)
    (functor : Ol.Geometry -> completion Primitive) : completion Primitive :=
  match geometries with
  | [] => Normal primitives
  | geometry :: rest =>
      let! p := functor geometry in
      accumulate (add primitives p) rest functor
  end.

(** The loop over the points of a multi-point whose style has a text. *)
Fixpoint olMultiGeometryToCesium_points (layer : Layer) (feature : Feature)
    (projection : Projection) (olStyle : Style) (billboards : nat)
    (opt_newBillboardCallback : option Callback)
    (subgeos : list Ol.Geometry) (primitives : Primitive) : M Primitive :=
  fun w =>
  match subgeos with
  | [] => (Normal primitives, w)
  | geometry :: rest =>
      match olPointGeometryToCesium layer feature geometry projection olStyle
              billboards opt_newBillboardCallback w with
      | (Normal (Some result), w) =>
          olMultiGeometryToCesium_points layer feature projection olStyle billboards
            opt_newBillboardCallback rest (add primitives result) w
      | (Normal None, w) =>
          olMultiGeometryToCesium_points layer feature projection olStyle billboards
            opt_newBillboardCallback rest primitives w
      | (Throw e, w) => (Throw e, w)
      end
  end.

Definition olMultiGeometryToCesium (layer : Layer) (feature : Feature)
    (geometry : Ol.Geometry) (projection : Projection) (olStyle : Style)
    (billboards : nat) (opt_newBillboardCallback : option Callback)
    : M (option Primitive) :=
  fun w =>
  match geometry with
  | MultiPoint _ points =>
      let subgeos := getPoints points in
      match style_getText olStyle with
      | Some _ =>
          match olMultiGeometryToCesium_points layer feature projection olStyle
                  billboards opt_newBillboardCallback subgeos
                  new_PrimitiveCollection w with
          | (Normal primitives, w) => (Normal (Some primitives), w)
          | (Throw e, w) => (Throw e, w)
          end
      | None =>
          (* the callback of this [forEach] is not bound: [this] is not
             the converter when it runs *)
          match subgeos with
          | [] => (Normal None, w)
          | _ :: _ =>
              (Throw (TypeError "this.olPointGeometryToCesium is not a function"), w)
          end
      end
  | MultiLineString _ lines =>
      let subgeos := getLineStrings lines in
      match accumulate new_PrimitiveCollection subgeos
              (fun g => olLineStringGeometryToCesium layer feature g projection olStyle) with
      | Normal primitives => (Normal (Some primitives), w)
      | Throw e => (Throw e, w)
      end
  | MultiPolygon _ polygons =>
      let subgeos := getPolygons polygons in
      match accumulate new_PrimitiveCollection subgeos
              (fun g => olPolygonGeometryToCesium layer feature g projection olStyle) with
      | Normal primitives => (Normal (Some primitives), w)
      | Throw e => (Throw e, w)
      end
  | _ => (fail ("Unhandled multi geometry type" ++ getType geometry), w)
  end.

Definition computePlainStyle (layer : Layer) (feature : Feature)
    (fallbackStyle : option (Feature -> float -> StyleResult)) (resolution : float)
    : completion (nullable Style) :=
  let featureStyle := getStyleFunction feature in
  let style :=
    match featureStyle with
    | Some featureStyle => featureStyle resolution
    | None => Undefined
    end in
  let style :=
    match fallbackStyle with
    | Some fallbackStyle =>
        if negb (isDefAndNotNull style) then fallbackStyle feature resolution else style
    | None => style
    end in
  if negb (isDef style) then Normal Null
  else
    match style with
    | Defined array => Normal (first_element array)
    | _ => Throw (AssertionError "Assertion failed")
    end.

(** The closure [newBillboardAddedCallback] of [olFeatureToCesium]:
    [context.featureToCesiumMap[goog.getUid(feature)] = bb]. *)
Definition newBillboardAddedCallback (context : nat) (feature : Feature) : Callback :=
  fun bb cs => featureToCesiumMap_set context (getUid feature) bb cs.

(** The [forEach] of [olFeatureToCesium] over the members of a geometry
    collection: a member that is there is converted by [convertMember],
    and what it gives, unless it is null, is added to [primitives]. *)
Section Members.
Variable convertMember : Ol.Geometry -> World -> completion (option Primitive) * World.

Fixpoint olFeatureToCesium_members (geometries : list (option Ol.Geometry))
    (primitives : Primitive) (w : World) {struct geometries}
    : completion Primitive * World :=
  match geometries with
  | [] => (Normal primitives, w)
  | None :: rest => olFeatureToCesium_members rest primitives w
  | Some geom :: rest =>
      match convertMember geom w with
      | (Normal (Some prims), w) =>
          olFeatureToCesium_members rest (add primitives prims) w
      | (Normal None, w) => olFeatureToCesium_members rest primitives w
      | (Throw e, w) => (Throw e, w)
      end
  end.

End Members.

(** What [collection.getGeometries()] makes of the geometry the converter
    is given.  The callback of [olFeatureToCesium] gets clones of the
    members of a collection and, from a clone that is a collection
    again, clones of its members.  [clone] goes through the members, so
    [getGeometries] of a clone gives the members of the clone over
    again: the geometry with [getGeometries] in the place of its
    members holds, at every depth, the very members the callback gets.
    [olFeatureToCesium_GeometryCollection] below states the conversion
    of a collection as the source has it, by [olFeatureToCesium] on each
    member that [getGeometries] gives. *)
Definition withMembersGiven (geom : Ol.Geometry) : Ol.Geometry :=
  match geom with
  | GeometryCollection props geometries =>
      GeometryCollection props (getGeometries geometries)
  | _ => geom
  end.

(** [olFeatureToCesium] on a geometry that is there: the [switch] on the
    type of the geometry.  A geometry collection converts its members by
    the same function; they are the clones [getGeometries] gave, which
    [withMembersGiven] has put in their place. *)
Fixpoint olFeatureToCesium_geom (layer : Layer) (feature : Feature) (style : Style)
    (context : nat) (geom : Ol.Geometry) (w : World) {struct geom}
    : completion (option Primitive) * World :=
  match contexts w !! context with
  | None => (Throw (TypeError "Cannot read property 'projection' of undefined"), w)
  | Some c =>
      let proj := projection c in
      let newBillboardAddedCallback := newBillboardAddedCallback context feature in
      match geom with
      | GeometryCollection _ geometries =>
          match olFeatureToCesium_members
                  (fun geom w => olFeatureToCesium_geom layer feature style context geom w)
                  geometries new_PrimitiveCollection w with
          | (Normal primitives, w) => (Normal (Some primitives), w)
          | (Throw e, w) => (Throw e, w)
          end
      | Point _ _ =>
          let bbs := context in
          olPointGeometryToCesium layer feature geom proj style bbs
            (Some newBillboardAddedCallback) w
      | Circle _ _ _ =>
          match olCircleGeometryToCesium layer feature geom proj style with
          | Normal primitives => (Normal (Some primitives), w)
          | Throw e => (Throw e, w)
          end
      | LineString _ _ =>
          match olLineStringGeometryToCesium layer feature geom proj style with
          | Normal primitives => (Normal (Some primitives), w)
          | Throw e => (Throw e, w)
          end
      | Polygon _ _ =>
          match olPolygonGeometryToCesium layer feature geom proj style with
          | Normal primitives => (Normal (Some primitives), w)
          | Throw e => (Throw e, w)
          end
      | MultiPoint _ _ | MultiLineString _ _ | MultiPolygon _ _ =>
          olMultiGeometryToCesium layer feature geom proj style context
            (Some newBillboardAddedCallback) w
      | LinearRing _ _ =>
          (Throw (JsError "LinearRing should only be part of polygon."), w)
      end
  end.

Definition olFeatureToCesium (layer : Layer) (feature : Feature) (style : Style)
    (context : nat) (opt_geom : option Ol.Geometry) : M (option Primitive) :=
  fun w =>
  let geom :=
    match opt_geom with
    | Some g => Some g
    | None => getGeometry feature
    end in
  match contexts w !! context with
  | None => (Throw (TypeError "Cannot read property 'projection' of undefined"), w)
  | Some _ =>
      match geom with
      | None => (Normal None, w)
      | Some geom =>
          olFeatureToCesium_geom layer feature style context (withMembersGiven geom) w
      end
  end.

(** [allPrimitives.add(primitives)] on the collection of the layer. *)
Definition OlLayerPrimitive_add (allPrimitives : OlLayerPrimitive) (p : Primitive)
    : OlLayerPrimitive :=
  {| Core.context := Core.context allPrimitives;
     Core.primitives := Core.primitives allPrimitives ++ [p] |}.

(** The loop of [olVectorLayerToCesium] over the features, with the two
    objects it fills: the collection of the layer and the map of the
    caller. *)
Fixpoint olVectorLayerToCesium_features (olLayer : Layer) (resolution : float)
    (features : list (option Feature)) (allPrimitives : OlLayerPrimitive)
    (featurePrimitiveMap : gmap nat Primitive) (w : World)
    : completion OlLayerPrimitive * gmap nat Primitive * World :=
  match features with
  | [] => (Normal allPrimitives, featurePrimitiveMap, w)
  | None :: rest =>
      olVectorLayerToCesium_features olLayer resolution rest allPrimitives
        featurePrimitiveMap w
  | Some feature :: rest =>
      let context := Core.context allPrimitives in
      let layerStyle := layer_getStyleFunction olLayer in
      match computePlainStyle olLayer feature layerStyle resolution with
      | Throw e => (Throw e, featurePrimitiveMap, w)
      | Normal (Defined style) =>
          match olFeatureToCesium olLayer feature style context None w with
          | (Throw e, w) => (Throw e, featurePrimitiveMap, w)
          | (Normal None, w) =>
              olVectorLayerToCesium_features olLayer resolution rest allPrimitives
                featurePrimitiveMap w
          | (Normal (Some primitives), w) =>
              let featurePrimitiveMap :=
                <[getUid feature := primitives]> featurePrimitiveMap in
              let allPrimitives := OlLayerPrimitive_add allPrimitives primitives in
              olVectorLayerToCesium_features olLayer resolution rest allPrimitives
                featurePrimitiveMap w
          end
      | Normal _ =>
          olVectorLayerToCesium_features olLayer resolution rest allPrimitives
            featurePrimitiveMap w
      end
  end.

(** The outcome of [olVectorLayerToCesium], the map of the caller as the
    call leaves it, and the world. *)
Definition olVectorLayerToCesium (olLayer : Layer) (olView : View)
    (featurePrimitiveMap : gmap nat Primitive) (w : World)
    : completion OlLayerPrimitive * gmap nat Primitive * World :=
  let features := getFeatures olLayer in
  let proj := getProjection olView in
  let resolution := getResolution olView in
  match resolution, proj with
  | Some resolution, Some proj =>
      let '(allPrimitives, w) := new_OlLayerPrimitive proj w in
      olVectorLayerToCesium_features olLayer resolution features allPrimitives
        featurePrimitiveMap w
  | _, _ => (fail "View not ready", featurePrimitiveMap, w)
  end.

Definition convert (layer : Layer) (view : View) (feature : Feature) (context : nat)
    : M (option Primitive) :=
  fun w =>
  let proj := getProjection view in
  let resolution := getResolution view in
  match resolution, proj with
  | Some resolution, Some proj =>
      let layerStyle := layer_getStyleFunction layer in
      match computePlainStyle layer feature layerStyle resolution with
      | Throw e => (Throw e, w)
      | Normal (Defined style) =>
          let w :=
            {| contexts := projection_set context proj (contexts w);
               listeners := listeners w |} in
          olFeatureToCesium layer feature style context None w
      | Normal _ => (Normal None, w)
      end
  | _, _ => (Normal None, w)
  end.

End FeatureConverter.
End FeatureConverter.

(** ** Concrete inputs *)

Module Examples.
Import Cesium Store Core FeatureConverter.

(** A stand-in for the numeric functions of OpenLayers and Cesium: the
    source projection is already geographic, and the globe is a plane on
    which one degree is 100000 units. *)
Definition flatDegree : float := 100000%float.

Definition flatCartesian (c : Coordinate) : Cartesian3 :=
  {| x := (nth 0 c 0 * flatDegree)%float;
     y := (nth 1 c 0 * flatDegree)%float;
     z := nth 2 c 0%float |}.

Definition flatDistance (a b : Cartesian3) : float :=
  let dx := (x a - x b)%float in
  let dy := (y a - y b)%float in
  let dz := (z a - z b)%float in
  PrimFloat.sqrt (dx * dx + dy * dy + dz * dz)%float.

Definition black : Cesium.Color := {| red := 0; green := 0; blue := 0; alpha := 1 |}.

Definition flatColor (c : option Ol.Color) : Cesium.Color :=
  match c with
  | Some (ColorArray [r; g; b; a]) =>
      {| red := (r / 255)%float; green := (g / 255)%float;
         blue := (b / 255)%float; alpha := a |}
  | _ => black
  end.

Definition flatExterns : Externs := {|
  transformTo4326 _ c := c;
  transformRadiusTo4326 _ _ r := r;
  extent_getCenter g :=
    let first := getFirstCoordinate g in (nth 0 first 0%float, nth 1 first 0%float);
  ol4326CoordinateToCesiumCartesian := flatCartesian;
  Cartesian3_distance := flatDistance;
  convertColorToCesium := flatColor
|}.

Definition scene8 : Scene := {| maximumAliasedLineWidth := 8 |}.

Definition epsg4326 : Projection := {| code := "EPSG:4326" |}.

Definition olRed : Ol.Color := ColorArray [255; 0; 0; 1]%float.
Definition olBlue : Ol.Color := ColorString "blue".

Definition redFill : Fill := {| fill_getColor := Some olRed |}.

Definition stroke50 : Stroke :=
  {| stroke_getColor := Some olBlue; stroke_getWidth := Some 50%float;
     stroke_getLineDash := None |}.

Definition dashedStroke : Stroke :=
  {| stroke_getColor := Some olBlue; stroke_getWidth := Some 2%float;
     stroke_getLineDash := Some [4; 4]%float |}.

(** A stroke made with a color only: its width is undefined. *)
Definition strokeNoWidth : Stroke :=
  {| stroke_getColor := Some olBlue; stroke_getWidth := None;
     stroke_getLineDash := None |}.

Definition styleOf (fill : option Fill) (stroke : option Stroke)
    (image : option ImageStyle) (text : option Text) : Style :=
  {| style_getFill := fill; style_getStroke := stroke;
     style_getImage := image; style_getText := text |}.

Definition fillAndStroke : Style := styleOf (Some redFill) (Some stroke50) None None.
Definition strokeOnly : Style := styleOf None (Some stroke50) None None.

Definition nameText : Text :=
  {| text_getText := Some "name"; text_getFont := None;
     text_getOffsetX := 0; text_getOffsetY := 0;
     text_getFill := Some redFill; text_getStroke := None;
     text_getTextAlign := Some "center"; text_getTextBaseline := None |}.

(** An icon whose image is still loading, and the same image element
    once it is loaded. *)
Definition loadingImage : ImageObject := HTMLImageElement 7 "icon.png" 0 0 false.
Definition loadedImage : ImageObject := HTMLImageElement 7 "icon.png" 32 32 true.
Definition video : ImageObject := HTMLVideoElement 9.

Definition iconOf (image : option ImageObject) : ImageStyle :=
  {| image_getImage := image; image_getOpacity := Some 1%float |}.

Definition iconStyle (image : option ImageObject) (text : option Text) : Style :=
  styleOf None None (Some (iconOf image)) text.

Definition ring (cs : list (float * float)) : list Coordinate :=
  map (fun c => [fst c; snd c]) cs.

Definition outerRing : list Coordinate :=
  ring [(0, 0); (10, 0); (10, 10); (0, 10); (0, 0)]%float.
Definition hole1 : list Coordinate :=
  ring [(1, 1); (2, 1); (2, 2); (1, 1)]%float.
Definition hole2 : list Coordinate :=
  ring [(5, 5); (6, 5); (6, 6); (5, 5)]%float.

Definition featureOf (uid : nat) (geometry : option Ol.Geometry)
    (styleFunction : option (float -> StyleResult)) : Feature :=
  {| getUid := uid; getGeometry := geometry; getStyleFunction := styleFunction;
     feature_altitudeMode := None |}.

Definition layerOf (features : list (option Feature))
    (styleFunction : option (Feature -> float -> StyleResult)) : Layer :=
  {| layer_uid := 1; getFeatures := features;
     layer_getStyleFunction := styleFunction; layer_altitudeMode := None |}.

Definition readyView : View :=
  {| getProjection := Some epsg4326; getResolution := Some 1%float |}.
Definition viewWithoutResolution : View :=
  {| getProjection := Some epsg4326; getResolution := None |}.
Definition viewWithoutProjection : View :=
  {| getProjection := None; getResolution := Some 1%float |}.

Definition emptyWorld : World := {| contexts := ∅; listeners := [] |}.

(** A world with one conversion context, number 0. *)
Definition oneContext : World :=
  {| contexts := {[ 0 := new_context epsg4326 ]}; listeners := [] |}.

(** Features: a polygon with one hole, a circle, a point, and a feature
    without geometry, each styled by its own style function. *)
Definition always (style : Style) : float -> StyleResult :=
  fun _ => Defined [style].

Definition polygonFeature : Feature :=
  featureOf 4 (Some (Polygon None [outerRing; hole1])) (Some (always fillAndStroke)).

Definition circle : Ol.Geometry := Circle None [1; 2]%float 3%float.

Definition circleFeature : Feature :=
  featureOf 5 (Some circle) (Some (always fillAndStroke)).

Definition point : Ol.Geometry := Point None [1; 2]%float.

Definition pointFeature (style : Style) : Feature :=
  featureOf 6 (Some point) (Some (always style)).

Definition noGeometryFeature : Feature :=
  featureOf 8 None (Some (always fillAndStroke)).

(** A feature whose style function answers null, to hide it. *)
Definition hiddenFeature : Feature :=
  featureOf 9 (Some circle) (Some (fun _ => Null)).

Definition emptyLayer : Layer := layerOf [] None.

Definition threeFeatures : Layer :=
  layerOf [Some polygonFeature; Some noGeometryFeature; Some circleFeature] None.

(** A text component with an alignment the label builder has no case
    for. *)
Definition justifiedText : Text :=
  {| text_getText := Some "name"; text_getFont := None;
     text_getOffsetX := 0; text_getOffsetY := 0;
     text_getFill := Some redFill; text_getStroke := None;
     text_getTextAlign := Some "justify"; text_getTextBaseline := None |}.

(** A text component with a fill, a stroke of width 50 and an offset
    along the horizontal axis alone. *)
Definition outlinedText : Text :=
  {| text_getText := Some "name"; text_getFont := Some "12px sans-serif";
     text_getOffsetX := 5; text_getOffsetY := 0;
     text_getFill := Some redFill; text_getStroke := Some stroke50;
     text_getTextAlign := Some "left"; text_getTextBaseline := Some "alphabetic" |}.

(** A multi-line-string of two lines, a multi-point of two points that
    asks to be clamped to the ground, and a collection of a circle, a
    member that is null and a line string. *)
Definition twoLines : Ol.Geometry := MultiLineString None [outerRing; hole1].

Definition twoPoints : Ol.Geometry :=
  MultiPoint (Some "clampToGround") [[1; 2]; [3; 4]]%float.

Definition circleAndLine : Ol.Geometry :=
  GeometryCollection (Some "clampToGround")
    [Some circle; None; Some (LineString None hole1)].

(** A layer of a point with a loaded icon, an entry that is null and a
    circle. *)
Definition iconLayer : Layer :=
  layerOf [Some (pointFeature (iconStyle (Some loadedImage) None)); None;
           Some circleFeature] None.

(** A layer without style function that holds a polygon, the feature
    whose style function answers null, and a circle. *)
Definition hiddenFeatureLayer : Layer :=
  layerOf [Some polygonFeature; Some hiddenFeature; Some circleFeature] None.

(** A point that asks to be clamped to the ground, and the collection
    that holds it. *)
Definition clampedPoint : Ol.Geometry := Point (Some "clampToGround") [1; 2]%float.

Definition clampedPointCollection : Ol.Geometry :=
  GeometryCollection None [Some clampedPoint].

End Examples.

(** ** What can be observed of a conversion *)

Module Observe.
Import Cesium Store Core FeatureConverter.

(** The objects a hierarchy reference reaches: the object it refers to
    and, through the [holes] properties, the objects below it.  No chain
    is longer than the number of objects allocated. *)
Fixpoint reachable (fuel : nat) (objects : list HierarchyObject) (r : nat)
    : list HierarchyObject :=
  match fuel with
  | O => []
  | S fuel =>
      match objects !! r with
      | None => []
      | Some o =>
          o :: match holes o with
               | Some h => reachable fuel objects h
               | None => []
               end
      end
  end.

Definition hierarchy_objects (h : Hierarchy) : list HierarchyObject :=
  reachable (length (objects h)) (objects h) (target h).

(** The ring boundaries of a hierarchy: the positions of the objects it
    reaches. *)
Definition ring_boundaries (h : Hierarchy) : list (list Cartesian3) :=
  omap positions (hierarchy_objects h).

(** The hole entries of a hierarchy: the objects reached through a
    [holes] property. *)
Definition hole_entries (h : Hierarchy) : list HierarchyObject :=
  tail (hierarchy_objects h).

(** The objects of a chain of rings allocated from [start] on: each but
    the last refers to the next one as its [holes]. *)
Fixpoint chain (start : nat) (rings : list (list Cartesian3)) : list HierarchyObject :=
  match rings with
  | [] => []
  | [ring] => [{| positions := Some ring; holes := None |}]
  | ring :: rest =>
      {| positions := Some ring; holes := Some (S start) |} :: chain (S start) rest
  end.

(** The radius a circle geometry was constructed with. *)
Definition radius_of (g : Cesium.Geometry) : option float :=
  match g with
  | CircleGeometry _ r _ | CircleOutlineGeometry _ r _ _ => Some r
  | _ => None
  end.

(** Every object of a returned tree: the primitive itself and, for a
    collection, the objects of its members. *)
Fixpoint renderables (p : Primitive) : list Primitive :=
  match p with
  | PrimitiveCollection members _ =>
      p :: (fix all (ms : list Primitive) : list Primitive :=
              match ms with
              | [] => []
              | m :: ms => renderables m ++ all ms
              end) members
  | _ => [p]
  end.

(** The labels of a returned tree. *)
Fixpoint labels_of (p : Primitive) : list Label :=
  match p with
  | CsPrimitive _ _ _ => []
  | LabelCollection ls _ => ls
  | PrimitiveCollection members _ =>
      (fix all (ms : list Primitive) : list Label :=
         match ms with
         | [] => []
         | m :: ms => labels_of m ++ all ms
         end) members
  end.

(** The geometry of a single primitive. *)
Definition geometry_of (p : Primitive) : option Cesium.Geometry :=
  match p with
  | CsPrimitive (Some instances) _ _ => Some (geometry instances)
  | _ => None
  end.

(** The geometries of a returned tree. *)
Definition geometries_of (p : Primitive) : list Cesium.Geometry :=
  omap geometry_of (renderables p).

Definition isCollection (p : Primitive) : bool :=
  match p with
  | CsPrimitive _ _ _ => false
  | _ => true
  end.

(** A text align and a text baseline [olGeometry4326TextPartToCesium]
    handles: a falsy one, or one of the values of its [switch]. *)
Definition handledAlign (align : option string) : bool :=
  match align with
  | None => true
  | Some a =>
      negb (truthy_string a) || String.eqb a "center" || String.eqb a "left"
      || String.eqb a "right"
  end.

Definition handledBaseline (baseline : option string) : bool :=
  match baseline with
  | None => true
  | Some b =>
      negb (truthy_string b) || String.eqb b "top" || String.eqb b "middle"
      || String.eqb b "bottom" || String.eqb b "alphabetic" || String.eqb b "hanging"
  end.

(** A text component a label can be made of. *)
Definition handledText (text : Text) : bool :=
  match text_getText text with Some _ => true | None => false end
  && handledAlign (text_getTextAlign text)
  && handledBaseline (text_getTextBaseline text).

(** An icon image a billboard can be made of: a canvas or an image
    element. *)
Definition supportedImage (image : option ImageObject) : bool :=
  match image with
  | Some (HTMLCanvasElement _) | Some (HTMLImageElement _ _ _ _ _) => true
  | _ => false
  end.

(** What a style resolver yields: an array of candidates, or nothing. *)
Definition yields (r : StyleResult) : option (list Style) :=
  match r with
  | Defined candidates => Some candidates
  | _ => None
  end.

(** The style of a feature in the words of the specification: "evaluate
    the feature's own style function at the given resolution if present;
    if it yields nothing, fall back to the layer-level style function; a
    feature/layer with neither produces null.  When a style resolver
    yields multiple style candidates, exactly the first is used". *)
Definition resolveStyle (feature : Feature)
    (fallbackStyleFn : option (Feature -> float -> StyleResult)) (resolution : float)
    : nullable Style :=
  let own :=
    match getStyleFunction feature with
    | Some f => yields (f resolution)
    | None => None
    end in
  let candidates :=
    match own with
    | Some candidates => Some candidates
    | None =>
        match fallbackStyleFn with
        | Some f => yields (f feature resolution)
        | None => None
        end
    end in
  match candidates with
  | Some candidates => first_element candidates
  | None => Null
  end.

(** The value of the variable [style] of [computePlainStyle] after the
    two resolvers were consulted. *)
Definition consulted (feature : Feature)
    (fallbackStyle : option (Feature -> float -> StyleResult)) (resolution : float)
    : StyleResult :=
  let own :=
    match getStyleFunction feature with
    | Some f => f resolution
    | None => Undefined
    end in
  match fallbackStyle with
  | Some f => if isDefAndNotNull own then own else f feature resolution
  | None => own
  end.

(** A style the orchestrators do not render: [!style]. *)
Definition falsy {A} (style : nullable A) : bool := negb (isDefAndNotNull style).

(** The billboard collection and the feature map of a context. *)
Definition billboards_of (context : nat) (cs : gmap nat Context) : list Billboard :=
  match cs !! context with
  | Some c => billboards c
  | None => []
  end.

Definition featureToCesiumMap_of (context : nat) (cs : gmap nat Context)
    : gmap nat Billboard :=
  match cs !! context with
  | Some c => featureToCesiumMap c
  | None => ∅
  end.

(** The back-reference to a layer and a feature. *)
Definition referenceTo (layer : Layer) (feature : Feature) : PickingReference :=
  {| olLayer := layer_uid layer; olFeature := getUid feature |}.

(** An object carries the back-reference to a layer and a feature. *)
Definition carries {P} `{Pickable P} (layer : Layer) (feature : Feature) (p : P) : Prop :=
  reference_of p = Some (referenceTo layer feature).

(** A single primitive that has geometry to draw. *)
Definition hasGeometry (p : Primitive) : Prop := is_Some (geometry_of p).

(** The billboard of a point: the icon, white with the opacity of the
    image style, anchored at its bottom at the converted position of the
    point, with the height reference of the point and the back-reference
    to the layer and the feature. *)
Definition billboardOf {E : Externs} (layer : Layer) (feature : Feature)
    (geometry4326 : Ol.Geometry) (imageStyle : ImageStyle) (image : ImageObject)
    : Billboard :=
  {| billboard_image := image;
     billboard_color :=
       match image_getOpacity imageStyle with
       | Some opacity => Some {| red := 1; green := 1; blue := 1; alpha := opacity |}
       | None => None
       end;
     billboard_heightReference := getHeightReference layer feature geometry4326;
     billboard_verticalOrigin := VerticalOrigin_BOTTOM;
     billboard_position :=
       ol4326CoordinateToCesiumCartesian (point_getCoordinates geometry4326);
     billboard_reference := Some (referenceTo layer feature) |}.

(** A billboard is added to the collection of a context and recorded in
    its feature map under the identity of a feature. *)
Definition push (context : nat) (uid : nat) (bb : Billboard) (cs : gmap nat Context)
    : gmap nat Context :=
  featureToCesiumMap_set context uid bb (billboards_add context bb cs).

(** The contexts after the billboards [bbs] were pushed, in order. *)
Definition pushed (context : nat) (uid : nat) (bbs : list Billboard)
    (cs : gmap nat Context) : gmap nat Context :=
  fold_left (fun cs bb => push context uid bb cs) bbs cs.

(** A listener that pushes a billboard when the image [src] loads. *)
Definition pushListener (context : nat) (uid : nat) (pending : nat * Billboard)
    : Listener :=
  {| listener_src := fst pending; listener_type := "load";
     listener_call := push context uid (snd pending) |}.

(** What the conversion of a feature does to the world: it pushes
    billboards on its context and registers listeners that will push
    one, and every one of these billboards carries the back-reference to
    the layer and the feature. *)
Definition grows (layer : Layer) (feature : Feature) (context : nat) (w w' : World)
    : Prop :=
  exists (bbs : list Billboard) (pending : list (nat * Billboard)),
    contexts w' = pushed context (getUid feature) bbs (contexts w) /\
    Forall (carries layer feature) bbs /\
    listeners w' =
      listeners w ++ map (pushListener context (getUid feature)) pending /\
    Forall (fun p => carries layer feature (snd p)) pending.

(** In a returned tree, every single primitive that has geometry and
    every label carries the back-reference to the layer and the feature,
    and no collection carries one. *)
Definition leaves_carry (layer : Layer) (feature : Feature) (p : Primitive) : Prop :=
  Forall (fun r => hasGeometry r -> carries layer feature r) (renderables p) /\
  Forall (carries layer feature) (labels_of p) /\
  Forall (fun r => isCollection r = true -> reference_of r = None) (renderables p).

(** The icon of a point is an image element that is not loaded yet. *)
Definition imageNotLoaded (image : option ImageObject) : bool :=
  instanceof_Image image && negb (isImageLoaded image).

(** A geometry that holds a point: a point, a multi-point, or a
    collection with such a member. *)
Fixpoint hasPoints (g : Ol.Geometry) : bool :=
  match g with
  | Point _ _ | MultiPoint _ _ => true
  | GeometryCollection _ gs =>
      existsb (fun m => match m with Some m => hasPoints m | None => false end) gs
  | _ => false
  end.

(** The member geometries of a multi-geometry, as [getPoints],
    [getLineStrings] and [getPolygons] return them. *)
Definition subgeometries (g : Ol.Geometry) : list Ol.Geometry :=
  match g with
  | MultiPoint _ points => getPoints points
  | MultiLineString _ lines => getLineStrings lines
  | MultiPolygon _ polygons => getPolygons polygons
  | _ => []
  end.

(** A style whose text component, if it has one, a label can be made
    of. *)
Definition handledStyle (style : Style) : bool :=
  match style_getText style with
  | Some text => handledText text
  | None => true
  end.

(** One for a style component that is there, zero for one that is
    not. *)
Definition present {A} (component : option A) : nat :=
  match component with
  | Some _ => 1
  | None => 0
  end.

(** The line widths one object of a returned tree asks of the GL
    context: the line width of its appearance, the width of its polyline,
    the outline widths of its labels. *)
Definition lineWidths_of (p : Primitive) : list float :=
  match p with
  | CsPrimitive instances appearance _ =>
      match appearance with
      | Some (PerInstanceColorAppearance _ _ (Some width)) => [width]
      | _ => []
      end ++
      match option_map geometry instances with
      | Some (PolylineGeometry _ width) => [width]
      | _ => []
      end
  | LabelCollection ls _ => omap label_outlineWidth ls
  | PrimitiveCollection _ _ => []
  end.

(** The line widths of a returned tree. *)
Definition lineWidths (p : Primitive) : list float :=
  concat (map lineWidths_of (renderables p)).

(** The features of a layer that are there. *)
Definition featuresOf (layer : Layer) : list Feature :=
  omap id (getFeatures layer).

(** What a conversion of [features] of a layer into a context may do to
    the world, seen from outside: the other contexts are as they were;
    the projection of the context is kept; its billboard collection has
    the billboards it had, in their order, and after them billboards
    that refer to the layer and to one of the features; its feature map
    is as it was under every identity that is not one of the features';
    and the listeners that were pending are still pending, in their
    order, before the new ones. *)
Definition onlyAdds (layer : Layer) (features : list Feature) (context : nat)
    (w w' : World) : Prop :=
  (forall k, k <> context -> contexts w' !! k = contexts w !! k) /\
  projection <$> (contexts w' !! context) = projection <$> (contexts w !! context) /\
  (exists added,
     billboards_of context (contexts w') = billboards_of context (contexts w) ++ added /\
     Forall (fun bb => exists feature, In feature features /\ carries layer feature bb)
       added) /\
  (forall uid,
     (forall feature, In feature features -> getUid feature <> uid) ->
     featureToCesiumMap_of context (contexts w') !! uid =
     featureToCesiumMap_of context (contexts w) !! uid) /\
  (exists pending, listeners w' = listeners w ++ pending).

(** The geometries of a fill and the geometries of an outline. *)
Definition isFillGeometry (g : Cesium.Geometry) : bool :=
  match g with
  | CircleGeometry _ _ _ | PolygonGeometry _ _ => true
  | _ => false
  end.

Definition isOutlineGeometry (g : Cesium.Geometry) : bool :=
  match g with
  | CircleOutlineGeometry _ _ _ _ | PolygonOutlineGeometry _ _ => true
  | _ => false
  end.

(** The objects a conversion of a feature under a style is made of: a
    collection without back-reference; the colored primitive of a fill,
    which has no line width; the colored primitive of an outline, with
    the line width of the style; the primitive of a polyline, with the
    line width and the outline material of the style; the empty
    primitive; and what [olGeometry4326TextPartToCesium] returns for the
    text component of the style. *)
Inductive produced {E : Externs} (scene : Scene) (layer : Layer) (feature : Feature)
    (style : Style) : Primitive -> Prop :=
| produced_collection (members : list Primitive) :
    produced scene layer feature style (PrimitiveCollection members None)
| produced_fill (geometry : Cesium.Geometry) :
    isFillGeometry geometry = true ->
    is_Some (style_getFill style) ->
    produced scene layer feature style
      (createColoredPrimitive layer feature geometry
         (extractColorFromOlStyle style false) None)
| produced_outline (geometry : Cesium.Geometry) :
    isOutlineGeometry geometry = true ->
    is_Some (style_getStroke style) ->
    produced scene layer feature style
      (createColoredPrimitive layer feature geometry
         (extractColorFromOlStyle style true)
         (Some (extractLineWidthFromOlStyle scene style)))
| produced_polyline (positions : list Cartesian3) :
    produced scene layer feature style
      (CsPrimitive
         (Some {| geometry :=
                    PolylineGeometry positions (extractLineWidthFromOlStyle scene style);
                  attributes_color := None |})
         (Some (PolylineMaterialAppearance (olStyleToCesium feature style true)))
         (Some (referenceTo layer feature)))
| produced_empty :
    produced scene layer feature style new_Primitive
| produced_label (geometry : Ol.Geometry) (text : Text) (labels : Primitive) :
    style_getText style = Some text ->
    olGeometry4326TextPartToCesium scene layer feature geometry text = Normal labels ->
    produced scene layer feature style labels.

(** Every object of a returned tree is such an object. *)
Definition allProduced {E : Externs} (scene : Scene) (layer : Layer) (feature : Feature)
    (style : Style) (p : Primitive) : Prop :=
  Forall (produced scene layer feature style) (renderables p).

(** The label style of a text component: filled, outlined, or both;
    undefined when the text has neither fill nor stroke. *)
Definition labelStyleOf (text : Text) : option LabelStyle :=
  match text_getFill text, text_getStroke text with
  | Some _, Some _ => Some LabelStyle_FILL_AND_OUTLINE
  | None, Some _ => Some LabelStyle_OUTLINE
  | Some _, None => Some LabelStyle_FILL
  | None, None => None
  end.

(** A point, line string, polygon or circle the converter of its type
    returns for under a style: a point needs an image component, a
    polygon a ring and no ring that is empty, and each of them a text
    component, if the style has one, that a label can be made of. *)
Definition simpleConvertible (style : Style) (g : Ol.Geometry) : bool :=
  match g with
  | Point _ _ =>
      match style_getImage style with
      | Some _ => handledStyle style
      | None => false
      end
  | LineString _ _ | Circle _ _ _ => handledStyle style
  | Polygon _ rings =>
      match rings with
      | [] => false
      | _ => forallb (fun ring : list Coordinate =>
                        match ring with [] => false | _ => true end) rings
      end && handledStyle style
  | _ => false
  end.

(** A geometry [olFeatureToCesium] returns for under a style: a point,
    line string, polygon or circle as above; a multi-line-string or
    multi-polygon whose members all are; a multi-point whose points all
    are, under a style that has a text component; a collection whose
    members that are there all are; never a linear ring. *)
Fixpoint convertible (style : Style) (g : Ol.Geometry) : bool :=
  match g with
  | GeometryCollection _ geometries =>
      forallb (fun m => match m with Some m => convertible style m | None => true end)
        geometries
  | MultiPoint _ _ =>
      forallb (fun p => match style_getText style with
                        | Some _ => simpleConvertible style p
                        | None => false
                        end) (subgeometries g)
  | MultiLineString _ _ | MultiPolygon _ _ =>
      forallb (simpleConvertible style) (subgeometries g)
  | _ => simpleConvertible style g
  end.

(** A feature the loop of [olVectorLayerToCesium] gets past: its style
    resolves without failure, and the feature is skipped, for want of a
    style or a geometry, or has a geometry that converts under the
    style. *)
Definition featureConvertible (layer : Layer) (resolution : float) (feature : Feature)
    : bool :=
  match computePlainStyle layer feature (layer_getStyleFunction layer) resolution with
  | Throw _ => false
  | Normal (Defined style) =>
      match getGeometry feature with
      | Some g => convertible style g
      | None => true
      end
  | Normal _ => true
  end.

(** A layer converted one feature at a time: [convert] on each feature
    that is there, in the order of the features, into the context of a
    collection; what it returns, unless it is null, is written to the
    map under the identity of the feature and added to the collection,
    and a failure ends the conversion. *)
Fixpoint convertEach {E : Externs} (scene : Scene) (layer : Layer) (view : View)
    (features : list (option Feature)) (allPrimitives : OlLayerPrimitive)
    (featurePrimitiveMap : gmap nat Primitive) (w : World)
    : completion OlLayerPrimitive * gmap nat Primitive * World :=
  match features with
  | [] => (Normal allPrimitives, featurePrimitiveMap, w)
  | None :: rest =>
      convertEach scene layer view rest allPrimitives featurePrimitiveMap w
  | Some feature :: rest =>
      match convert scene layer view feature (Core.context allPrimitives) w with
      | (Normal (Some primitives), w) =>
          convertEach scene layer view rest
            (OlLayerPrimitive_add allPrimitives primitives)
            (<[getUid feature := primitives]> featurePrimitiveMap) w
      | (Normal None, w) =>
          convertEach scene layer view rest allPrimitives featurePrimitiveMap w
      | (Throw e, w) => (Throw e, featurePrimitiveMap, w)
      end
  end.

(** The height reference of what has no ['altitudeMode'] of its own: the
    one the feature asks for or, failing that, the layer. *)
Definition inheritedHeightReference (layer : Layer) (feature : Feature)
    : HeightReference :=
  getHeightReference layer feature (GeometryCollection None []).

(** What the conversion of a feature pushes on its context, at once or
    when an image loads: billboards that all have the property [P]. *)
Definition pushes (P : Billboard -> Prop) (feature : Feature) (context : nat)
    (w w' : World) : Prop :=
  exists (bbs : list Billboard) (pending : list (nat * Billboard)),
    contexts w' = pushed context (getUid feature) bbs (contexts w) /\
    listeners w' =
      listeners w ++ map (pushListener context (getUid feature)) pending /\
    Forall P bbs /\
    Forall (fun p => P (snd p)) pending.

(** A billboard and a label that have this height reference, and a tree
    whose labels all have it. *)
Definition billboardInherits (layer : Layer) (feature : Feature) (bb : Billboard) : Prop :=
  billboard_heightReference bb = inheritedHeightReference layer feature.

Definition labelInherits (layer : Layer) (feature : Feature) (label : Label) : Prop :=
  label_heightReference label = inheritedHeightReference layer feature.

Definition labelsInherit (layer : Layer) (feature : Feature) (p : Primitive) : Prop :=
  Forall (labelInherits layer feature) (labels_of p).

End Observe.

(** * Properties *)

Import JS Ol Cesium Store Core FeatureConverter Observe.

(** ** Numbers *)

Section Numbers.

Lemma SFcompare_nan_r x : SFcompare x S754_nan = None.
Proof. destruct x as [s|s| |s m e]; reflexivity. Qed.

Lemma SFcompare_antisym x y :
  SFcompare y x = option_map CompOpp (SFcompare x y).
Proof.
  destruct x as [s1|s1| |s1 m1 e1], y as [s2|s2| |s2 m2 e2]; simpl;
    try reflexivity; try (destruct s1; reflexivity); try (destruct s2; reflexivity);
    try (destruct s1, s2; reflexivity).
  f_equal. destruct s1, s2; try reflexivity.
  - rewrite (Z.compare_antisym e1 e2).
    destruct (e1 ?= e2)%Z eqn:He; simpl; try reflexivity.
    rewrite (Pos.compare_cont_antisym m1 m2 Eq). simpl. reflexivity.
  - rewrite (Z.compare_antisym e1 e2).
    destruct (e1 ?= e2)%Z eqn:He; simpl; try reflexivity.
    rewrite (Pos.compare_cont_antisym m1 m2 Eq). simpl. reflexivity.
Qed.

Lemma ltb_asym a b : (a <? b)%float = true -> (b <? a)%float = false.
Proof.
  rewrite !FloatAxioms.ltb_spec. unfold SFltb.
  rewrite (SFcompare_antisym (Prim2SF a) (Prim2SF b)).
  destruct (SFcompare (Prim2SF a) (Prim2SF b)) as [[]|]; simpl; congruence.
Qed.

Lemma ltb_irrefl a : (a <? a)%float = false.
Proof.
  destruct (a <? a)%float eqn:H; [|reflexivity].
  pose proof (ltb_asym a a H). congruence.
Qed.

Lemma ltb_nan_r a : (a <? nan)%float = false.
Proof.
  rewrite FloatAxioms.ltb_spec. unfold SFltb.
  change (Prim2SF nan) with S754_nan. rewrite SFcompare_nan_r. reflexivity.
Qed.

Lemma ltb_not_nan a b : (a <? b)%float = true -> is_nan a = false /\ is_nan b = false.
Proof.
  unfold is_nan. rewrite FloatAxioms.ltb_spec, !FloatAxioms.eqb_spec. unfold SFltb, SFeqb.
  destruct (Prim2SF a) as [s1|s1| |s1 m1 e1], (Prim2SF b) as [s2|s2| |s2 m2 e2];
    simpl; try discriminate; intros _; split; try reflexivity;
    try (destruct s1; reflexivity); try (destruct s2; reflexivity).
  all: try (destruct s1; rewrite Z.compare_refl, Pos.compare_cont_refl; reflexivity).
  all: try (destruct s2; rewrite Z.compare_refl, Pos.compare_cont_refl; reflexivity).
Qed.

(** [Math.min] never returns more than its second argument. *)
Lemma Math_min_never_exceeds a b : (b <? Math_min a b)%float = false.
Proof.
  unfold Math_min.
  destruct (is_nan a || is_nan b); [apply ltb_nan_r|].
  destruct (a <? b)%float eqn:Hab; [apply ltb_asym; exact Hab|].
  destruct (b <? a)%float eqn:Hba; [apply ltb_irrefl|].
  destruct (get_sign a); [exact Hba | apply ltb_irrefl].
Qed.

Lemma Math_min_clamps a b : (b <? a)%float = true -> Math_min a b = b.
Proof.
  intros H. unfold Math_min.
  destruct (ltb_not_nan _ _ H) as [Hb Ha]. rewrite Ha, Hb. simpl.
  rewrite (ltb_asym _ _ H), H. reflexivity.
Qed.

Lemma Math_min_keeps a b : (a <? b)%float = true -> Math_min a b = a.
Proof.
  intros H. unfold Math_min.
  destruct (ltb_not_nan _ _ H) as [Ha Hb]. rewrite Ha, Hb. simpl.
  rewrite H. reflexivity.
Qed.

Lemma Math_min_nan_l b : Math_min nan b = nan.
Proof. reflexivity. Qed.

Lemma nan_is_not_one : nan <> 1%float.
Proof. intros H. apply (f_equal is_nan) in H. discriminate H. Qed.

End Numbers.

(** ** The style extractors *)

Section Extractors.
Context {E : Externs}.
Variable scene : Scene.

(** Without a stroke the width is the default 1, clamped. *)
Lemma extractLineWidthFromOlStyle_no_stroke (style : Style) :
  style_getStroke style = None ->
  extractLineWidthFromOlStyle scene style = Math_min 1 (maximumAliasedLineWidth scene).
Proof. intros H. unfold extractLineWidthFromOlStyle. simpl. rewrite H. reflexivity. Qed.

(** With a stroke that has a width, the width is that of the stroke,
    clamped. *)
Lemma extractLineWidthFromOlStyle_stroke_width (style : Style) (stroke : Stroke)
    (width : float) :
  style_getStroke style = Some stroke -> stroke_getWidth stroke = Some width ->
  extractLineWidthFromOlStyle scene style = Math_min width (maximumAliasedLineWidth scene).
Proof.
  intros H Hw. unfold extractLineWidthFromOlStyle. simpl. rewrite H, Hw. reflexivity.
Qed.

(** Whatever the style, the width never exceeds the maximum the renderer
    supports. *)
Lemma extractLineWidthFromOlStyle_never_exceeds (style : Style) :
  (maximumAliasedLineWidth scene <? extractLineWidthFromOlStyle scene style)%float = false.
Proof. apply Math_min_never_exceeds. Qed.

(** A stroke wider than the maximum yields the maximum. *)
Lemma extractLineWidthFromOlStyle_clamps (style : Style) (stroke : Stroke) (width : float) :
  style_getStroke style = Some stroke -> stroke_getWidth stroke = Some width ->
  (maximumAliasedLineWidth scene <? width)%float = true ->
  extractLineWidthFromOlStyle scene style = maximumAliasedLineWidth scene.
Proof.
  intros H Hw Hlt. rewrite (extractLineWidthFromOlStyle_stroke_width _ _ _ H Hw).
  apply Math_min_clamps, Hlt.
Qed.

(** C7: the width [extractLineWidthFromOlStyle] returns is meant to be
    the stroke width of the style, 1 when the style gives no stroke
    width, clamped to the maximum line width of the renderer.  The code
    takes the default only when the style has no stroke at all: for a
    stroke whose width is undefined, the result is [NaN], whatever the
    maximum. *)
Theorem extractLineWidthFromOlStyle_undefined_width (style : Style) (stroke : Stroke) :
  style_getStroke style = Some stroke -> stroke_getWidth stroke = None ->
  extractLineWidthFromOlStyle scene style = nan.
Proof.
  intros H Hw. unfold extractLineWidthFromOlStyle. simpl. rewrite H, Hw. reflexivity.
Qed.

(** C6: [olStyleToCesium] returns null exactly when the requested side
    has no style component (an outline without a stroke, a fill without
    a fill); for an outline whose stroke has a dash pattern it returns
    the striped material, in every other case a flat color material.  A
    style with only a stroke so has a material for its outline and none
    for its fill. *)
Theorem olStyleToCesium_materials (feature : Feature) (style : Style) (outline : bool) :
  (olStyleToCesium feature style outline = None <->
     (outline = true /\ style_getStroke style = None) \/
     (outline = false /\ style_getFill style = None)) /\
  (forall stroke dash,
     outline = true -> style_getStroke style = Some stroke ->
     stroke_getLineDash stroke = Some dash ->
     olStyleToCesium feature style outline =
       Some (Stripe false 500 (convertColorToCesium (stroke_getColor stroke))
               {| red := 0; green := 0; blue := 0; alpha := 0 |})) /\
  (forall stroke,
     outline = true -> style_getStroke style = Some stroke ->
     stroke_getLineDash stroke = None ->
     olStyleToCesium feature style outline =
       Some (ColorMaterial (convertColorToCesium (stroke_getColor stroke)))) /\
  (forall fill,
     outline = false -> style_getFill style = Some fill ->
     olStyleToCesium feature style outline =
       Some (ColorMaterial (convertColorToCesium (fill_getColor fill)))) /\
  (is_Some (style_getStroke style) -> style_getFill style = None ->
     is_Some (olStyleToCesium feature style true) /\
     olStyleToCesium feature style false = None).
Proof.
  unfold olStyleToCesium.
  split; [|split; [|split; [|split]]].
  - destruct outline, (style_getStroke style) as [stroke|],
      (style_getFill style) as [fill|]; simpl;
      try (destruct (stroke_getLineDash stroke));
      (split; [ first [ discriminate | intros _; tauto ]
              | first [ reflexivity | intros [[? ?]|[? ?]]; discriminate ] ]).
  - intros stroke dash -> -> Hd. rewrite Hd. reflexivity.
  - intros stroke -> -> Hd. rewrite Hd. reflexivity.
  - intros fill -> Hf. rewrite Hf. destruct (style_getStroke style); reflexivity.
  - intros [stroke ->] ->. simpl. split; [|reflexivity].
    destruct (stroke_getLineDash stroke); eexists; reflexivity.
Qed.

End Extractors.

(** ** Style resolution *)

Section StyleResolution.
Context {E : Externs}.
Variable scene : Scene.

(** [computePlainStyle] returns the style of the specification, the
    first candidate of the resolver that yields, unless the resolver
    consulted last answers null: then, and only then, it fails. *)
Lemma computePlainStyle_resolves (layer : Layer) (feature : Feature)
    (fallbackStyle : option (Feature -> float -> StyleResult)) (resolution : float) :
  computePlainStyle layer feature fallbackStyle resolution =
    match consulted feature fallbackStyle resolution with
    | Null => Throw (AssertionError "Assertion failed")
    | _ => Normal (resolveStyle feature fallbackStyle resolution)
    end.
Proof.
  unfold computePlainStyle, consulted, resolveStyle.
  destruct (getStyleFunction feature) as [f|]; [destruct (f resolution)|];
    destruct fallbackStyle as [g|]; simpl; try reflexivity;
    destruct (g feature resolution); reflexivity.
Qed.

(** When a resolver yields an array of candidates, exactly the first is
    returned. *)
Lemma computePlainStyle_first_candidate (layer : Layer) (feature : Feature)
    (fallbackStyle : option (Feature -> float -> StyleResult)) (resolution : float)
    (first : Style) (others : list Style) :
  consulted feature fallbackStyle resolution = Defined (first :: others) ->
  computePlainStyle layer feature fallbackStyle resolution = Normal (Defined first).
Proof.
  intros H. rewrite computePlainStyle_resolves, H.
  unfold consulted, resolveStyle in *.
  destruct (getStyleFunction feature) as [f|]; [destruct (f resolution)|];
    destruct fallbackStyle as [g|]; simpl in *; try discriminate;
    try (destruct (g feature resolution); simplify_eq; reflexivity);
    simplify_eq; reflexivity.
Qed.

(** A feature and a layer without style functions are not rendered. *)
Lemma computePlainStyle_no_style_function (layer : Layer) (feature : Feature)
    (resolution : float) :
  getStyleFunction feature = None ->
  computePlainStyle layer feature None resolution = Normal Null.
Proof. intros H. unfold computePlainStyle. rewrite H. reflexivity. Qed.

(** C4: [computePlainStyle] is meant to return null whenever neither
    the style function of the feature nor the fallback yields a style.
    The code does so when they answer [undefined]; when the style
    function of the feature answers null and there is no fallback, or
    the fallback answers null as well, the call fails on its assertion
    instead of returning null. *)
Theorem computePlainStyle_null_style_throws (layer : Layer) (feature : Feature)
    (featureStyle : float -> StyleResult)
    (fallbackStyle : option (Feature -> float -> StyleResult)) (resolution : float) :
  getStyleFunction feature = Some featureStyle ->
  featureStyle resolution = Null ->
  match fallbackStyle with
  | Some f => f feature resolution = Null
  | None => True
  end ->
  resolveStyle feature fallbackStyle resolution = Null /\
  computePlainStyle layer feature fallbackStyle resolution =
    Throw (AssertionError "Assertion failed").
Proof.
  intros Hf Hnull Hfb. unfold computePlainStyle, resolveStyle.
  rewrite Hf, Hnull. destruct fallbackStyle as [g|]; simpl.
  - rewrite Hfb. split; reflexivity.
  - split; reflexivity.
Qed.

End StyleResolution.

(** ** Polygons *)

Section Polygons.
Context {E : Externs}.
Variable scene : Scene.

Lemma chain_length start rings : length (chain start rings) = length rings.
Proof.
  revert start. induction rings as [|ring [|ring' rest] IH]; intros start;
    [reflexivity | reflexivity |].
  change (S (length (chain (S start) (ring' :: rest))) = S (length (ring' :: rest))).
  rewrite IH. reflexivity.
Qed.

Lemma chain_positions start rings : omap positions (chain start rings) = rings.
Proof.
  revert start. induction rings as [|ring [|ring' rest] IH]; intros start;
    [reflexivity | reflexivity |].
  change (ring :: omap positions (chain (S start) (ring' :: rest)) = ring :: ring' :: rest).
  rewrite IH. reflexivity.
Qed.

(** Following the [holes] from the first object of a chain reaches the
    whole chain. *)
Lemma reachable_chain fuel before rings :
  length rings <= fuel ->
  reachable fuel (before ++ chain (length before) rings) (length before) =
    chain (length before) rings.
Proof.
  revert fuel before.
  induction rings as [|ring [|ring' rest] IH]; intros fuel before Hfuel.
  - destruct fuel; simpl; [reflexivity|].
    rewrite app_nil_r, lookup_ge_None_2 by lia. reflexivity.
  - destruct fuel; simpl in *; [lia|].
    rewrite list_lookup_middle by reflexivity. reflexivity.
  - destruct fuel; [simpl in Hfuel; lia|].
    change (chain (length before) (ring :: ring' :: rest)) with
      ({| positions := Some ring; holes := Some (S (length before)) |}
         :: chain (S (length before)) (ring' :: rest)).
    simpl reachable. rewrite list_lookup_middle by reflexivity. simpl holes.
    f_equal.
    specialize (IH fuel
      (before ++ [{| positions := Some ring; holes := Some (S (length before)) |}])).
    rewrite length_app, Nat.add_1_r, <- app_assoc in IH. simpl app in IH.
    apply IH. simpl in Hfuel |- *. lia.
Qed.

(** From the last object of a chain nothing but that object is reached. *)
Lemma reachable_chain_last fuel before rings ring :
  reachable (S fuel) (before ++ chain (length before) (rings ++ [ring]))
    (length before + length rings) =
  [{| positions := Some ring; holes := None |}].
Proof.
  revert before. induction rings as [|r rest IH]; intros before.
  - simpl. rewrite Nat.add_0_r, list_lookup_middle by reflexivity. reflexivity.
  - change (chain (length before) ((r :: rest) ++ [ring])) with
      (chain (length before) (r :: rest ++ [ring])).
    assert (Hchain : chain (length before) (r :: rest ++ [ring]) =
              {| positions := Some r; holes := Some (S (length before)) |}
                :: chain (S (length before)) (rest ++ [ring])).
    { destruct rest; reflexivity. }
    rewrite Hchain.
    specialize (IH
      (before ++ [{| positions := Some r; holes := Some (S (length before)) |}])).
    rewrite length_app, Nat.add_1_r, <- app_assoc in IH. simpl app in IH.
    simpl length. rewrite <- plus_n_Sm. exact IH.
Qed.

Lemma reachable_chain_0 fuel rings :
  length rings <= fuel -> reachable fuel (chain 0 rings) 0 = chain 0 rings.
Proof. apply (reachable_chain fuel []). Qed.

Lemma reachable_chain_0_last fuel rings ring :
  reachable (S fuel) (chain 0 (rings ++ [ring])) (length rings) =
  [{| positions := Some ring; holes := None |}].
Proof. apply (reachable_chain_last fuel []). Qed.

(** The loop over the rings after the first: the objects allocated so
    far end with the object of the last ring, to which [hierarchy]
    refers; every further ring is chained below it, and [hierarchy]
    moves on to the object of the last ring. *)
Lemma olPolygonGeometryToCesium_rings_chain (i : nat) (rings : list (list Coordinate))
    (before : list HierarchyObject) (lastRing : list Cartesian3) :
  Forall (fun ring => ring <> []) rings ->
  olPolygonGeometryToCesium_rings (S i) (getLinearRings rings)
    (before ++ [{| positions := Some lastRing; holes := None |}]) (length before) =
  Normal
    (before ++ chain (length before)
                 (lastRing :: map ol4326CoordinateArrayToCsCartesians rings),
     length before + length rings).
Proof.
  revert i before lastRing.
  induction rings as [|ring rest IH]; intros i before lastRing Hne.
  - simpl. rewrite Nat.add_0_r. reflexivity.
  - inversion Hne as [|? ? Hring Hrest]; subst.
    simpl olPolygonGeometryToCesium_rings.
    assert (Hlen : Nat.ltb 0 (length (ol4326CoordinateArrayToCsCartesians ring)) = true).
    { unfold ol4326CoordinateArrayToCsCartesians. rewrite length_map.
      destruct ring; [congruence|reflexivity]. }
    rewrite Hlen. simpl JS.bind.
    unfold new_object, set_holes.
    rewrite length_app, Nat.add_1_r.
    replace (alter _ (length before) _) with
      ((before ++ [{| positions := Some lastRing; holes := Some (S (length before)) |}])
         ++ [{| positions := Some (ol4326CoordinateArrayToCsCartesians ring);
                holes := None |}]).
    2:{ rewrite <- (Nat.add_0_r (length before)) at 2.
        rewrite <- !app_assoc. rewrite alter_app_r. reflexivity. }
    specialize (IH (S i)
      (before ++ [{| positions := Some lastRing; holes := Some (S (length before)) |}])
      (ol4326CoordinateArrayToCsCartesians ring) Hrest).
    rewrite length_app, Nat.add_1_r in IH.
    fold (getLinearRings rest). rewrite IH.
    rewrite <- app_assoc. simpl. rewrite <- plus_n_Sm. reflexivity.
Qed.

Lemma last_cons {A} (y : A) (ys : list A) (x : A) :
  List.last (y :: ys) x = List.last ys y.
Proof.
  revert y x. induction ys as [|z zs IH]; intros y x; [reflexivity|].
  change (List.last (z :: zs) x = List.last (z :: zs) y).
  rewrite (IH z x), (IH z y). reflexivity.
Qed.

Lemma snoc_last {A} (x : A) (xs : list A) :
  exists init, x :: xs = init ++ [List.last xs x] /\ length init = length xs.
Proof.
  revert x. induction xs as [|y ys IH]; intros x.
  - exists []. split; reflexivity.
  - destruct (IH y) as [init [Heq Hlen]].
    exists (x :: init). split.
    + rewrite last_cons, Heq at 1. reflexivity.
    + simpl. rewrite Hlen. reflexivity.
Qed.

Lemma last_map {A B} (f : A -> B) (xs : list A) (x : A) :
  List.last (map f xs) (f x) = f (List.last xs x).
Proof.
  revert x. induction xs as [|y ys IH]; intros x; [reflexivity|].
  destruct ys; [reflexivity|]. apply (IH x).
Qed.

(** C1: a polygon with N holes is meant to give an outline of N+1 ring
    boundaries and a fill whose hierarchy has N hole entries, the first
    ring being the outer boundary.  The fill geometry is constructed with
    the hierarchy of all N+1 rings, the outer one first, with N hole
    entries; the outline geometry is constructed with the object the
    loop variable refers to at the end, which holds the last ring alone:
    one ring boundary and no hole entry, whatever N. *)
Theorem olPolygonGeometryToCesium_hierarchies (layer : Layer) (feature : Feature)
    (props : Properties) (outer : list Coordinate) (holeRings : list (list Coordinate))
    (projection : Projection) (olStyle : Style) :
  Forall (fun ring => ring <> []) (outer :: holeRings) ->
  let converted ring :=
    ol4326CoordinateArrayToCsCartesians (map (transformTo4326 projection) ring) in
  exists fill outline : Hierarchy,
    olPolygonGeometryToCesium scene layer feature
      (Polygon props (outer :: holeRings)) projection olStyle =
    addTextStyle scene layer feature
      (olGeometryCloneTo4326 (Polygon props (outer :: holeRings)) projection) olStyle
      (wrapFillAndOutlineGeometries scene layer feature
         (PolygonGeometry fill true) (PolygonOutlineGeometry outline true) olStyle) /\
    ring_boundaries fill = converted outer :: map converted holeRings /\
    length (hole_entries fill) = length holeRings /\
    ring_boundaries outline = [converted (List.last holeRings outer)] /\
    hole_entries outline = [].
Proof.
  intros Hne converted.
  set (rings4326 := map (map (transformTo4326 projection)) holeRings).
  set (chained := chain 0 (converted outer
                     :: map ol4326CoordinateArrayToCsCartesians rings4326)).
  exists {| objects := chained; target := 0 |},
         {| objects := chained; target := length holeRings |}.
  assert (Hne' : Forall (fun ring => ring <> [])
                   (map (transformTo4326 projection) outer :: rings4326)).
  { change (Forall (fun ring => ring <> [])
              (map (map (transformTo4326 projection)) (outer :: holeRings))).
    apply Forall_fmap. eapply Forall_impl; [exact Hne|].
    intros [|c ring] H; simpl; congruence. }
  inversion Hne' as [|? ? Houter Hholes]; subst.
  assert (Hlen : length rings4326 = length holeRings).
  { unfold rings4326. apply length_map. }
  assert (Hconv : map ol4326CoordinateArrayToCsCartesians rings4326 =
                  map converted holeRings).
  { unfold rings4326. rewrite map_map. reflexivity. }
  assert (Houtline : reachable (length chained) chained (length holeRings) =
            [{| positions := Some (converted (List.last holeRings outer)); holes := None |}]).
  { destruct (snoc_last (converted outer)
                (map ol4326CoordinateArrayToCsCartesians rings4326)) as [init [Heq Hinit]].
    unfold chained. rewrite chain_length. rewrite Heq.
    rewrite length_app, Nat.add_1_r.
    rewrite length_map, Hlen in Hinit. rewrite <- Hinit.
    rewrite reachable_chain_0_last.
    rewrite Hconv. rewrite (last_map converted). reflexivity. }
  assert (Hfill : reachable (length chained) chained 0 = chained).
  { apply reachable_chain_0. unfold chained. rewrite chain_length. reflexivity. }
  split; [|split; [|split; [|split]]].
  - unfold olPolygonGeometryToCesium.
    simpl olGeometryCloneTo4326. fold rings4326.
    unfold new_object. simpl length.
    simpl olPolygonGeometryToCesium_rings.
    assert (Hpos : Nat.ltb 0 (length (ol4326CoordinateArrayToCsCartesians
                      (map (transformTo4326 projection) outer))) = true).
    { unfold ol4326CoordinateArrayToCsCartesians. rewrite length_map.
      destruct (map (transformTo4326 projection) outer); [congruence|reflexivity]. }
    rewrite Hpos. simpl JS.bind. unfold set_positions. simpl alter.
    fold (getLinearRings rings4326).
    pose proof (olPolygonGeometryToCesium_rings_chain 0 rings4326 []
                  (converted outer) Hholes) as Hloop.
    simpl app in Hloop. simpl length in Hloop. unfold converted in Hloop.
    rewrite Hloop. simpl JS.bind. rewrite Hlen. reflexivity.
  - unfold ring_boundaries, hierarchy_objects. simpl objects. simpl target.
    rewrite Hfill. unfold chained. rewrite chain_positions, Hconv. reflexivity.
  - unfold hole_entries, hierarchy_objects. simpl objects. simpl target.
    rewrite Hfill. unfold chained.
    pose proof (chain_length 0 (converted outer
                  :: map ol4326CoordinateArrayToCsCartesians rings4326)) as Hc.
    destruct (chain 0 _) as [|o os]; simpl in Hc |- *; [discriminate|].
    rewrite length_map in Hc. lia.
  - unfold ring_boundaries, hierarchy_objects. simpl objects. simpl target.
    rewrite Houtline. reflexivity.
  - unfold hole_entries, hierarchy_objects. simpl objects. simpl target.
    rewrite Houtline. reflexivity.
Qed.

End Polygons.

(** ** Circles *)

Section Circles.
Context {E : Externs}.
Variable scene : Scene.

(** The objects of a collection are the collection and the objects of
    its members. *)
Lemma renderables_collection members reference :
  renderables (PrimitiveCollection members reference) =
    PrimitiveCollection members reference :: concat (map renderables members).
Proof.
  simpl. f_equal. induction members as [|m ms IH]; [reflexivity|].
  simpl. rewrite IH. reflexivity.
Qed.

Lemma geometries_of_collection members reference :
  geometries_of (PrimitiveCollection members reference) =
    concat (map geometries_of members).
Proof.
  unfold geometries_of. rewrite renderables_collection.
  change (omap geometry_of (concat (map renderables members)) =
          concat (map (fun p => omap geometry_of (renderables p)) members)).
  induction members as [|m ms IH]; [reflexivity|].
  simpl. rewrite omap_app, IH. reflexivity.
Qed.

(** What [addTextStyle] adds to a collection is a label collection: the
    geometries stay those of the collection. *)
Lemma addTextStyle_geometries layer feature geometry style members reference result :
  addTextStyle scene layer feature geometry style (PrimitiveCollection members reference)
    = Normal result ->
  geometries_of result = geometries_of (PrimitiveCollection members reference).
Proof.
  unfold addTextStyle. destruct (style_getText style) as [text|].
  - destruct (olGeometry4326TextPartToCesium scene layer feature geometry text)
      as [label|e] eqn:Hlabel; simpl; [|discriminate].
    intros [= <-].
    assert (Hl : geometries_of label = []).
    { unfold olGeometry4326TextPartToCesium in Hlabel.
      destruct (text_getText text); [|discriminate].
      repeat match type of Hlabel with
             | context [match ?x with _ => _ end] => destruct x; simpl in Hlabel
             end; try discriminate; injection Hlabel as <-; reflexivity. }
    rewrite !geometries_of_collection, map_app, concat_app. simpl.
    rewrite Hl. rewrite !app_nil_r. reflexivity.
  - intros [= <-]. reflexivity.
Qed.

(** C2: the radius the circle converter passes to the constructors of
    the fill and of the outline geometry is the straight distance, in
    the Cartesian frame, of the converted center and the converted point
    that lies the radius of the circle further along the first axis: the
    call is the wrapping of the two geometries constructed with that
    distance, and every geometry of its result has that radius, whatever
    the radius of the circle in its own projection. *)
Theorem olCircleGeometryToCesium_radius (layer : Layer) (feature : Feature)
    (props : Properties) (center : Coordinate) (radius : float)
    (projection : Projection) (olStyle : Style) :
  let center4326 := transformTo4326 projection center in
  let radius4326 := transformRadiusTo4326 projection center radius in
  let projectedCenter := ol4326CoordinateToCesiumCartesian center4326 in
  let projectedPoint :=
    ol4326CoordinateToCesiumCartesian (add_to_first center4326 radius4326) in
  let distance := Cartesian3_distance projectedCenter projectedPoint in
  let height := third_or_zero center4326 in
  olCircleGeometryToCesium scene layer feature (Circle props center radius)
    projection olStyle =
  addTextStyle scene layer feature (Circle props center4326 radius4326) olStyle
    (wrapFillAndOutlineGeometries scene layer feature
       (CircleGeometry projectedCenter distance height)
       (CircleOutlineGeometry projectedCenter distance height height) olStyle) /\
  (forall primitives,
     olCircleGeometryToCesium scene layer feature (Circle props center radius)
       projection olStyle = Normal primitives ->
     geometries_of primitives =
       match style_getFill olStyle with
       | Some _ => [CircleGeometry projectedCenter distance height]
       | None => []
       end ++
       match style_getStroke olStyle with
       | Some _ => [CircleOutlineGeometry projectedCenter distance height height]
       | None => []
       end /\
     Forall (fun g => radius_of g = Some distance) (geometries_of primitives)) /\
  (style_getText olStyle = None ->
     returns (olCircleGeometryToCesium scene layer feature (Circle props center radius)
                projection olStyle)).
Proof.
  intros center4326 radius4326 projectedCenter projectedPoint distance height.
  assert (Heq : olCircleGeometryToCesium scene layer feature (Circle props center radius)
                  projection olStyle =
                addTextStyle scene layer feature (Circle props center4326 radius4326) olStyle
                  (wrapFillAndOutlineGeometries scene layer feature
                     (CircleGeometry projectedCenter distance height)
                     (CircleOutlineGeometry projectedCenter distance height height) olStyle))
    by reflexivity.
  split; [exact Heq|split].
  - intros primitives Hret. rewrite Heq in Hret.
    assert (Hgeo : geometries_of primitives =
              match style_getFill olStyle with
              | Some _ => [CircleGeometry projectedCenter distance height]
              | None => []
              end ++
              match style_getStroke olStyle with
              | Some _ => [CircleOutlineGeometry projectedCenter distance height height]
              | None => []
              end).
    { unfold wrapFillAndOutlineGeometries in Hret.
      destruct (style_getFill olStyle), (style_getStroke olStyle); simpl in Hret;
        apply addTextStyle_geometries in Hret; rewrite Hret; reflexivity. }
    split; [exact Hgeo|]. rewrite Hgeo.
    destruct (style_getFill olStyle), (style_getStroke olStyle); simpl;
      repeat constructor.
  - intros Htext. rewrite Heq. unfold addTextStyle. rewrite Htext.
    unfold wrapFillAndOutlineGeometries.
    destruct (style_getFill olStyle), (style_getStroke olStyle); exact I.
Qed.

End Circles.

(** ** Labels *)

Section Labels.
Context {E : Externs}.
Variable scene : Scene.

(** A text component that is handled gives a label collection of one
    label, with the text of the component and the back-reference. *)
Lemma olGeometry4326TextPartToCesium_label (layer : Layer) (feature : Feature)
    (geometry : Ol.Geometry) (text : Text) :
  handledText text = true ->
  exists label,
    olGeometry4326TextPartToCesium scene layer feature geometry text =
      Normal (LabelCollection [label] None) /\
    Some (label_text label) = text_getText text /\
    carries layer feature label.
Proof.
  unfold handledText, handledAlign, handledBaseline, olGeometry4326TextPartToCesium.
  destruct (text_getText text) as [content|]; [|discriminate].
  destruct (text_getTextAlign text) as [align|],
           (text_getTextBaseline text) as [baseline|]; simpl;
    repeat match goal with
           | |- context [truthy_string ?s] => destruct (truthy_string s); simpl
           | |- context [String.eqb ?s ?t] => destruct (String.eqb s t); simpl
           end;
    try discriminate; intros _; eexists; repeat split.
Qed.

(** A text component that is not handled makes the label fail. *)
Lemma olGeometry4326TextPartToCesium_throws (layer : Layer) (feature : Feature)
    (geometry : Ol.Geometry) (text : Text) :
  handledText text = false ->
  throws (olGeometry4326TextPartToCesium scene layer feature geometry text).
Proof.
  unfold handledText, handledAlign, handledBaseline, olGeometry4326TextPartToCesium.
  destruct (text_getText text) as [content|]; [|intros _; exact I].
  destruct (text_getTextAlign text) as [align|],
           (text_getTextBaseline text) as [baseline|]; simpl;
    repeat match goal with
           | |- context [truthy_string ?s] => destruct (truthy_string s); simpl
           | |- context [String.eqb ?s ?t] => destruct (String.eqb s t); simpl
           end;
    try discriminate; intros _; exact I.
Qed.

(** Whatever [olGeometry4326TextPartToCesium] returns is a label
    collection of one label that carries the back-reference. *)
Lemma olGeometry4326TextPartToCesium_returns (layer : Layer) (feature : Feature)
    (geometry : Ol.Geometry) (text : Text) (result : Primitive) :
  olGeometry4326TextPartToCesium scene layer feature geometry text = Normal result ->
  exists label, result = LabelCollection [label] None /\ carries layer feature label.
Proof.
  destruct (handledText text) eqn:H.
  - destruct (olGeometry4326TextPartToCesium_label layer feature geometry text H)
      as [label [Heq [_ Hc]]].
    rewrite Heq. intros [= <-]. exists label. split; [reflexivity|exact Hc].
  - pose proof (olGeometry4326TextPartToCesium_throws layer feature geometry text H) as Ht.
    intros Heq. rewrite Heq in Ht. destruct Ht.
Qed.

End Labels.

(** ** The shared objects *)

Section Stores.

Lemma billboards_of_billboards_add context bb cs c :
  cs !! context = Some c ->
  billboards_of context (billboards_add context bb cs) = billboards c ++ [bb].
Proof.
  intros H. unfold billboards_of, billboards_add.
  rewrite lookup_alter_eq, H. reflexivity.
Qed.

Lemma billboards_of_push context uid bb cs c :
  cs !! context = Some c ->
  billboards_of context (push context uid bb cs) = billboards c ++ [bb].
Proof.
  intros H. unfold billboards_of, push, featureToCesiumMap_set, billboards_add.
  rewrite !lookup_alter_eq, H. reflexivity.
Qed.

Lemma featureToCesiumMap_of_push context uid bb cs c :
  cs !! context = Some c ->
  featureToCesiumMap_of context (push context uid bb cs) =
    <[uid := bb]> (featureToCesiumMap c).
Proof.
  intros H. unfold featureToCesiumMap_of, push, featureToCesiumMap_set, billboards_add.
  rewrite !lookup_alter_eq, H. reflexivity.
Qed.

Lemma listens_refl src type l :
  listener_src l = src -> listener_type l = type -> listens src type l = true.
Proof.
  intros <- <-. unfold listens. rewrite Nat.eqb_refl, String.eqb_refl. reflexivity.
Qed.

(** A listener registered for an event runs when the event fires, after
    the listeners registered before it, and is removed. *)
Lemma dispatchEvent_listenOnce src type listener w :
  contexts (dispatchEvent src type (listenOnce src type listener w)) =
    listener (contexts (dispatchEvent src type w)) /\
  listeners (dispatchEvent src type (listenOnce src type listener w)) =
    listeners (dispatchEvent src type w).
Proof.
  unfold dispatchEvent, listenOnce. simpl.
  rewrite !filter_app, !filter_cons, !filter_nil.
  assert (H : listens src type
            {| listener_src := src; listener_type := type; listener_call := listener |}
          = true) by (apply listens_refl; reflexivity).
  destruct (decide (listens src type _ = true)) as [_|Hn]; [|congruence].
  destruct (decide (listens src type _ = false)) as [Hf|_]; [congruence|].
  rewrite fold_left_app, app_nil_r. split; reflexivity.
Qed.

Lemma filter_listens_removed src type (ls : list Listener) :
  filter (fun l => listens src type l = true)
    (filter (fun l => listens src type l = false) ls) = [].
Proof.
  induction ls as [|l ls IH]; [reflexivity|].
  rewrite filter_cons.
  destruct (decide (listens src type l = false)) as [Hf|Ht]; [|exact IH].
  rewrite filter_cons.
  destruct (decide (listens src type l = true)); [congruence|exact IH].
Qed.

Lemma filter_others_kept src type (ls : list Listener) :
  filter (fun l => listens src type l = false)
    (filter (fun l => listens src type l = false) ls) =
  filter (fun l => listens src type l = false) ls.
Proof.
  induction ls as [|l ls IH]; [reflexivity|].
  rewrite filter_cons.
  destruct (decide (listens src type l = false)) as [Hf|Ht]; [|exact IH].
  rewrite filter_cons.
  destruct (decide (listens src type l = false)); [|congruence].
  rewrite IH. reflexivity.
Qed.

(** Listeners are one-shot: once an event has fired, firing it again
    changes nothing. *)
Lemma dispatchEvent_once src type w :
  dispatchEvent src type (dispatchEvent src type w) = dispatchEvent src type w.
Proof.
  unfold dispatchEvent. simpl.
  rewrite filter_listens_removed, filter_others_kept. reflexivity.
Qed.

End Stores.

(** ** Points *)

Section Points.
Context {E : Externs}.
Variable scene : Scene.

(** The closure that creates the billboard: for a canvas or an image
    element it adds the billboard of the point to the collection and
    hands it to the callback, if there is one. *)
Lemma reallyCreateBillboard_supported layer feature geometry style imageStyle image
    billboards opt_newBillboardCallback cs :
  supportedImage (Some image) = true ->
  reallyCreateBillboard layer feature geometry style imageStyle (Some image) billboards
    opt_newBillboardCallback cs =
  let bb := billboardOf layer feature geometry imageStyle image in
  match opt_newBillboardCallback with
  | Some callback => callback bb (billboards_add billboards bb cs)
  | None => billboards_add billboards bb cs
  end.
Proof. destruct image; simpl; try discriminate; intros _; reflexivity. Qed.

(** For a null image or another kind of element it does nothing. *)
Lemma reallyCreateBillboard_unsupported layer feature geometry style imageStyle image
    billboards opt_newBillboardCallback cs :
  supportedImage image = false ->
  reallyCreateBillboard layer feature geometry style imageStyle image billboards
    opt_newBillboardCallback cs = cs.
Proof. destruct image as [[]|]; simpl; try discriminate; intros _; reflexivity. Qed.

(** What [olPointGeometryToCesium] returns does not depend on the icon:
    null without a text component, otherwise a collection of the empty
    primitive and the label, when the label can be made. *)
Lemma olPointGeometryToCesium_result layer feature props coordinates projection style
    imageStyle billboards opt_newBillboardCallback w :
  style_getImage style = Some imageStyle ->
  let result :=
    fst (olPointGeometryToCesium scene layer feature (Point props coordinates) projection
           style billboards opt_newBillboardCallback w) in
  (style_getText style = None -> result = Normal None) /\
  (forall text,
     style_getText style = Some text -> handledText text = true ->
     exists label,
       result = Normal (Some (PrimitiveCollection
                                [new_Primitive; LabelCollection [label] None] None)) /\
       Some (label_text label) = text_getText text /\
       carries layer feature label) /\
  (throws result ->
     exists text, style_getText style = Some text /\ handledText text = false).
Proof.
  intros Himage result. subst result.
  unfold olPointGeometryToCesium. rewrite Himage.
  unfold addTextStyle. simpl olGeometryCloneTo4326.
  destruct (style_getText style) as [text|] eqn:Htext; cbv zeta.
  - split; [discriminate|]. split.
    + intros text' [= <-] Hh.
      destruct (olGeometry4326TextPartToCesium_label scene layer feature
                  (Point props (transformTo4326 projection coordinates)) text Hh)
        as [label [Heq [Ht Hc]]].
      exists label. rewrite Heq. simpl. repeat split; assumption.
    + intros Hthrows. exists text. split; [reflexivity|].
      destruct (handledText text) eqn:Hh; [|reflexivity].
      destruct (olGeometry4326TextPartToCesium_label scene layer feature
                  (Point props (transformTo4326 projection coordinates)) text Hh)
        as [label [Heq _]].
      rewrite Heq in Hthrows. destruct Hthrows.
  - split; [reflexivity|]. split; [discriminate|]. intros [].
Qed.

(** C3: for a point whose icon is an image that is not loaded yet,
    [olPointGeometryToCesium] creates no billboard while it runs and
    registers a listener for the load event of the image.  When the
    event fires the listener adds the billboard of the point to the
    collection and hands it to the callback; it runs once.  The call
    itself returns at once, with the label when the style has a text
    component. *)
Theorem olPointGeometryToCesium_defers_unloaded_image (layer : Layer) (feature : Feature)
    (props : Properties) (coordinates : Coordinate) (projection : Projection)
    (style : Style) (imageStyle : ImageStyle) (image : ImageObject)
    (billboards : nat) (opt_newBillboardCallback : option Callback) (w : World) :
  style_getImage style = Some imageStyle ->
  image_getImage imageStyle = Some image ->
  imageNotLoaded (Some image) = true ->
  let run :=
    olPointGeometryToCesium scene layer feature (Point props coordinates) projection
      style billboards opt_newBillboardCallback w in
  let geometry4326 := Point props (transformTo4326 projection coordinates) in
  let bb := billboardOf layer feature geometry4326 imageStyle image in
  let created cs :=
    match opt_newBillboardCallback with
    | Some callback => callback bb (billboards_add billboards bb cs)
    | None => billboards_add billboards bb cs
    end in
  contexts (snd run) = contexts w /\
  (exists listener,
     listeners (snd run) = listeners w ++ [listener] /\
     listener_src listener = image_id image /\
     listener_type listener = "load" /\
     forall cs, listener_call listener cs = created cs) /\
  contexts (dispatchEvent (image_id image) "load" (snd run)) =
    created (contexts (dispatchEvent (image_id image) "load" w)) /\
  listeners (dispatchEvent (image_id image) "load" (snd run)) =
    listeners (dispatchEvent (image_id image) "load" w) /\
  dispatchEvent (image_id image) "load" (dispatchEvent (image_id image) "load" (snd run)) =
    dispatchEvent (image_id image) "load" (snd run) /\
  (style_getText style = None -> fst run = Normal None) /\
  (forall text,
     style_getText style = Some text -> handledText text = true ->
     exists label,
       fst run = Normal (Some (PrimitiveCollection
                                 [new_Primitive; LabelCollection [label] None] None)) /\
       Some (label_text label) = text_getText text /\
       carries layer feature label).
Proof.
  intros Hstyle Himage Hloading run geometry4326 bb created.
  pose proof (olPointGeometryToCesium_result layer feature props coordinates projection
                style imageStyle billboards opt_newBillboardCallback w Hstyle)
    as [Hnone [Hlabel _]].
  fold run in Hnone, Hlabel.
  assert (Hsupported : supportedImage (Some image) = true).
  { destruct image; simpl in *; try discriminate; reflexivity. }
  assert (Hworld : snd run =
            listenOnce (image_id image) "load"
              (reallyCreateBillboard layer feature geometry4326 style imageStyle
                 (Some image) billboards opt_newBillboardCallback) w).
  { subst run. unfold olPointGeometryToCesium. rewrite Hstyle, Himage.
    unfold imageNotLoaded in Hloading. rewrite Hloading.
    destruct (style_getText style); [|reflexivity].
    destruct (addTextStyle _ _ _ _ _ _); reflexivity. }
  assert (Hcall : forall cs,
            reallyCreateBillboard layer feature geometry4326 style imageStyle
              (Some image) billboards opt_newBillboardCallback cs = created cs).
  { intros cs. apply reallyCreateBillboard_supported, Hsupported. }
  rewrite Hworld.
  destruct (dispatchEvent_listenOnce (image_id image) "load"
              (reallyCreateBillboard layer feature geometry4326 style imageStyle
                 (Some image) billboards opt_newBillboardCallback) w) as [Hfire Hrest].
  split; [reflexivity|]. split.
  { eexists. split; [reflexivity|]. repeat split. exact Hcall. }
  split; [rewrite Hfire; apply Hcall|].
  split; [exact Hrest|].
  split; [apply dispatchEvent_once|].
  split; assumption.
Qed.

(** C8: for a point whose icon resolves to null, or to an element that
    is neither a canvas nor an image, no billboard is created, no
    listener is registered and the callback is not called: the world is
    left as it was.  Nothing is raised for the icon, and the conversion
    goes on: it returns the label when the style has a text component,
    null otherwise, and can only fail for a text component that cannot
    be made a label. *)
Theorem olPointGeometryToCesium_skips_unsupported_image (layer : Layer)
    (feature : Feature) (props : Properties) (coordinates : Coordinate)
    (projection : Projection) (style : Style) (imageStyle : ImageStyle)
    (billboards : nat) (opt_newBillboardCallback : option Callback) (w : World) :
  style_getImage style = Some imageStyle ->
  supportedImage (image_getImage imageStyle) = false ->
  let run :=
    olPointGeometryToCesium scene layer feature (Point props coordinates) projection
      style billboards opt_newBillboardCallback w in
  snd run = w /\
  (style_getText style = None -> fst run = Normal None) /\
  (forall text,
     style_getText style = Some text -> handledText text = true ->
     exists label,
       fst run = Normal (Some (PrimitiveCollection
                                 [new_Primitive; LabelCollection [label] None] None)) /\
       Some (label_text label) = text_getText text /\
       carries layer feature label) /\
  (throws (fst run) ->
     exists text, style_getText style = Some text /\ handledText text = false).
Proof.
  intros Hstyle Hunsupported run.
  split; [|exact (olPointGeometryToCesium_result layer feature props coordinates
                    projection style imageStyle billboards opt_newBillboardCallback w
                    Hstyle)].
  subst run. unfold olPointGeometryToCesium. rewrite Hstyle.
  assert (Hnot : instanceof_Image (image_getImage imageStyle) = false).
  { destruct (image_getImage imageStyle) as [[]|]; simpl in *; congruence. }
  rewrite Hnot. simpl andb. cbv iota.
  rewrite reallyCreateBillboard_unsupported by exact Hunsupported.
  destruct w as [cs ls]. simpl.
  destruct (style_getText style); [|reflexivity].
  destruct (addTextStyle _ _ _ _ _ _); reflexivity.
Qed.

End Points.

(** ** Features that are points *)

Section PointFeatures.
Context {E : Externs}.
Variable scene : Scene.

(** For a point, [olFeatureToCesium] is [olPointGeometryToCesium] with
    the projection and the billboard collection of the context and the
    callback that records the billboard in the feature map. *)
Lemma olFeatureToCesium_point layer feature style context props coordinates c w :
  getGeometry feature = Some (Point props coordinates) ->
  contexts w !! context = Some c ->
  olFeatureToCesium scene layer feature style context None w =
  olPointGeometryToCesium scene layer feature (Point props coordinates) (projection c)
    style context (Some (newBillboardAddedCallback context feature)) w.
Proof.
  intros Hgeom Hc. unfold olFeatureToCesium. rewrite Hgeom, Hc.
  simpl. rewrite Hc. reflexivity.
Qed.


End PointFeatures.

(** ** What a conversion does to the world *)

Section Growth.
Context {E : Externs}.
Variable scene : Scene.

(** Induction on a geometry, with the members of a collection. *)
Lemma Geometry_induction (P : Ol.Geometry -> Prop) :
  (forall p c, P (Point p c)) ->
  (forall p cs, P (LineString p cs)) ->
  (forall p cs, P (LinearRing p cs)) ->
  (forall p rs, P (Polygon p rs)) ->
  (forall p c r, P (Circle p c r)) ->
  (forall p cs, P (MultiPoint p cs)) ->
  (forall p ls, P (MultiLineString p ls)) ->
  (forall p ps, P (MultiPolygon p ps)) ->
  (forall p gs,
     Forall (fun g => match g with Some g => P g | None => True end) gs ->
     P (GeometryCollection p gs)) ->
  forall g, P g.
Proof.
  intros HPoint HLine HRing HPolygon HCircle HMultiPoint HMultiLine HMultiPolygon
    HCollection.
  fix IH 1. intros [p c|p cs|p cs|p rs|p c r|p cs|p ls|p ps|p gs];
    [apply HPoint | apply HLine | apply HRing | apply HPolygon | apply HCircle
    | apply HMultiPoint | apply HMultiLine | apply HMultiPolygon |].
  apply HCollection.
  induction gs as [|[g|] gs IHgs]; constructor; try assumption.
  - apply IH.
  - exact I.
Qed.

Lemma grows_refl layer feature context w : grows layer feature context w w.
Proof.
  exists [], []. simpl. rewrite app_nil_r. repeat split; constructor.
Qed.

Lemma grows_trans layer feature context w1 w2 w3 :
  grows layer feature context w1 w2 -> grows layer feature context w2 w3 ->
  grows layer feature context w1 w3.
Proof.
  intros [bbs1 [pending1 [Hc1 [Hb1 [Hl1 Hp1]]]]] [bbs2 [pending2 [Hc2 [Hb2 [Hl2 Hp2]]]]].
  exists (bbs1 ++ bbs2), (pending1 ++ pending2). repeat split.
  - rewrite Hc2, Hc1. unfold pushed. rewrite fold_left_app. reflexivity.
  - apply Forall_app. split; assumption.
  - rewrite Hl2, Hl1, map_app, app_assoc. reflexivity.
  - apply Forall_app. split; assumption.
Qed.

(** The billboard of a point carries the back-reference. *)
Lemma billboardOf_carries layer feature geometry imageStyle image :
  carries layer feature (billboardOf layer feature geometry imageStyle image).
Proof. reflexivity. Qed.

(** The conversion of a point of a feature, with the callback of
    [olFeatureToCesium]: whether it returns or fails, it pushes at most
    the billboard of the point, at once or when its image loads. *)
Lemma olPointGeometryToCesium_grows layer feature geometry projection style context w :
  grows layer feature context w
    (snd (olPointGeometryToCesium scene layer feature geometry projection style context
            (Some (newBillboardAddedCallback context feature)) w)).
Proof.
  unfold olPointGeometryToCesium.
  destruct geometry as [p c| | | | | | | |]; try apply grows_refl.
  destruct (style_getImage style) as [imageStyle|]; [|apply grows_refl].
  cbv zeta. simpl olGeometryCloneTo4326.
  set (geometry4326 := Point p (transformTo4326 projection c)).
  assert (Hworld : grows layer feature context w
            (if instanceof_Image (image_getImage imageStyle)
                && negb (isImageLoaded (image_getImage imageStyle))
             then
               match image_getImage imageStyle with
               | Some image =>
                   listenOnce (image_id image) "load"
                     (fun cs =>
                        reallyCreateBillboard layer feature geometry4326 style imageStyle
                          (image_getImage imageStyle) context
                          (Some (newBillboardAddedCallback context feature)) cs) w
               | None => w
               end
             else
               {| contexts :=
                    reallyCreateBillboard layer feature geometry4326 style imageStyle
                      (image_getImage imageStyle) context
                      (Some (newBillboardAddedCallback context feature)) (contexts w);
                  listeners := listeners w |})).
  { destruct (image_getImage imageStyle) as [image|] eqn:Himage.
    - destruct (instanceof_Image (Some image) && negb (isImageLoaded (Some image)))
        eqn:Hloading.
      + destruct image as [id|id src nh nw complete|id]; try discriminate.
        exists [], [(id, billboardOf layer feature geometry4326 imageStyle
                           (HTMLImageElement id src nh nw complete))].
        repeat split; repeat constructor.
      + destruct (supportedImage (Some image)) eqn:Hsupported.
        * rewrite reallyCreateBillboard_supported by exact Hsupported.
          exists [billboardOf layer feature geometry4326 imageStyle image], [].
          split; [reflexivity|]. split; [repeat constructor|].
          split; [simpl; rewrite app_nil_r; reflexivity|constructor].
        * rewrite reallyCreateBillboard_unsupported by exact Hsupported.
          destruct w; apply grows_refl.
    - simpl. destruct w; apply grows_refl. }
  destruct (style_getText style); [|exact Hworld].
  destruct (addTextStyle _ _ _ _ _ _); exact Hworld.
Qed.

Lemma olMultiGeometryToCesium_points_grows layer feature projection style context
    subgeos primitives w :
  grows layer feature context w
    (snd (olMultiGeometryToCesium_points scene layer feature projection style context
            (Some (newBillboardAddedCallback context feature)) subgeos primitives w)).
Proof.
  revert primitives w. induction subgeos as [|g rest IH]; intros primitives w.
  - apply grows_refl.
  - simpl.
    pose proof (olPointGeometryToCesium_grows layer feature g projection style context w)
      as Hpoint.
    destruct (olPointGeometryToCesium _ _ _ _ _ _ _ _ _) as [[[result|]|e] w1];
      simpl in Hpoint.
    + eapply grows_trans; [exact Hpoint|apply IH].
    + eapply grows_trans; [exact Hpoint|apply IH].
    + exact Hpoint.
Qed.

Lemma olMultiGeometryToCesium_grows layer feature geometry projection style context w :
  grows layer feature context w
    (snd (olMultiGeometryToCesium scene layer feature geometry projection style context
            (Some (newBillboardAddedCallback context feature)) w)).
Proof.
  unfold olMultiGeometryToCesium.
  destruct geometry as [| | | | |p cs|p ls|p ps|]; try apply grows_refl.
  - destruct (style_getText style).
    + pose proof (olMultiGeometryToCesium_points_grows layer feature projection style
                    context (getPoints cs) new_PrimitiveCollection w) as H.
      destruct (olMultiGeometryToCesium_points _ _ _ _ _ _ _ _ _ _) as [[r|e] w1];
        exact H.
    + destruct (getPoints cs); apply grows_refl.
  - destruct (accumulate _ _ _); apply grows_refl.
  - destruct (accumulate _ _ _); apply grows_refl.
Qed.

(** The loop over the members of a collection, when the conversion of
    each member only pushes such billboards. *)
Lemma olFeatureToCesium_members_grows layer feature context convertMember geometries :
  Forall (fun g => match g with
                   | Some g => forall w, grows layer feature context w (snd (convertMember g w))
                   | None => True
                   end) geometries ->
  forall primitives w,
    grows layer feature context w
      (snd (olFeatureToCesium_members convertMember geometries primitives w)).
Proof.
  induction 1 as [|[g|] gs Hg Hgs IH]; intros primitives w; simpl.
  - apply grows_refl.
  - specialize (Hg w).
    destruct (convertMember g w) as [[[prims|]|e] w1]; simpl in Hg.
    + eapply grows_trans; [exact Hg|apply IH].
    + eapply grows_trans; [exact Hg|apply IH].
    + exact Hg.
  - apply IH.
Qed.

(** The conversion of a feature, whatever its geometry and whether it
    returns or fails, only pushes billboards that carry the
    back-reference to the layer and the feature. *)
Lemma olFeatureToCesium_geom_grows layer feature style context geom :
  forall w,
    grows layer feature context w
      (snd (olFeatureToCesium_geom scene layer feature style context geom w)).
Proof.
  induction geom as [p c|p cs|p cs|p rs|p c r|p cs|p ls|p ps|p gs IHgs]
    using Geometry_induction; intros w;
    cbn -[olPointGeometryToCesium olMultiGeometryToCesium olLineStringGeometryToCesium
          olPolygonGeometryToCesium olCircleGeometryToCesium olFeatureToCesium_members];
    destruct (contexts w !! context) as [ctx|] eqn:Hctx; try apply grows_refl.
  - apply olPointGeometryToCesium_grows.
  - destruct (olLineStringGeometryToCesium _ _ _ _ _ _); apply grows_refl.
  - destruct (olPolygonGeometryToCesium _ _ _ _ _ _); apply grows_refl.
  - destruct (olCircleGeometryToCesium _ _ _ _ _ _); apply grows_refl.
  - apply (olMultiGeometryToCesium_grows layer feature (MultiPoint p cs)).
  - apply (olMultiGeometryToCesium_grows layer feature (MultiLineString p ls)).
  - apply (olMultiGeometryToCesium_grows layer feature (MultiPolygon p ps)).
  - pose proof (olFeatureToCesium_members_grows layer feature context _ gs IHgs
                  new_PrimitiveCollection w) as H.
    destruct (olFeatureToCesium_members _ gs new_PrimitiveCollection w) as [[r|e] w1];
      exact H.
Qed.

Lemma olFeatureToCesium_grows layer feature style context opt_geom w :
  grows layer feature context w
    (snd (olFeatureToCesium scene layer feature style context opt_geom w)).
Proof.
  unfold olFeatureToCesium.
  destruct (contexts w !! context); [|apply grows_refl].
  destruct opt_geom as [g|]; [apply olFeatureToCesium_geom_grows|].
  destruct (getGeometry feature) as [g|];
    [apply olFeatureToCesium_geom_grows|apply grows_refl].
Qed.

(** Pushing billboards keeps the context objects that are there. *)
Lemma pushed_lookup_is_Some context uid bbs cs k :
  is_Some (pushed context uid bbs cs !! k) <-> is_Some (cs !! k).
Proof.
  revert cs. induction bbs as [|bb bbs IH]; intros cs; [reflexivity|].
  simpl. rewrite IH. unfold push, featureToCesiumMap_set, billboards_add.
  rewrite !lookup_alter. repeat case_decide; subst;
    rewrite ?fmap_is_Some; reflexivity.
Qed.

Lemma grows_lookup_is_Some layer feature context w w' k :
  grows layer feature context w w' ->
  is_Some (contexts w' !! k) <-> is_Some (contexts w !! k).
Proof.
  intros [bbs [pending [Hc _]]]. rewrite Hc. apply pushed_lookup_is_Some.
Qed.

End Growth.

(** ** The clones a collection gives for its members *)

Section Clones.

(** The clone of a clone is a clone with the same coordinates, and so
    are the members a clone gives. *)
Lemma clone_idempotent (g : Ol.Geometry) : clone (clone g) = clone g.
Proof.
  induction g as [p c|p cs|p cs|p rs|p c r|p cs|p ls|p ps|p gs IHgs]
    using Geometry_induction; try reflexivity.
  simpl. f_equal. rewrite map_map.
  induction IHgs as [|[g|] gs Hg Hgs IH]; simpl; [reflexivity| |];
    rewrite IH; [rewrite Hg|]; reflexivity.
Qed.

Lemma getGeometries_idempotent (geometries : list (option Ol.Geometry)) :
  getGeometries (getGeometries geometries) = getGeometries geometries.
Proof.
  unfold getGeometries. rewrite map_map.
  induction geometries as [|[g|] gs IH]; simpl; [reflexivity| |];
    rewrite IH; [rewrite clone_idempotent|]; reflexivity.
Qed.

Lemma getGeometries_app (first second : list (option Ol.Geometry)) :
  getGeometries (first ++ second) = getGeometries first ++ getGeometries second.
Proof. apply map_app. Qed.

(** A clone has its members as [getGeometries] gives them. *)
Lemma withMembersGiven_clone (g : Ol.Geometry) : withMembersGiven (clone g) = clone g.
Proof.
  destruct g as [| | | | | | | |p gs]; try reflexivity.
  simpl. f_equal. apply getGeometries_idempotent.
Qed.

(** The members [getGeometries] gives that are there are the clones of
    the members that are there. *)
Lemma getGeometries_omap (geometries : list (option Ol.Geometry)) :
  omap id (getGeometries geometries) = map clone (omap id geometries).
Proof.
  induction geometries as [|[g|] gs IH]; simpl; [reflexivity| |exact IH].
  f_equal. exact IH.
Qed.

(** A clone holds a point where the geometry does. *)
Lemma hasPoints_clone (g : Ol.Geometry) : hasPoints (clone g) = hasPoints g.
Proof.
  induction g as [p c|p cs|p cs|p rs|p c r|p cs|p ls|p ps|p gs IHgs]
    using Geometry_induction; try reflexivity.
  simpl. induction IHgs as [|[g|] gs Hg Hgs IH]; simpl; [reflexivity| |exact IH].
  rewrite Hg, IH. reflexivity.
Qed.

Lemma hasPoints_withMembersGiven (g : Ol.Geometry) :
  hasPoints (withMembersGiven g) = hasPoints g.
Proof.
  destruct g as [| | | | | | | |p gs]; try reflexivity.
  exact (hasPoints_clone (GeometryCollection p gs)).
Qed.

(** A clone converts under a style when the geometry does. *)
Lemma convertible_clone (style : Style) (g : Ol.Geometry) :
  convertible style (clone g) = convertible style g.
Proof.
  induction g as [p c|p cs|p cs|p rs|p c r|p cs|p ls|p ps|p gs IHgs]
    using Geometry_induction; try reflexivity.
  simpl. induction IHgs as [|[g|] gs Hg Hgs IH]; simpl; [reflexivity| |exact IH].
  rewrite Hg, IH. reflexivity.
Qed.

Lemma convertible_withMembersGiven (style : Style) (g : Ol.Geometry) :
  convertible style (withMembersGiven g) = convertible style g.
Proof.
  destruct g as [| | | | | | | |p gs]; try reflexivity.
  exact (convertible_clone style (GeometryCollection p gs)).
Qed.

End Clones.

(** ** The back-reference for picking *)

Section Picking.
Context {E : Externs}.
Variable scene : Scene.

Lemma labels_of_collection members reference :
  labels_of (PrimitiveCollection members reference) = concat (map labels_of members).
Proof.
  simpl. induction members as [|m ms IH]; [reflexivity|].
  simpl. rewrite IH. reflexivity.
Qed.

Lemma leaves_carry_collection layer feature members reference :
  leaves_carry layer feature (PrimitiveCollection members reference) <->
  reference = None /\ Forall (leaves_carry layer feature) members.
Proof.
  unfold leaves_carry. rewrite renderables_collection, labels_of_collection.
  rewrite !Forall_cons.
  assert (Hnone : hasGeometry (PrimitiveCollection members reference) ->
                  carries layer feature (PrimitiveCollection members reference)).
  { intros [g Hg]. discriminate Hg. }
  assert (Hiff : (Forall (fun r => hasGeometry r -> carries layer feature r)
                    (concat (map renderables members)) /\
                  Forall (carries layer feature) (concat (map labels_of members)) /\
                  Forall (fun r => isCollection r = true -> reference_of r = None)
                    (concat (map renderables members))) <->
                 Forall (fun p =>
                    Forall (fun r => hasGeometry r -> carries layer feature r)
                      (renderables p) /\
                    Forall (carries layer feature) (labels_of p) /\
                    Forall (fun r => isCollection r = true -> reference_of r = None)
                      (renderables p)) members).
  { induction members as [|m ms IH]; simpl.
    - split; [constructor|]. intros _. repeat split; constructor.
    - rewrite !Forall_app, Forall_cons. tauto. }
  simpl isCollection. simpl reference_of. split.
  - intros [[_ H1] [H2 [Hr H3]]]. split; [apply Hr; reflexivity|].
    apply Hiff. tauto.
  - intros [-> H]. apply Hiff in H. tauto.
Qed.

Lemma leaves_carry_empty layer feature :
  leaves_carry layer feature new_PrimitiveCollection.
Proof. apply leaves_carry_collection. split; [reflexivity|constructor]. Qed.

Lemma leaves_carry_add layer feature primitives p :
  leaves_carry layer feature primitives -> leaves_carry layer feature p ->
  leaves_carry layer feature (add primitives p).
Proof.
  destruct primitives as [gi a r|ms r|ls r]; simpl; intros Hps Hp; try exact Hps.
  apply leaves_carry_collection. apply leaves_carry_collection in Hps.
  destruct Hps as [Hr Hps]. split; [exact Hr|].
  apply Forall_app. split; [exact Hps|]. constructor; [exact Hp|constructor].
Qed.

(** A single primitive that carries the back-reference. *)
Lemma leaves_carry_single layer feature instances appearance :
  leaves_carry layer feature
    (CsPrimitive instances appearance (Some (referenceTo layer feature))).
Proof. repeat split; repeat constructor. discriminate. Qed.

(** The empty primitive has no geometry. *)
Lemma leaves_carry_new_Primitive layer feature :
  leaves_carry layer feature new_Primitive.
Proof.
  repeat split; repeat constructor; try discriminate. intros [g Hg]. discriminate Hg.
Qed.

(** A collection of labels that carry the back-reference. *)
Lemma leaves_carry_label layer feature label :
  carries layer feature label ->
  leaves_carry layer feature (LabelCollection [label] None).
Proof.
  intros Hl. repeat split; repeat constructor; try exact Hl.
  intros [g Hg]. discriminate Hg.
Qed.

Lemma createColoredPrimitive_carries layer feature geometry color opt_lineWidth :
  carries layer feature
    (createColoredPrimitive layer feature geometry color opt_lineWidth).
Proof. reflexivity. Qed.

Lemma wrapFillAndOutlineGeometries_leaves layer feature fillGeometry outlineGeometry
    olStyle :
  leaves_carry layer feature
    (wrapFillAndOutlineGeometries scene layer feature fillGeometry outlineGeometry olStyle).
Proof.
  unfold wrapFillAndOutlineGeometries.
  destruct (style_getFill olStyle), (style_getStroke olStyle); cbv zeta;
    repeat apply leaves_carry_add; try apply leaves_carry_empty;
    apply leaves_carry_single.
Qed.

Lemma addTextStyle_leaves layer feature geometry style primitive result :
  leaves_carry layer feature primitive ->
  addTextStyle scene layer feature geometry style primitive = Normal result ->
  leaves_carry layer feature result.
Proof.
  intros Hp. unfold addTextStyle.
  set (primitives := match primitive with
                     | PrimitiveCollection _ _ => primitive
                     | _ => add new_PrimitiveCollection primitive
                     end).
  assert (Hps : leaves_carry layer feature primitives).
  { subst primitives. destruct primitive; try exact Hp;
      apply leaves_carry_add; try apply leaves_carry_empty; exact Hp. }
  destruct (style_getText style) as [text|].
  - destruct (olGeometry4326TextPartToCesium scene layer feature geometry text)
      as [label|e] eqn:Hlabel; simpl; [|discriminate].
    intros [= <-]. apply leaves_carry_add; [exact Hps|].
    destruct (olGeometry4326TextPartToCesium_returns scene layer feature geometry text
                label Hlabel) as [l [-> Hl]].
    apply leaves_carry_label, Hl.
  - intros [= <-]. exact Hps.
Qed.

Lemma olCircleGeometryToCesium_leaves layer feature geometry projection olStyle result :
  olCircleGeometryToCesium scene layer feature geometry projection olStyle
    = Normal result ->
  leaves_carry layer feature result.
Proof.
  unfold olCircleGeometryToCesium.
  destruct (olGeometryCloneTo4326 geometry projection); try discriminate.
  apply addTextStyle_leaves, wrapFillAndOutlineGeometries_leaves.
Qed.

Lemma olLineStringGeometryToCesium_leaves layer feature geometry projection olStyle
    result :
  olLineStringGeometryToCesium scene layer feature geometry projection olStyle
    = Normal result ->
  leaves_carry layer feature result.
Proof.
  unfold olLineStringGeometryToCesium.
  destruct (olGeometryCloneTo4326 geometry projection); try discriminate.
  apply addTextStyle_leaves, leaves_carry_single.
Qed.

Lemma olPolygonGeometryToCesium_leaves layer feature geometry projection olStyle result :
  olPolygonGeometryToCesium scene layer feature geometry projection olStyle
    = Normal result ->
  leaves_carry layer feature result.
Proof.
  unfold olPolygonGeometryToCesium.
  destruct (olGeometryCloneTo4326 geometry projection); try discriminate.
  cbv zeta. unfold new_object.
  destruct (assert _); [|discriminate]. simpl JS.bind.
  destruct (olPolygonGeometryToCesium_rings _ _ _ _) as [[objects hierarchy]|];
    [|discriminate].
  simpl JS.bind.
  apply addTextStyle_leaves, wrapFillAndOutlineGeometries_leaves.
Qed.

Lemma olPointGeometryToCesium_leaves layer feature geometry projection style billboards
    opt_newBillboardCallback w result :
  fst (olPointGeometryToCesium scene layer feature geometry projection style billboards
         opt_newBillboardCallback w) = Normal (Some result) ->
  leaves_carry layer feature result.
Proof.
  unfold olPointGeometryToCesium.
  destruct geometry; try discriminate.
  destruct (style_getImage style); [|discriminate]. cbv zeta.
  destruct (style_getText style); [|discriminate].
  destruct (addTextStyle _ _ _ _ _ _) as [primitives|e] eqn:Hadd; [|discriminate].
  intros [= <-].
  eapply addTextStyle_leaves; [|exact Hadd]. apply leaves_carry_new_Primitive.
Qed.

Lemma accumulate_leaves layer feature functor geometries :
  (forall g result, functor g = Normal result -> leaves_carry layer feature result) ->
  forall primitives result,
    leaves_carry layer feature primitives ->
    accumulate primitives geometries functor = Normal result ->
    leaves_carry layer feature result.
Proof.
  intros Hf. induction geometries as [|g rest IH]; intros primitives result Hps; simpl.
  - intros [= <-]. exact Hps.
  - destruct (functor g) as [p|e] eqn:Hg; simpl; [|discriminate].
    apply IH. apply leaves_carry_add; [exact Hps|]. eapply Hf, Hg.
Qed.

Lemma olMultiGeometryToCesium_points_leaves layer feature projection style billboards
    opt_newBillboardCallback subgeos :
  forall primitives w result,
    leaves_carry layer feature primitives ->
    fst (olMultiGeometryToCesium_points scene layer feature projection style billboards
           opt_newBillboardCallback subgeos primitives w) = Normal result ->
    leaves_carry layer feature result.
Proof.
  induction subgeos as [|g rest IH]; intros primitives w result Hps; simpl.
  - intros [= <-]. exact Hps.
  - pose proof (olPointGeometryToCesium_leaves layer feature g projection style
                  billboards opt_newBillboardCallback w) as Hpoint.
    destruct (olPointGeometryToCesium _ _ _ _ _ _ _ _ _) as [[[p|]|e] w1];
      simpl in Hpoint.
    + apply IH. apply leaves_carry_add; [exact Hps|]. apply Hpoint. reflexivity.
    + apply IH. exact Hps.
    + discriminate.
Qed.

Lemma olMultiGeometryToCesium_leaves layer feature geometry projection style billboards
    opt_newBillboardCallback w result :
  fst (olMultiGeometryToCesium scene layer feature geometry projection style billboards
         opt_newBillboardCallback w) = Normal (Some result) ->
  leaves_carry layer feature result.
Proof.
  unfold olMultiGeometryToCesium.
  destruct geometry as [| | | | |p cs|p ls|p ps|]; try discriminate.
  - destruct (style_getText style).
    + pose proof (olMultiGeometryToCesium_points_leaves layer feature projection style
                    billboards opt_newBillboardCallback (getPoints cs)
                    new_PrimitiveCollection w) as H.
      destruct (olMultiGeometryToCesium_points _ _ _ _ _ _ _ _ _ _) as [[r|e] w1];
        [|discriminate].
      intros [= <-]. apply H; [apply leaves_carry_empty|reflexivity].
    + destruct (getPoints cs); discriminate.
  - destruct (accumulate _ _ _) as [r|e] eqn:Hacc; [|discriminate].
    intros [= <-]. eapply accumulate_leaves; [|apply leaves_carry_empty|exact Hacc].
    intros g res. apply olLineStringGeometryToCesium_leaves.
  - destruct (accumulate _ _ _) as [r|e] eqn:Hacc; [|discriminate].
    intros [= <-]. eapply accumulate_leaves; [|apply leaves_carry_empty|exact Hacc].
    intros g res. apply olPolygonGeometryToCesium_leaves.
Qed.

Lemma olFeatureToCesium_members_leaves layer feature convertMember geometries :
  Forall (fun g => match g with
                   | Some g =>
                       forall w result,
                         fst (convertMember g w) = Normal (Some result) ->
                         leaves_carry layer feature result
                   | None => True
                   end) geometries ->
  forall primitives w result,
    leaves_carry layer feature primitives ->
    fst (olFeatureToCesium_members convertMember geometries primitives w)
      = Normal result ->
    leaves_carry layer feature result.
Proof.
  induction 1 as [|[g|] gs Hg Hgs IH]; intros primitives w result Hps; simpl.
  - intros [= <-]. exact Hps.
  - specialize (Hg w).
    destruct (convertMember g w) as [[[prims|]|e] w1]; simpl in Hg.
    + apply IH. apply leaves_carry_add; [exact Hps|]. apply Hg. reflexivity.
    + apply IH. exact Hps.
    + discriminate.
  - apply IH. exact Hps.
Qed.

Lemma olFeatureToCesium_geom_leaves layer feature style context geom :
  forall w result,
    fst (olFeatureToCesium_geom scene layer feature style context geom w)
      = Normal (Some result) ->
    leaves_carry layer feature result.
Proof.
  induction geom as [p c|p cs|p cs|p rs|p c r|p cs|p ls|p ps|p gs IHgs]
    using Geometry_induction; intros w result;
    cbn -[olPointGeometryToCesium olMultiGeometryToCesium olLineStringGeometryToCesium
          olPolygonGeometryToCesium olCircleGeometryToCesium olFeatureToCesium_members];
    destruct (contexts w !! context) as [ctx|] eqn:Hctx; try discriminate.
  - apply olPointGeometryToCesium_leaves.
  - destruct (olLineStringGeometryToCesium _ _ _ _ _ _) as [r|e] eqn:H; [|discriminate].
    intros [= <-]. eapply olLineStringGeometryToCesium_leaves, H.
  - destruct (olPolygonGeometryToCesium _ _ _ _ _ _) as [r|e] eqn:H; [|discriminate].
    intros [= <-]. eapply olPolygonGeometryToCesium_leaves, H.
  - destruct (olCircleGeometryToCesium _ _ _ _ _ _) as [res|e] eqn:H; [|discriminate].
    intros [= <-]. eapply olCircleGeometryToCesium_leaves, H.
  - apply (olMultiGeometryToCesium_leaves layer feature (MultiPoint p cs)).
  - apply (olMultiGeometryToCesium_leaves layer feature (MultiLineString p ls)).
  - apply (olMultiGeometryToCesium_leaves layer feature (MultiPolygon p ps)).
  - pose proof (olFeatureToCesium_members_leaves layer feature _ gs IHgs
                  new_PrimitiveCollection w) as H.
    destruct (olFeatureToCesium_members _ gs new_PrimitiveCollection w) as [[r|e] w1];
      [|discriminate].
    intros [= <-]. apply H; [apply leaves_carry_empty|reflexivity].
Qed.

(** C9, as the code has it: of what the conversion of a feature
    produces, every single primitive that has geometry, every label and
    every billboard, created at once or when its image loads, carries
    the back-reference to the layer and the feature; the primitive
    collections and label collections that hold them carry none. *)
Theorem olFeatureToCesium_references (layer : Layer) (feature : Feature) (style : Style)
    (context : nat) (opt_geom : option Ol.Geometry) (w : World) :
  let run := olFeatureToCesium scene layer feature style context opt_geom w in
  (forall result, fst run = Normal (Some result) -> leaves_carry layer feature result) /\
  grows layer feature context w (snd run).
Proof.
  intros run. split; [|apply olFeatureToCesium_grows].
  intros result Hrun.
  subst run. unfold olFeatureToCesium in Hrun.
  destruct (contexts w !! context); [|discriminate].
  destruct opt_geom as [g|];
    [eapply olFeatureToCesium_geom_leaves, Hrun|].
  destruct (getGeometry feature) as [g|]; [|discriminate].
  eapply olFeatureToCesium_geom_leaves, Hrun.
Qed.

End Picking.

(** ** Layers and single features *)

Section Orchestrators.
Context {E : Externs}.
Variable scene : Scene.

(** A feature without geometry converts to null and leaves the world as
    it is. *)
Lemma olFeatureToCesium_no_geometry layer feature style context w :
  getGeometry feature = None -> is_Some (contexts w !! context) ->
  olFeatureToCesium scene layer feature style context None w = (Normal None, w).
Proof.
  intros Hgeom [c Hc]. unfold olFeatureToCesium. rewrite Hgeom, Hc. reflexivity.
Qed.

(** The loop over the features passes over a feature that has no
    geometry or no style: the loop over the features with it is the
    loop over the features without it. *)
Lemma olVectorLayerToCesium_features_skip olLayer resolution feature style after :
  computePlainStyle olLayer feature (layer_getStyleFunction olLayer) resolution
    = Normal style ->
  falsy style = true \/ getGeometry feature = None ->
  forall before allPrimitives featurePrimitiveMap w,
    is_Some (contexts w !! Core.context allPrimitives) ->
    olVectorLayerToCesium_features scene olLayer resolution
      (before ++ Some feature :: after) allPrimitives featurePrimitiveMap w =
    olVectorLayerToCesium_features scene olLayer resolution
      (before ++ after) allPrimitives featurePrimitiveMap w.
Proof.
  intros Hstyle Hskip.
  induction before as [|[f|] before IH]; intros allPrimitives featurePrimitiveMap w Hctx.
  - simpl. rewrite Hstyle.
    destruct style as [| |s]; try reflexivity.
    destruct Hskip as [Hfalsy|Hgeom]; [discriminate Hfalsy|].
    rewrite (olFeatureToCesium_no_geometry olLayer feature s _ w Hgeom Hctx).
    reflexivity.
  - simpl.
    destruct (computePlainStyle olLayer f (layer_getStyleFunction olLayer) resolution)
      as [[| |s]|e]; try (apply IH; exact Hctx); try reflexivity.
    pose proof (olFeatureToCesium_grows scene olLayer f s (Core.context allPrimitives)
                  None w) as Hgrows.
    destruct (olFeatureToCesium scene olLayer f s (Core.context allPrimitives) None w)
      as [[[primitives|]|e] w1]; simpl in Hgrows; try reflexivity.
    + apply IH. simpl.
      apply (grows_lookup_is_Some _ _ _ _ _ _ Hgrows), Hctx.
    + apply IH. apply (grows_lookup_is_Some _ _ _ _ _ _ Hgrows), Hctx.
  - simpl. apply IH. exact Hctx.
Qed.

(** The view that is not ready, and the features that are passed over.
    When the view has no resolution or no projection,
    [olVectorLayerToCesium] fails (it returns no collection and leaves
    the map and the world as they are) and [convert] returns null
    without failing.  When the view is ready, both pass over a feature
    that has no geometry, or for which [computePlainStyle] returns null
    or undefined: the layer conversion is the conversion of the other
    features, and [convert] returns null, adding no billboard and no
    listener. *)
Theorem view_not_ready_and_skipped_features (olLayer : Layer) (olView : View)
    (feature : Feature) (featurePrimitiveMap : gmap nat Primitive) (context : nat)
    (w : World) :
  (getResolution olView = None \/ getProjection olView = None ->
     olVectorLayerToCesium scene olLayer olView featurePrimitiveMap w =
       (Throw (AssertionError "Failure: View not ready"), featurePrimitiveMap, w) /\
     convert scene olLayer olView feature context w = (Normal None, w)) /\
  (forall resolution proj style,
     getResolution olView = Some resolution ->
     getProjection olView = Some proj ->
     computePlainStyle olLayer feature (layer_getStyleFunction olLayer) resolution
       = Normal style ->
     falsy style = true \/ getGeometry feature = None ->
     (forall before after,
        getFeatures olLayer = before ++ Some feature :: after ->
        olVectorLayerToCesium scene olLayer olView featurePrimitiveMap w =
          let '(allPrimitives, w0) := new_OlLayerPrimitive proj w in
          olVectorLayerToCesium_features scene olLayer resolution (before ++ after)
            allPrimitives featurePrimitiveMap w0) /\
     (is_Some (contexts w !! context) ->
        fst (convert scene olLayer olView feature context w) = Normal None /\
        listeners (snd (convert scene olLayer olView feature context w)) = listeners w /\
        contexts (snd (convert scene olLayer olView feature context w)) =
          if falsy style then contexts w
          else projection_set context proj (contexts w))).
Proof.
  split.
  - intros Hview. unfold olVectorLayerToCesium, convert.
    destruct (getResolution olView), (getProjection olView);
      try (split; reflexivity).
    destruct Hview; discriminate.
  - intros resolution proj style Hres Hproj Hstyle Hskip. split.
    + intros before after Hfeatures.
      unfold olVectorLayerToCesium. rewrite Hres, Hproj, Hfeatures.
      unfold new_OlLayerPrimitive.
      apply (olVectorLayerToCesium_features_skip olLayer resolution feature style after
               Hstyle Hskip).
      simpl. rewrite lookup_insert_eq. eexists; reflexivity.
    + intros Hctx. unfold convert. rewrite Hres, Hproj, Hstyle.
      destruct style as [| |s]; try (repeat split; reflexivity).
      destruct Hskip as [Hfalsy|Hgeom]; [discriminate Hfalsy|].
      rewrite olFeatureToCesium_no_geometry; [repeat split; reflexivity|exact Hgeom|].
      simpl. unfold projection_set. rewrite lookup_alter_eq.
      destruct Hctx as [c ->]. eexists; reflexivity.
Qed.

(** The loop over the features fails when it holds a feature whose
    style [computePlainStyle] fails on: at that feature, unless it
    failed before. *)
Lemma olVectorLayerToCesium_features_style_throws olLayer resolution feature features :
  In (Some feature) features ->
  throws (computePlainStyle olLayer feature (layer_getStyleFunction olLayer) resolution) ->
  forall allPrimitives featurePrimitiveMap w,
    throws (fst (fst (olVectorLayerToCesium_features scene olLayer resolution features
                        allPrimitives featurePrimitiveMap w))).
Proof.
  intros Hin Hthrows.
  induction features as [|[f|] rest IH]; intros allPrimitives featurePrimitiveMap w;
    [destruct Hin| |].
  - simpl.
    destruct (computePlainStyle olLayer f (layer_getStyleFunction olLayer) resolution)
      as [[| |s]|e] eqn:Hstyle.
    + apply IH. destruct Hin as [[= ->]|Hin]; [|exact Hin].
      rewrite Hstyle in Hthrows. destruct Hthrows.
    + apply IH. destruct Hin as [[= ->]|Hin]; [|exact Hin].
      rewrite Hstyle in Hthrows. destruct Hthrows.
    + assert (Hrest : In (Some feature) rest).
      { destruct Hin as [[= ->]|Hin]; [|exact Hin].
        rewrite Hstyle in Hthrows. destruct Hthrows. }
      destruct (olFeatureToCesium scene olLayer f s (Core.context allPrimitives) None w)
        as [[[primitives|]|e] w1]; [apply IH, Hrest|apply IH, Hrest|exact I].
    + exact I.
  - simpl. apply IH. destruct Hin as [Hin|Hin]; [discriminate Hin|exact Hin].
Qed.

(** C5: a feature whose style function answers null, where the layer has
    no style function or one that answers null as well, has no style
    that resolves, and is meant to be passed over.  With a view that is
    ready, neither [olVectorLayerToCesium] nor [convert] passes over it:
    the conversion of a layer that holds the feature fails and returns
    no collection, and [convert] fails where it is to return null.  Both
    call [computePlainStyle] before they test the style, and it fails
    on its assertion. *)
Theorem null_style_feature_not_skipped (olLayer : Layer) (olView : View)
    (feature : Feature) (featureStyle : float -> StyleResult) (resolution : float)
    (proj : Projection) (featurePrimitiveMap : gmap nat Primitive) (context : nat)
    (w : World) :
  getResolution olView = Some resolution ->
  getProjection olView = Some proj ->
  getStyleFunction feature = Some featureStyle ->
  featureStyle resolution = Null ->
  match layer_getStyleFunction olLayer with
  | Some f => f feature resolution = Null
  | None => True
  end ->
  resolveStyle feature (layer_getStyleFunction olLayer) resolution = Null /\
  (In (Some feature) (getFeatures olLayer) ->
     throws (fst (fst (olVectorLayerToCesium scene olLayer olView featurePrimitiveMap w)))) /\
  (forall after,
     getFeatures olLayer = Some feature :: after ->
     fst (fst (olVectorLayerToCesium scene olLayer olView featurePrimitiveMap w)) =
       Throw (AssertionError "Assertion failed")) /\
  convert scene olLayer olView feature context w =
    (Throw (AssertionError "Assertion failed"), w).
Proof.
  intros Hres Hproj Hf Hnull Hfallback.
  assert (Hstyle : computePlainStyle olLayer feature (layer_getStyleFunction olLayer)
                     resolution = Throw (AssertionError "Assertion failed")).
  { unfold computePlainStyle. rewrite Hf, Hnull.
    destruct (layer_getStyleFunction olLayer) as [g|]; simpl;
      [rewrite Hfallback|]; reflexivity. }
  split; [|split; [|split]].
  - unfold resolveStyle. rewrite Hf, Hnull.
    destruct (layer_getStyleFunction olLayer) as [g|]; simpl;
      [rewrite Hfallback|]; reflexivity.
  - intros Hin. unfold olVectorLayerToCesium. rewrite Hres, Hproj.
    destruct (new_OlLayerPrimitive proj w) as [allPrimitives w0].
    apply (olVectorLayerToCesium_features_style_throws olLayer resolution feature _ Hin).
    rewrite Hstyle. exact I.
  - intros after Hfeatures. unfold olVectorLayerToCesium.
    rewrite Hres, Hproj, Hfeatures.
    destruct (new_OlLayerPrimitive proj w) as [allPrimitives w0].
    simpl. rewrite Hstyle. reflexivity.
  - unfold convert. rewrite Hres, Hproj, Hstyle. reflexivity.
Qed.

End Orchestrators.

(** ** What a conversion leaves alone *)

Section Frames.
Context {E : Externs}.
Variable scene : Scene.

Lemma push_lookup_ne context uid bb cs k :
  k <> context -> push context uid bb cs !! k = cs !! k.
Proof.
  intros Hk. unfold push, featureToCesiumMap_set, billboards_add.
  rewrite !lookup_alter_ne by congruence. reflexivity.
Qed.

Lemma pushed_lookup_ne context uid bbs cs k :
  k <> context -> pushed context uid bbs cs !! k = cs !! k.
Proof.
  intros Hk. revert cs. induction bbs as [|bb bbs IH]; intros cs; [reflexivity|].
  simpl. rewrite IH. apply push_lookup_ne, Hk.
Qed.

(** The context after billboards were pushed on it: its projection is
    kept, the billboards are appended in order, and the feature map is
    written under the one identity. *)
Lemma pushed_lookup context uid bbs cs c :
  cs !! context = Some c ->
  pushed context uid bbs cs !! context =
  Some {| projection := projection c;
          billboards := billboards c ++ bbs;
          featureToCesiumMap :=
            fold_left (fun m bb => <[uid := bb]> m) bbs (featureToCesiumMap c) |}.
Proof.
  revert cs c. induction bbs as [|bb bbs IH]; intros cs c Hc.
  - simpl. rewrite app_nil_r, Hc. destruct c; reflexivity.
  - simpl.
    rewrite (IH _ {| projection := projection c;
                     billboards := billboards c ++ [bb];
                     featureToCesiumMap := <[uid := bb]> (featureToCesiumMap c) |}).
    + simpl. rewrite <- app_assoc. reflexivity.
    + unfold push, featureToCesiumMap_set, billboards_add.
      rewrite !lookup_alter_eq, Hc. reflexivity.
Qed.

Lemma pushed_lookup_None context uid bbs cs k :
  cs !! k = None -> pushed context uid bbs cs !! k = None.
Proof.
  intros Hk. apply eq_None_not_Some. rewrite pushed_lookup_is_Some.
  rewrite Hk. apply is_Some_None.
Qed.

Lemma fold_insert_lookup_ne {A} (uid uid' : nat) (bbs : list A) (m : gmap nat A) :
  uid' <> uid -> fold_left (fun m bb => <[uid := bb]> m) bbs m !! uid' = m !! uid'.
Proof.
  intros Hne. revert m. induction bbs as [|bb bbs IH]; intros m; [reflexivity|].
  simpl. rewrite IH. apply lookup_insert_ne. congruence.
Qed.

Lemma onlyAdds_refl layer features context w : onlyAdds layer features context w w.
Proof.
  split; [reflexivity|]. split; [reflexivity|]. split.
  - exists []. rewrite app_nil_r. split; [reflexivity|constructor].
  - split; [reflexivity|]. exists []. rewrite app_nil_r. reflexivity.
Qed.

Lemma onlyAdds_trans layer features context w1 w2 w3 :
  onlyAdds layer features context w1 w2 -> onlyAdds layer features context w2 w3 ->
  onlyAdds layer features context w1 w3.
Proof.
  intros [Hk1 [Hp1 [[a1 [Hb1 Ha1]] [Hm1 [l1 Hl1]]]]]
         [Hk2 [Hp2 [[a2 [Hb2 Ha2]] [Hm2 [l2 Hl2]]]]].
  split; [intros k Hk; rewrite Hk2, Hk1 by exact Hk; reflexivity|].
  split; [rewrite Hp2, Hp1; reflexivity|]. split.
  - exists (a1 ++ a2). rewrite Hb2, Hb1, app_assoc. split; [reflexivity|].
    apply Forall_app. split; assumption.
  - split; [intros uid Huid; rewrite Hm2, Hm1 by exact Huid; reflexivity|].
    exists (l1 ++ l2). rewrite Hl2, Hl1, app_assoc. reflexivity.
Qed.

Lemma onlyAdds_mono layer features features' context w w' :
  (forall feature, In feature features -> In feature features') ->
  onlyAdds layer features context w w' -> onlyAdds layer features' context w w'.
Proof.
  intros Hsub [Hk [Hp [[a [Hb Ha]] [Hm Hl]]]].
  split; [exact Hk|]. split; [exact Hp|]. split.
  - exists a. split; [exact Hb|].
    eapply Forall_impl; [exact Ha|]. intros bb [f [Hin Hc]]. exists f. auto.
  - split; [|exact Hl]. intros uid Huid. apply Hm. intros f Hin. apply Huid, Hsub, Hin.
Qed.

(** What the conversion of one feature does, seen from outside. *)
Lemma grows_onlyAdds layer feature context w w' :
  grows layer feature context w w' -> onlyAdds layer [feature] context w w'.
Proof.
  intros [bbs [pending [Hc [Hb [Hl _]]]]].
  split; [intros k Hk; rewrite Hc; apply pushed_lookup_ne, Hk|].
  destruct (contexts w !! context) as [c|] eqn:Hctx.
  - pose proof (pushed_lookup context (getUid feature) bbs (contexts w) c Hctx) as Hnew.
    rewrite <- Hc in Hnew.
    split; [rewrite Hnew; reflexivity|]. split.
    + exists bbs. unfold billboards_of. rewrite Hnew, Hctx. split; [reflexivity|].
      eapply Forall_impl; [exact Hb|]. intros bb Hbb. exists feature.
      split; [left; reflexivity|exact Hbb].
    + split; [|eexists; exact Hl].
      intros uid Huid. unfold featureToCesiumMap_of. rewrite Hnew, Hctx. simpl.
      apply fold_insert_lookup_ne. intros ->. apply (Huid feature); [left|]; reflexivity.
  - pose proof (pushed_lookup_None context (getUid feature) bbs (contexts w) context Hctx)
      as Hnew.
    rewrite <- Hc in Hnew.
    split; [rewrite Hnew; reflexivity|]. split.
    + exists []. unfold billboards_of. rewrite Hnew, Hctx. split; [reflexivity|constructor].
    + split; [|eexists; exact Hl].
      intros uid _. unfold featureToCesiumMap_of. rewrite Hnew, Hctx. reflexivity.
Qed.

(** X4: whatever the geometry and the style of a feature, and whether
    the conversion returns or fails, [olFeatureToCesium] leaves every
    other context as it was, keeps the projection of its context, keeps
    the billboards the context had, in their order, and only appends
    billboards that refer to the layer and the feature, leaves the
    feature map as it was under the identity of every other feature, and
    keeps the pending listeners, in their order, before the ones it
    registers. *)
Theorem olFeatureToCesium_only_adds (layer : Layer) (feature : Feature) (style : Style)
    (context : nat) (opt_geom : option Ol.Geometry) (w : World) :
  onlyAdds layer [feature] context w
    (snd (olFeatureToCesium scene layer feature style context opt_geom w)).
Proof. apply grows_onlyAdds, olFeatureToCesium_grows. Qed.

(** The loop over the features of a layer: the collection it returns is
    the one of the context it was given, and it only adds to the world
    what the conversion of its features adds. *)
Lemma olVectorLayerToCesium_features_onlyAdds olLayer resolution features :
  forall allPrimitives featurePrimitiveMap w,
    let run := olVectorLayerToCesium_features scene olLayer resolution features
                 allPrimitives featurePrimitiveMap w in
    onlyAdds olLayer (omap id features) (Core.context allPrimitives) w (snd run) /\
    (forall result, fst (fst run) = Normal result ->
       Core.context result = Core.context allPrimitives).
Proof.
  induction features as [|[feature|] rest IH]; intros allPrimitives featurePrimitiveMap w;
    simpl.
  - split; [apply onlyAdds_refl|]. intros result [= <-]. reflexivity.
  - assert (Hrest : forall feature', In feature' (omap id rest) ->
                      In feature' (feature :: omap id rest)) by (intros; right; assumption).
    assert (Hhere : forall feature', In feature' [feature] ->
                      In feature' (feature :: omap id rest)).
    { intros f [<-|[]]. left. reflexivity. }
    destruct (computePlainStyle olLayer feature (layer_getStyleFunction olLayer) resolution)
      as [[| |style]|e]; simpl.
    + destruct (IH allPrimitives featurePrimitiveMap w) as [Hw Hr].
      split; [eapply onlyAdds_mono; [exact Hrest|exact Hw]|exact Hr].
    + destruct (IH allPrimitives featurePrimitiveMap w) as [Hw Hr].
      split; [eapply onlyAdds_mono; [exact Hrest|exact Hw]|exact Hr].
    + pose proof (grows_onlyAdds _ _ _ _ _
                    (olFeatureToCesium_grows scene olLayer feature style
                       (Core.context allPrimitives) None w)) as Hfeature.
      destruct (olFeatureToCesium scene olLayer feature style (Core.context allPrimitives)
                  None w) as [[[primitives|]|e] w1]; simpl in Hfeature.
      * destruct (IH (OlLayerPrimitive_add allPrimitives primitives)
                    (<[getUid feature := primitives]> featurePrimitiveMap) w1) as [Hw Hr].
        split; [|exact Hr].
        eapply onlyAdds_trans;
          [eapply onlyAdds_mono; [exact Hhere|exact Hfeature]
          |eapply onlyAdds_mono; [exact Hrest|exact Hw]].
      * destruct (IH allPrimitives featurePrimitiveMap w1) as [Hw Hr].
        split; [|exact Hr].
        eapply onlyAdds_trans;
          [eapply onlyAdds_mono; [exact Hhere|exact Hfeature]
          |eapply onlyAdds_mono; [exact Hrest|exact Hw]].
      * split; [|discriminate].
        eapply onlyAdds_mono; [exact Hhere|exact Hfeature].
    + split; [apply onlyAdds_refl|discriminate].
  - apply IH.
Qed.

(** The context a layer conversion creates is not one of the contexts
    that were there. *)
Lemma new_OlLayerPrimitive_fresh proj w :
  contexts w !! Core.context (fst (new_OlLayerPrimitive proj w)) = None.
Proof.
  simpl. apply not_elem_of_dom, is_fresh.
Qed.

(** X5: [olVectorLayerToCesium] works in a context of its own: whether
    it returns or fails, every context that was there before the call is
    there after it, unchanged, and the listeners that were pending are
    still pending, in their order; when it returns, the context of the
    collection it returns is a new one, which did not exist before the
    call and exists after it. *)
Theorem olVectorLayerToCesium_isolated (olLayer : Layer) (olView : View)
    (featurePrimitiveMap : gmap nat Primitive) (w : World) :
  let run := olVectorLayerToCesium scene olLayer olView featurePrimitiveMap w in
  (forall k c, contexts w !! k = Some c -> contexts (snd run) !! k = Some c) /\
  (exists pending, listeners (snd run) = listeners w ++ pending) /\
  (forall result,
     fst (fst run) = Normal result ->
     contexts w !! Core.context result = None /\
     is_Some (contexts (snd run) !! Core.context result)).
Proof.
  unfold olVectorLayerToCesium.
  destruct (getResolution olView) as [resolution|], (getProjection olView) as [proj|];
    try (cbn; split; [auto|]; split; [exists []; rewrite app_nil_r; reflexivity
                                     |discriminate]).
  pose proof (new_OlLayerPrimitive_fresh proj w) as Hfresh.
  destruct (new_OlLayerPrimitive proj w) as [allPrimitives w0] eqn:Hnew.
  unfold new_OlLayerPrimitive in Hnew. injection Hnew as Hall Hw0.
  simpl in Hfresh.
  destruct (olVectorLayerToCesium_features_onlyAdds olLayer resolution (getFeatures olLayer)
              allPrimitives featurePrimitiveMap w0)
    as [[Hk [Hp [_ [_ [pending Hl]]]]] Hr].
  cbv zeta.
  assert (Hc : Core.context allPrimitives = fresh (dom (contexts w)))
    by (subst allPrimitives; reflexivity).
  split; [|split].
  - intros k c Hkc.
    assert (Hne : k <> Core.context allPrimitives).
    { intros ->. rewrite Hfresh in Hkc. discriminate. }
    rewrite Hk by exact Hne. subst w0. simpl.
    rewrite lookup_insert_ne by (rewrite <- Hc; congruence). exact Hkc.
  - exists pending. rewrite Hl. subst w0. reflexivity.
  - intros result Hresult. rewrite (Hr result Hresult).
    split; [exact Hfresh|].
    apply (fmap_is_Some projection). rewrite Hp. subst w0. simpl.
    rewrite Hc, lookup_insert_eq. eexists; reflexivity.
Qed.

(** X6: when [olVectorLayerToCesium] returns, the context of the
    collection it returns has the projection of the view; every
    billboard in its billboard collection refers to the layer and to one
    of the features of the layer; and its feature map has no entry under
    an identity that is not the one of a feature of the layer. *)
Theorem olVectorLayerToCesium_context (olLayer : Layer) (olView : View)
    (featurePrimitiveMap : gmap nat Primitive) (w : World) (result : OlLayerPrimitive) :
  let run := olVectorLayerToCesium scene olLayer olView featurePrimitiveMap w in
  fst (fst run) = Normal result ->
  exists c,
    contexts (snd run) !! Core.context result = Some c /\
    Some (projection c) = getProjection olView /\
    Forall (fun bb => exists feature,
              In feature (featuresOf olLayer) /\ carries olLayer feature bb)
      (billboards c) /\
    (forall uid,
       (forall feature, In feature (featuresOf olLayer) -> getUid feature <> uid) ->
       featureToCesiumMap c !! uid = None).
Proof.
  unfold olVectorLayerToCesium.
  destruct (getResolution olView) as [resolution|], (getProjection olView) as [proj|];
    try (cbn; discriminate).
  destruct (new_OlLayerPrimitive proj w) as [allPrimitives w0] eqn:Hnew.
  unfold new_OlLayerPrimitive in Hnew. injection Hnew as Hall Hw0.
  destruct (olVectorLayerToCesium_features_onlyAdds olLayer resolution (getFeatures olLayer)
              allPrimitives featurePrimitiveMap w0)
    as [[_ [Hp [[added [Hb Ha]] [Hm _]]]] Hr].
  cbv zeta. intros Hresult. rewrite (Hr result Hresult).
  assert (Hc0 : contexts w0 !! Core.context allPrimitives = Some (new_context proj)).
  { subst w0 allPrimitives. simpl. apply lookup_insert_eq. }
  rewrite Hc0 in Hp. unfold billboards_of in Hb. unfold featureToCesiumMap_of in Hm.
  rewrite Hc0 in Hb. 
  destruct (contexts _ !! Core.context allPrimitives) as [c|] eqn:Hc; [|discriminate Hp].
  exists c. split; [reflexivity|]. split; [injection Hp as ->; reflexivity|]. split.
  - rewrite Hb. exact Ha.
  - intros uid Huid. specialize (Hm uid Huid). rewrite Hc0 in Hm. rewrite Hm.
    apply lookup_empty.
Qed.

End Frames.

(** ** What a layer conversion records *)

Section Records.
Context {E : Externs}.
Variable scene : Scene.

Lemma olFeatureToCesium_leaves layer feature style context opt_geom w result :
  fst (olFeatureToCesium scene layer feature style context opt_geom w)
    = Normal (Some result) ->
  leaves_carry layer feature result.
Proof.
  unfold olFeatureToCesium.
  destruct (contexts w !! context); [|discriminate].
  destruct opt_geom as [g|]; [apply olFeatureToCesium_geom_leaves|].
  destruct (getGeometry feature) as [g|]; [|discriminate].
  apply olFeatureToCesium_geom_leaves.
Qed.

(** The loop over the features: what it writes to the map of the caller
    and what it adds to the collection of the layer are the same
    primitives, in the order of the features they were made of. *)
Lemma olVectorLayerToCesium_features_records olLayer resolution features :
  forall allPrimitives featurePrimitiveMap w,
    let run := olVectorLayerToCesium_features scene olLayer resolution features
                 allPrimitives featurePrimitiveMap w in
    exists recorded : list (Feature * Primitive),
      snd (fst run) =
        fold_left (fun m r => <[getUid (fst r) := snd r]> m) recorded featurePrimitiveMap /\
      map fst recorded `sublist_of` omap id features /\
      Forall (fun r => leaves_carry olLayer (fst r) (snd r)) recorded /\
      (forall result,
         fst (fst run) = Normal result ->
         Core.primitives result = Core.primitives allPrimitives ++ map snd recorded).
Proof.
  induction features as [|[feature|] rest IH]; intros allPrimitives featurePrimitiveMap w;
    simpl.
  - exists []. split; [reflexivity|]. split; [constructor|]. split; [constructor|].
    intros result [= <-]. rewrite app_nil_r. reflexivity.
  - destruct (computePlainStyle olLayer feature (layer_getStyleFunction olLayer) resolution)
      as [[| |style]|e]; simpl.
    + destruct (IH allPrimitives featurePrimitiveMap w) as [recorded [Hm [Hs [Hl Hr]]]].
      exists recorded. split; [exact Hm|]. split; [apply sublist_cons, Hs|].
      split; [exact Hl|exact Hr].
    + destruct (IH allPrimitives featurePrimitiveMap w) as [recorded [Hm [Hs [Hl Hr]]]].
      exists recorded. split; [exact Hm|]. split; [apply sublist_cons, Hs|].
      split; [exact Hl|exact Hr].
    + pose proof (olFeatureToCesium_leaves olLayer feature style
                    (Core.context allPrimitives) None w) as Hleaves.
      destruct (olFeatureToCesium scene olLayer feature style (Core.context allPrimitives)
                  None w) as [[[primitives|]|e] w1]; simpl in Hleaves.
      * destruct (IH (OlLayerPrimitive_add allPrimitives primitives)
                    (<[getUid feature := primitives]> featurePrimitiveMap) w1)
          as [recorded [Hm [Hs [Hl Hr]]]].
        exists ((feature, primitives) :: recorded).
        split; [exact Hm|]. split; [apply sublist_skip, Hs|].
        split; [constructor; [apply Hleaves; reflexivity|exact Hl]|].
        intros result Hresult. rewrite (Hr result Hresult). simpl.
        rewrite <- app_assoc. reflexivity.
      * destruct (IH allPrimitives featurePrimitiveMap w1) as [recorded [Hm [Hs [Hl Hr]]]].
        exists recorded. split; [exact Hm|]. split; [apply sublist_cons, Hs|].
        split; [exact Hl|exact Hr].
      * exists []. split; [reflexivity|]. split; [apply sublist_nil_l|].
        split; [constructor|discriminate].
    + exists []. split; [reflexivity|]. split; [apply sublist_nil_l|].
      split; [constructor|discriminate].
  - apply IH.
Qed.

(** X7: the map of the caller and the collection [olVectorLayerToCesium]
    returns hold the same primitives.  There are features of the layer,
    in the order of the layer, each with a primitive, such that the map
    after the call is the map before it with each of these primitives
    written under the identity of its feature, in that order (also when
    the call fails: what was written for the features before the failing
    one stays); in each of these primitives every single primitive with
    geometry and every label refers to the layer and to the feature it
    is recorded under; and when the call returns, the collection holds
    exactly these primitives, in that order. *)
Theorem olVectorLayerToCesium_records (olLayer : Layer) (olView : View)
    (featurePrimitiveMap : gmap nat Primitive) (w : World) :
  let run := olVectorLayerToCesium scene olLayer olView featurePrimitiveMap w in
  exists recorded : list (Feature * Primitive),
    snd (fst run) =
      fold_left (fun m r => <[getUid (fst r) := snd r]> m) recorded featurePrimitiveMap /\
    map fst recorded `sublist_of` featuresOf olLayer /\
    Forall (fun r => leaves_carry olLayer (fst r) (snd r)) recorded /\
    (forall result,
       fst (fst run) = Normal result -> Core.primitives result = map snd recorded).
Proof.
  unfold olVectorLayerToCesium.
  destruct (getResolution olView) as [resolution|], (getProjection olView) as [proj|];
    try (exists []; cbn; split; [reflexivity|]; split; [apply sublist_nil_l|];
         split; [constructor|discriminate]).
  destruct (new_OlLayerPrimitive proj w) as [allPrimitives w0] eqn:Hnew.
  destruct (olVectorLayerToCesium_features_records olLayer resolution (getFeatures olLayer)
              allPrimitives featurePrimitiveMap w0) as [recorded [Hm [Hs [Hl Hr]]]].
  exists recorded. split; [exact Hm|]. split; [exact Hs|]. split; [exact Hl|].
  intros result Hresult. rewrite (Hr result Hresult).
  unfold new_OlLayerPrimitive in Hnew. injection Hnew as <- _. reflexivity.
Qed.

End Records.

(** ** Geometries without points *)

Section WithoutPoints.
Context {E : Externs}.
Variable scene : Scene.

Lemma olFeatureToCesium_members_world convertMember geometries :
  Forall (fun g => match g with
                   | Some g => hasPoints g = false ->
                               forall w : World, snd (convertMember g w) = w
                   | None => True
                   end) geometries ->
  existsb (fun m => match m with Some m => hasPoints m | None => false end) geometries
    = false ->
  forall primitives w,
    snd (olFeatureToCesium_members convertMember geometries primitives w) = w.
Proof.
  induction 1 as [|[g|] gs Hg Hgs IH]; intros Hnone primitives w; simpl in *.
  - reflexivity.
  - apply orb_false_iff in Hnone as [Hhere Hrest].
    specialize (Hg Hhere w).
    destruct (convertMember g w) as [[[prims|]|e] w1]; simpl in Hg; subst w1.
    + apply IH, Hrest.
    + apply IH, Hrest.
    + reflexivity.
  - apply IH, Hnone.
Qed.

Lemma olFeatureToCesium_geom_world layer feature style context geom :
  hasPoints geom = false ->
  forall w, snd (olFeatureToCesium_geom scene layer feature style context geom w) = w.
Proof.
  induction geom as [p c|p cs|p cs|p rs|p c r|p cs|p ls|p ps|p gs IHgs]
    using Geometry_induction; intros Hnone w; try discriminate Hnone;
    cbn -[olPointGeometryToCesium olMultiGeometryToCesium olLineStringGeometryToCesium
          olPolygonGeometryToCesium olCircleGeometryToCesium olFeatureToCesium_members];
    destruct (contexts w !! context) as [ctx|] eqn:Hctx; try reflexivity.
  - destruct (olLineStringGeometryToCesium _ _ _ _ _ _); reflexivity.
  - destruct (olPolygonGeometryToCesium _ _ _ _ _ _); reflexivity.
  - destruct (olCircleGeometryToCesium _ _ _ _ _ _); reflexivity.
  - unfold olMultiGeometryToCesium. destruct (accumulate _ _ _); reflexivity.
  - unfold olMultiGeometryToCesium. destruct (accumulate _ _ _); reflexivity.
  - pose proof (olFeatureToCesium_members_world _ gs IHgs Hnone
                  new_PrimitiveCollection w) as H.
    destruct (olFeatureToCesium_members _ gs new_PrimitiveCollection w) as [[r|e] w1];
      exact H.
Qed.

(** X8: only points touch the shared objects.  For a geometry that is
    neither a point nor a multi-point, nor a collection that holds one
    at any depth, [olFeatureToCesium] leaves the world exactly as it
    was, whether it returns or fails: no billboard is added, no entry of
    a feature map is written, no listener is registered. *)
Theorem olFeatureToCesium_without_points (layer : Layer) (feature : Feature)
    (style : Style) (context : nat) (geom : Ol.Geometry) (w : World) :
  hasPoints geom = false ->
  snd (olFeatureToCesium scene layer feature style context (Some geom) w) = w.
Proof.
  intros Hnone. unfold olFeatureToCesium.
  destruct (contexts w !! context); [|reflexivity].
  apply olFeatureToCesium_geom_world. rewrite hasPoints_withMembersGiven. exact Hnone.
Qed.

End WithoutPoints.

(** ** Multi-geometries and collections *)

Section Decomposition.
Context {E : Externs}.
Variable scene : Scene.

Lemma Forall2_map_left {A B C} (f : A -> B) (P : B -> C -> Prop) l k :
  Forall2 P (map f l) k <-> Forall2 (fun x => P (f x)) l k.
Proof. exact (Forall2_fmap_l f P l k). Qed.

(** [accumulate] returns when [functor] returns for every geometry, and
    then it has added what [functor] returned, in order. *)
Lemma accumulate_Forall2 (functor : Ol.Geometry -> completion Primitive) geometries :
  forall before reference result,
    accumulate (PrimitiveCollection before reference) geometries functor = Normal result <->
    exists members,
      result = PrimitiveCollection (before ++ members) reference /\
      Forall2 (fun g member => functor g = Normal member) geometries members.
Proof.
  induction geometries as [|g rest IH]; intros before reference result; simpl.
  - split.
    + intros [= <-]. exists []. rewrite app_nil_r. split; [reflexivity|constructor].
    + intros [members [-> Hall]]. inversion Hall. rewrite app_nil_r. reflexivity.
  - destruct (functor g) as [p|e] eqn:Hg; simpl.
    + rewrite IH. split.
      * intros [members [-> Hall]]. exists (p :: members).
        rewrite <- app_assoc. split; [reflexivity|]. constructor; assumption.
      * intros [members [-> Hall]]. inversion Hall as [|? member ? members' Hhead Htail];
          subst. rewrite Hg in Hhead. injection Hhead as <-.
        exists members'. rewrite <- app_assoc. split; [reflexivity|exact Htail].
    + split; [discriminate|].
      intros [members [_ Hall]]. inversion Hall as [|? member ? members' Hhead Htail];
        subst. rewrite Hg in Hhead. discriminate.
Qed.

Lemma accumulate_members functor geometries members :
  accumulate new_PrimitiveCollection geometries functor =
    Normal (PrimitiveCollection members None) <->
  Forall2 (fun g member => functor g = Normal member) geometries members.
Proof.
  unfold new_PrimitiveCollection. rewrite accumulate_Forall2. split.
  - intros [ms [[= ->] Hall]]. exact Hall.
  - intros Hall. exists members. split; [reflexivity|exact Hall].
Qed.

(** X9: a multi-line-string or a multi-polygon converts member by
    member.  In a context that exists, [olFeatureToCesium] returns the
    primitive collection of [members] for it exactly when it returns,
    for each of the member geometries in their order, the member of
    [members] at the same place: one member per line string or polygon,
    none left out, and the conversion fails as soon as one of them
    fails. *)
Theorem olFeatureToCesium_multi_geometry (layer : Layer) (feature : Feature)
    (style : Style) (context : nat) (geometry : Ol.Geometry)
    (members : list Primitive) (c : Context) (w : World) :
  getType geometry = "MultiLineString" \/ getType geometry = "MultiPolygon" ->
  contexts w !! context = Some c ->
  fst (olFeatureToCesium scene layer feature style context (Some geometry) w) =
    Normal (Some (PrimitiveCollection members None)) <->
  Forall2 (fun g member =>
             fst (olFeatureToCesium scene layer feature style context (Some g) w) =
               Normal (Some member))
    (subgeometries geometry) members.
Proof.
  intros Htype Hc. unfold olFeatureToCesium. rewrite Hc.
  destruct geometry as [| | | | | |p ls|p ps|];
    try (destruct Htype as [Htype|Htype]; discriminate Htype).
  - set (functor := fun g => olLineStringGeometryToCesium scene layer feature g
                               (projection c) style).
    assert (Hone : forall line member,
              fst (olFeatureToCesium_geom scene layer feature style context
                     (withMembersGiven (LineString None line)) w) = Normal (Some member) <->
              functor (LineString None line) = Normal member).
    { intros line member. subst functor. cbn -[olLineStringGeometryToCesium]. rewrite Hc.
      destruct (olLineStringGeometryToCesium _ _ _ _ _ _); simpl; split; congruence. }
    assert (Hall : Forall2 (fun g member =>
                     fst (olFeatureToCesium_geom scene layer feature style context
                            (withMembersGiven g) w) = Normal (Some member))
                     (subgeometries (MultiLineString p ls)) members <->
                   Forall2 (fun g member => functor g = Normal member)
                     (getLineStrings ls) members).
    { simpl subgeometries. unfold getLineStrings. rewrite !Forall2_map_left.
      split; intros H; (eapply Forall2_impl; [exact H|]); intros line member; apply Hone. }
    rewrite Hall, <- accumulate_members.
    cbn -[olLineStringGeometryToCesium getLineStrings]. rewrite Hc. fold functor.
    destruct (accumulate _ _ _); simpl; split; congruence.
  - set (functor := fun g => olPolygonGeometryToCesium scene layer feature g
                               (projection c) style).
    assert (Hone : forall polygon member,
              fst (olFeatureToCesium_geom scene layer feature style context
                     (withMembersGiven (Polygon None polygon)) w) = Normal (Some member) <->
              functor (Polygon None polygon) = Normal member).
    { intros polygon member. subst functor. cbn -[olPolygonGeometryToCesium]. rewrite Hc.
      destruct (olPolygonGeometryToCesium _ _ _ _ _ _); simpl; split; congruence. }
    assert (Hall : Forall2 (fun g member =>
                     fst (olFeatureToCesium_geom scene layer feature style context
                            (withMembersGiven g) w) = Normal (Some member))
                     (subgeometries (MultiPolygon p ps)) members <->
                   Forall2 (fun g member => functor g = Normal member)
                     (getPolygons ps) members).
    { simpl subgeometries. unfold getPolygons. rewrite !Forall2_map_left.
      split; intros H; (eapply Forall2_impl; [exact H|]); intros polygon member;
        apply Hone. }
    rewrite Hall, <- accumulate_members.
    cbn -[olPolygonGeometryToCesium getPolygons]. rewrite Hc. fold functor.
    destruct (accumulate _ _ _); simpl; split; congruence.
Qed.

End Decomposition.

(** ** Geometry collections *)

Section Collections.
Context {E : Externs}.
Variable scene : Scene.

(** The loop over the members of a collection appends to the collection
    it is given: what it appends does not depend on what the collection
    holds already. *)
Lemma olFeatureToCesium_members_appends convertMember geometries :
  forall before reference w,
    match olFeatureToCesium_members convertMember geometries
            (PrimitiveCollection before reference) w with
    | (Normal result, w') =>
        exists members,
          result = PrimitiveCollection (before ++ members) reference /\
          forall before',
            olFeatureToCesium_members convertMember geometries
              (PrimitiveCollection before' reference) w =
            (Normal (PrimitiveCollection (before' ++ members) reference), w')
    | (Throw e, w') =>
        forall before',
          olFeatureToCesium_members convertMember geometries
            (PrimitiveCollection before' reference) w = (Throw e, w')
    end.
Proof.
  induction geometries as [|[g|] rest IH]; intros before reference w; simpl.
  - exists []. rewrite app_nil_r. split; [reflexivity|].
    intros before'. rewrite app_nil_r. reflexivity.
  - destruct (convertMember g w) as [[[prims|]|e] w1].
    + specialize (IH (before ++ [prims]) reference w1).
      destruct (olFeatureToCesium_members convertMember rest
                  (PrimitiveCollection (before ++ [prims]) reference) w1)
        as [[result|e] w2].
      * destruct IH as [members [-> Hany]]. exists (prims :: members).
        rewrite <- app_assoc. split; [reflexivity|].
        intros before'. rewrite Hany, <- app_assoc. reflexivity.
      * intros before'. apply IH.
    + apply IH.
    + reflexivity.
  - apply IH.
Qed.

(** The loop over a list of members followed by another is the loop over
    the first, and then, unless it failed, the loop over the second. *)
Lemma olFeatureToCesium_members_app convertMember first second :
  forall primitives w,
    olFeatureToCesium_members convertMember (first ++ second) primitives w =
    match olFeatureToCesium_members convertMember first primitives w with
    | (Normal primitives, w) => olFeatureToCesium_members convertMember second primitives w
    | (Throw e, w) => (Throw e, w)
    end.
Proof.
  induction first as [|[g|] rest IH]; intros primitives w; simpl.
  - reflexivity.
  - destruct (convertMember g w) as [[[prims|]|e] w1]; [apply IH|apply IH|reflexivity].
  - apply IH.
Qed.

(** X10: a geometry collection converts member by member, in order, the
    world handed from each member to the next.  When the collection of
    [first] converts to the primitives [members1] and leaves the world
    [w1], and the collection of [second] converts from [w1] to the
    primitives [members2] and leaves [w2], then the collection of the
    members of [first] followed by those of [second] converts to
    [members1] followed by [members2] and leaves [w2]. *)
Theorem olFeatureToCesium_collection_app (layer : Layer) (feature : Feature)
    (style : Style) (context : nat) (props1 props2 props : Properties)
    (first second : list (option Ol.Geometry)) (members1 members2 : list Primitive)
    (w w1 w2 : World) :
  olFeatureToCesium scene layer feature style context
    (Some (GeometryCollection props1 first)) w =
    (Normal (Some (PrimitiveCollection members1 None)), w1) ->
  olFeatureToCesium scene layer feature style context
    (Some (GeometryCollection props2 second)) w1 =
    (Normal (Some (PrimitiveCollection members2 None)), w2) ->
  olFeatureToCesium scene layer feature style context
    (Some (GeometryCollection props (first ++ second))) w =
    (Normal (Some (PrimitiveCollection (members1 ++ members2) None)), w2).
Proof.
  unfold olFeatureToCesium.
  destruct (contexts w !! context) as [c|] eqn:Hc; [|discriminate].
  destruct (contexts w1 !! context) as [c1|] eqn:Hc1; [|discriminate].
  cbn -[olFeatureToCesium_members getGeometries]. rewrite Hc, Hc1.
  set (convertMember := fun geom w =>
                          olFeatureToCesium_geom scene layer feature style context geom w).
  rewrite getGeometries_app, olFeatureToCesium_members_app.
  destruct (olFeatureToCesium_members convertMember (getGeometries first)
              new_PrimitiveCollection w)
    as [[result1|e1] w1'] eqn:Hfirst; [|discriminate].
  intros [= -> ->].
  pose proof (olFeatureToCesium_members_appends convertMember (getGeometries second) []
                None w1) as Hsecond.
  unfold new_PrimitiveCollection.
  destruct (olFeatureToCesium_members convertMember (getGeometries second)
              (PrimitiveCollection [] None) w1)
    as [[result2|e2] w2'] eqn:Hrun; [|discriminate].
  intros [= -> ->].
  destruct Hsecond as [members [[= ->] Hany]].
  rewrite Hany. reflexivity.
Qed.

(** The loop over the members ignores the members that are null. *)
Lemma olFeatureToCesium_members_omap convertMember geometries :
  forall primitives w,
    olFeatureToCesium_members convertMember (map Some (omap id geometries)) primitives w =
    olFeatureToCesium_members convertMember geometries primitives w.
Proof.
  induction geometries as [|[g|] rest IH]; intros primitives w; simpl.
  - reflexivity.
  - destruct (convertMember g w) as [[[prims|]|e] w1]; [apply IH|apply IH|reflexivity].
  - apply IH.
Qed.

End Collections.

(** ** When a conversion fails *)

Section Failures.
Context {E : Externs}.
Variable scene : Scene.

(** The loop over the rings returns when no ring is empty. *)
Lemma olPolygonGeometryToCesium_rings_returns rings :
  forall i objects hierarchy,
    returns (olPolygonGeometryToCesium_rings i (getLinearRings rings) objects hierarchy) <->
    Forall (fun ring : list Coordinate => ring <> []) rings.
Proof.
  induction rings as [|ring rest IH]; intros i objects hierarchy.
  - simpl. split; [constructor|intros _; exact I].
  - simpl. unfold ol4326CoordinateArrayToCsCartesians. rewrite length_map.
    destruct ring as [|c cs]; simpl.
    + split; [intros []|]. intros H. inversion H; congruence.
    + destruct (Nat.eqb i 0); rewrite IH;
        (split; [intros H; constructor; [discriminate|exact H]
                |intros H; inversion H; assumption]).
Qed.

(** [addTextStyle] fails only for a text component that no label can be
    made of. *)
Lemma addTextStyle_returns_iff layer feature geometry style primitive :
  returns (addTextStyle scene layer feature geometry style primitive) <->
  handledStyle style = true.
Proof.
  unfold addTextStyle, handledStyle.
  destruct (style_getText style) as [text|]; [|simpl; split; auto].
  destruct (handledText text) eqn:Hhandled.
  - destruct (olGeometry4326TextPartToCesium_label scene layer feature geometry text
                Hhandled) as [label [-> _]].
    simpl. split; auto.
  - pose proof (olGeometry4326TextPartToCesium_throws scene layer feature geometry text
                  Hhandled) as Hthrows.
    destruct (olGeometry4326TextPartToCesium scene layer feature geometry text);
      simpl in *; [contradiction|]. split; [intros []|discriminate].
Qed.

Lemma Forall_nonempty_map {A B} (f : A -> B) (lists : list (list A)) :
  Forall (fun l => l <> []) (map (map f) lists) <-> Forall (fun l => l <> []) lists.
Proof.
  induction lists as [|l rest IH]; simpl.
  - split; constructor.
  - split; intros H; inversion H as [|? ? Hl Hrest]; subst; constructor;
      try (apply IH; assumption); destruct l; simpl in *; congruence.
Qed.

(** [olPolygonGeometryToCesium] returns for a polygon exactly when the
    polygon has a ring, none of its rings is empty, and the text
    component of the style, if there is one, is one a label can be made
    of. *)
Lemma olPolygonGeometryToCesium_returns_iff (layer : Layer) (feature : Feature)
    (props : Properties) (rings : list (list Coordinate)) (projection : Projection)
    (olStyle : Style) :
  returns (olPolygonGeometryToCesium scene layer feature (Polygon props rings) projection
             olStyle) <->
  rings <> [] /\ Forall (fun ring => ring <> []) rings /\ handledStyle olStyle = true.
Proof.
  unfold olPolygonGeometryToCesium. simpl olGeometryCloneTo4326.
  cbn -[olPolygonGeometryToCesium_rings addTextStyle wrapFillAndOutlineGeometries
        getLinearRings Nat.ltb].
  destruct rings as [|ring rest].
  - simpl. split; [intros []|]. intros [Hne _]. congruence.
  - set (rings := ring :: rest).
    assert (Hlen : Nat.ltb 0 (length (getLinearRings
                     (map (map (transformTo4326 projection)) rings))) = true)
      by reflexivity.
    rewrite Hlen. cbn -[olPolygonGeometryToCesium_rings addTextStyle
                        wrapFillAndOutlineGeometries getLinearRings].
    pose proof (olPolygonGeometryToCesium_rings_returns
                  (map (map (transformTo4326 projection)) rings) 0
                  [{| positions := None; holes := None |}] 0) as Hrings.
    rewrite Forall_nonempty_map in Hrings.
    destruct (olPolygonGeometryToCesium_rings _ _ _ _) as [[objects hierarchy]|e];
      cbn -[addTextStyle wrapFillAndOutlineGeometries] in *.
    + rewrite addTextStyle_returns_iff. split.
      * intros Hstyle. split; [discriminate|]. split; [apply Hrings; exact I|exact Hstyle].
      * intros [_ [_ Hstyle]]. exact Hstyle.
    + split; [intros []|]. intros [_ [Hall _]]. apply Hrings, Hall.
Qed.

(** X12: a multi-point with at least one point, under a style without a
    text component, cannot be converted: the callback that converts its
    points is not bound to the converter, so [olFeatureToCesium] fails
    with a [TypeError] at the first point, and the world is as it was:
    no billboard is created.  (With no point at all it returns null.) *)
Theorem olFeatureToCesium_multi_point_without_text (layer : Layer) (feature : Feature)
    (style : Style) (context : nat) (props : Properties) (points : list Coordinate)
    (c : Context) (w : World) :
  style_getText style = None ->
  contexts w !! context = Some c ->
  olFeatureToCesium scene layer feature style context (Some (MultiPoint props points)) w =
  match points with
  | [] => (Normal None, w)
  | _ :: _ => (Throw (TypeError "this.olPointGeometryToCesium is not a function"), w)
  end.
Proof.
  intros Htext Hc. unfold olFeatureToCesium. rewrite Hc.
  cbn -[olMultiGeometryToCesium]. rewrite Hc.
  unfold olMultiGeometryToCesium. rewrite Htext.
  destruct points; reflexivity.
Qed.

(** The world after the conversion of a point whose icon can be made a
    billboard of at once: the billboard is pushed, whatever the text
    component of the style and whether the label can be made. *)
Lemma olPointGeometryToCesium_loaded layer feature props coordinates projection style
    imageStyle image context w :
  style_getImage style = Some imageStyle ->
  image_getImage imageStyle = Some image ->
  supportedImage (Some image) = true ->
  imageNotLoaded (Some image) = false ->
  snd (olPointGeometryToCesium scene layer feature (Point props coordinates) projection
         style context (Some (newBillboardAddedCallback context feature)) w) =
  {| contexts :=
       push context (getUid feature)
         (billboardOf layer feature (Point props (transformTo4326 projection coordinates))
            imageStyle image)
         (contexts w);
     listeners := listeners w |}.
Proof.
  intros Hstyle Himage Hsupported Hloaded.
  unfold olPointGeometryToCesium. rewrite Hstyle, Himage.
  unfold imageNotLoaded in Hloaded. rewrite Hloaded.
  cbn -[reallyCreateBillboard addTextStyle].
  rewrite reallyCreateBillboard_supported by exact Hsupported.
  destruct (style_getText style); [|reflexivity].
  destruct (addTextStyle _ _ _ _ _ _); reflexivity.
Qed.

(** X13: the billboard of a point outlives the failure of its label.
    For a point whose icon can be made a billboard of at once and whose
    style has a text component that no label can be made of,
    [olFeatureToCesium] fails, and yet the billboard of the point is in
    the billboard collection of the context and in its feature map when
    it does: the billboard is created before the label is. *)
Theorem olFeatureToCesium_label_failure_keeps_billboard (layer : Layer)
    (feature : Feature) (props : Properties) (coordinates : Coordinate) (style : Style)
    (imageStyle : ImageStyle) (image : ImageObject) (text : Text) (context : nat)
    (c : Context) (w : World) :
  getGeometry feature = Some (Point props coordinates) ->
  style_getImage style = Some imageStyle ->
  image_getImage imageStyle = Some image ->
  supportedImage (Some image) = true ->
  imageNotLoaded (Some image) = false ->
  style_getText style = Some text ->
  handledText text = false ->
  contexts w !! context = Some c ->
  let run := olFeatureToCesium scene layer feature style context None w in
  let bb := billboardOf layer feature
              (Point props (transformTo4326 (projection c) coordinates)) imageStyle image in
  throws (fst run) /\
  billboards_of context (contexts (snd run)) = billboards c ++ [bb] /\
  featureToCesiumMap_of context (contexts (snd run)) =
    <[getUid feature := bb]> (featureToCesiumMap c).
Proof.
  intros Hgeom Hstyle Himage Hsupported Hloaded Htext Hunhandled Hc run bb.
  subst run.
  rewrite (olFeatureToCesium_point scene layer feature style context props coordinates c w
             Hgeom Hc).
  rewrite (olPointGeometryToCesium_loaded layer feature props coordinates (projection c)
             style imageStyle image context w Hstyle Himage Hsupported Hloaded).
  split; [|split].
  - unfold olPointGeometryToCesium. rewrite Hstyle, Htext.
    cbn -[reallyCreateBillboard addTextStyle olGeometry4326TextPartToCesium].
    unfold addTextStyle. rewrite Htext.
    pose proof (olGeometry4326TextPartToCesium_throws scene layer feature
                  (Point props (transformTo4326 (projection c) coordinates)) text
                  Hunhandled) as Hthrows.
    destruct (olGeometry4326TextPartToCesium _ _ _ _ _); [contradiction|exact I].
  - apply billboards_of_push, Hc.
  - apply featureToCesiumMap_of_push, Hc.
Qed.

End Failures.

(** ** Multi-points *)

Section MultiPoints.
Context {E : Externs}.
Variable scene : Scene.

(** Writing a map under one key over and over leaves the last value. *)
Lemma fold_insert_last {A} (uid : nat) (bbs : list A) (m : gmap nat A) :
  fold_left (fun m bb => <[uid := bb]> m) bbs m =
  match last bbs with
  | Some bb => <[uid := bb]> m
  | None => m
  end.
Proof.
  revert m. induction bbs as [|bb rest IH]; intros m; [reflexivity|].
  simpl fold_left. rewrite IH. destruct rest as [|bb' rest']; [reflexivity|].
  rewrite last_cons_cons.
  destruct (last (bb' :: rest')) eqn:Hlast; [apply insert_insert_eq|].
  apply last_None in Hlast. discriminate.
Qed.

(** The loop over the points of a multi-point whose style has a text a
    label can be made of and an icon that can be made a billboard of at
    once: every point adds one member and pushes its billboard. *)
Lemma olMultiGeometryToCesium_points_loaded layer feature projection style imageStyle
    image text context points :
  style_getImage style = Some imageStyle ->
  image_getImage imageStyle = Some image ->
  supportedImage (Some image) = true ->
  imageNotLoaded (Some image) = false ->
  style_getText style = Some text ->
  handledText text = true ->
  forall before w,
    exists members,
      olMultiGeometryToCesium_points scene layer feature projection style context
        (Some (newBillboardAddedCallback context feature)) (getPoints points)
        (PrimitiveCollection before None) w =
      (Normal (PrimitiveCollection (before ++ members) None),
       {| contexts :=
            pushed context (getUid feature)
              (map (fun p => billboardOf layer feature
                               (Point None (transformTo4326 projection p)) imageStyle image)
                 points)
              (contexts w);
          listeners := listeners w |}) /\
      length members = length points.
Proof.
  intros Hstyle Himage Hsupported Hloaded Htext Hhandled.
  induction points as [|p rest IH]; intros before w.
  - exists []. rewrite app_nil_r. destruct w. split; reflexivity.
  - simpl getPoints. simpl map. simpl pushed.
    cbn -[olPointGeometryToCesium].
    pose proof (olPointGeometryToCesium_loaded scene layer feature None p projection style
                  imageStyle image context w Hstyle Himage Hsupported Hloaded) as Hworld.
    destruct (olPointGeometryToCesium_result scene layer feature None p projection style
                imageStyle context (Some (newBillboardAddedCallback context feature)) w
                Hstyle) as [_ [Hlabel _]].
    destruct (Hlabel text Htext Hhandled) as [label [Hresult _]].
    destruct (olPointGeometryToCesium scene layer feature (Point None p) projection style
                context (Some (newBillboardAddedCallback context feature)) w)
      as [result w1].
    simpl in Hworld, Hresult. subst result w1.
    destruct (IH (before ++ [PrimitiveCollection
                               [new_Primitive; LabelCollection [label] None] None])
                {| contexts :=
                     push context (getUid feature)
                       (billboardOf layer feature
                          (Point None (transformTo4326 projection p)) imageStyle image)
                       (contexts w);
                   listeners := listeners w |}) as [members [Hrun Hlength]].
    exists (PrimitiveCollection [new_Primitive; LabelCollection [label] None] None
              :: members).
    simpl add. rewrite Hrun, <- app_assoc. simpl. rewrite Hlength.
    split; reflexivity.
Qed.

(** X14: a multi-point with a text a label can be made of and an icon
    that can be made a billboard of at once, in a context that exists:
    [olFeatureToCesium] returns a collection with one member for each
    point; it appends one billboard for each point, in the order of the
    points, to the billboard collection of the context; each of them is
    the billboard of a point without properties of its own, so the
    ['altitudeMode'] of the multi-point is not read; and the feature
    map, which has one entry for a feature, is left with the billboard
    of the last point. *)
Theorem olFeatureToCesium_multi_point_with_text (layer : Layer) (feature : Feature)
    (style : Style) (imageStyle : ImageStyle) (image : ImageObject) (text : Text)
    (context : nat) (props : Properties) (points : list Coordinate) (c : Context)
    (w : World) :
  style_getImage style = Some imageStyle ->
  image_getImage imageStyle = Some image ->
  supportedImage (Some image) = true ->
  imageNotLoaded (Some image) = false ->
  style_getText style = Some text ->
  handledText text = true ->
  contexts w !! context = Some c ->
  let run := olFeatureToCesium scene layer feature style context
               (Some (MultiPoint props points)) w in
  let bbs := map (fun p => billboardOf layer feature
                             (Point None (transformTo4326 (projection c) p))
                             imageStyle image) points in
  (exists members,
     fst run = Normal (Some (PrimitiveCollection members None)) /\
     length members = length points) /\
  billboards_of context (contexts (snd run)) = billboards c ++ bbs /\
  featureToCesiumMap_of context (contexts (snd run)) =
    match last bbs with
    | Some bb => <[getUid feature := bb]> (featureToCesiumMap c)
    | None => featureToCesiumMap c
    end /\
  listeners (snd run) = listeners w.
Proof.
  intros Hstyle Himage Hsupported Hloaded Htext Hhandled Hc run bbs. subst run.
  unfold olFeatureToCesium. rewrite Hc.
  cbn -[olMultiGeometryToCesium]. rewrite Hc.
  unfold olMultiGeometryToCesium. rewrite Htext.
  destruct (olMultiGeometryToCesium_points_loaded layer feature (projection c) style
              imageStyle image text context points Hstyle Himage Hsupported Hloaded
              Htext Hhandled [] w) as [members [Hrun Hlength]].
  unfold new_PrimitiveCollection. rewrite Hrun. fold bbs. simpl.
  split; [exists members; split; [reflexivity|exact Hlength]|].
  unfold billboards_of, featureToCesiumMap_of.
  rewrite (pushed_lookup context (getUid feature) bbs (contexts w) c Hc). simpl.
  split; [reflexivity|]. split; [apply fold_insert_last|reflexivity].
Qed.

End MultiPoints.

(** ** One feature at a time *)

Section Incremental.
Context {E : Externs}.
Variable scene : Scene.

(** Setting the projection of a context to the one it has changes
    nothing. *)
Lemma projection_set_same context proj cs c :
  cs !! context = Some c -> projection c = proj -> projection_set context proj cs = cs.
Proof.
  intros Hc Hproj. unfold projection_set. apply alter_id.
  intros c' Hc'. rewrite Hc in Hc'. injection Hc' as <-. rewrite <- Hproj.
  destruct c; reflexivity.
Qed.

(** One round of the loop of [olVectorLayerToCesium] on a feature is
    [convert] on that feature with the context of the collection, when
    that context has the projection of the view. *)
Lemma olVectorLayerToCesium_features_step (olLayer : Layer) (olView : View)
    (resolution : float) (proj : Projection) (feature : Feature)
    (rest : list (option Feature)) (allPrimitives : OlLayerPrimitive)
    (featurePrimitiveMap : gmap nat Primitive) (c : Context) (w : World) :
  getResolution olView = Some resolution ->
  getProjection olView = Some proj ->
  contexts w !! Core.context allPrimitives = Some c ->
  projection c = proj ->
  olVectorLayerToCesium_features scene olLayer resolution (Some feature :: rest)
    allPrimitives featurePrimitiveMap w =
  match convert scene olLayer olView feature (Core.context allPrimitives) w with
  | (Normal (Some primitives), w') =>
      olVectorLayerToCesium_features scene olLayer resolution rest
        (OlLayerPrimitive_add allPrimitives primitives)
        (<[getUid feature := primitives]> featurePrimitiveMap) w'
  | (Normal None, w') =>
      olVectorLayerToCesium_features scene olLayer resolution rest allPrimitives
        featurePrimitiveMap w'
  | (Throw e, w') => (Throw e, featurePrimitiveMap, w')
  end.
Proof.
  intros Hresolution Hproj Hc Hsame.
  unfold convert. rewrite Hresolution, Hproj.
  simpl olVectorLayerToCesium_features.
  destruct (computePlainStyle olLayer feature (layer_getStyleFunction olLayer) resolution)
    as [[| |style]|e]; try reflexivity.
  rewrite (projection_set_same (Core.context allPrimitives) proj (contexts w) c Hc Hsame).
  destruct w as [cs ls]. simpl.
  destruct (olFeatureToCesium scene olLayer feature style (Core.context allPrimitives) None
              {| contexts := cs; listeners := ls |}) as [[[primitives|]|e] w'];
    reflexivity.
Qed.

(** [convert] into a context that has the projection of the view keeps
    that projection. *)
Lemma convert_keeps_projection layer view feature context proj c w :
  getProjection view = Some proj ->
  contexts w !! context = Some c ->
  projection c = proj ->
  exists c',
    contexts (snd (convert scene layer view feature context w)) !! context = Some c' /\
    projection c' = proj.
Proof.
  intros Hproj Hc Hsame.
  assert (Hkeeps : projection <$>
                     (contexts (snd (convert scene layer view feature context w))
                        !! context) = Some proj).
  { unfold convert. rewrite Hproj.
    destruct (getResolution view) as [resolution|];
      [|simpl; rewrite Hc, <- Hsame; reflexivity].
    destruct (computePlainStyle layer feature (layer_getStyleFunction layer) resolution)
      as [[| |style]|e]; try (simpl; rewrite Hc, <- Hsame; reflexivity).
    rewrite (projection_set_same context proj (contexts w) c Hc Hsame).
    destruct (grows_onlyAdds _ _ _ _ _
                (olFeatureToCesium_grows scene layer feature style context None
                   {| contexts := contexts w; listeners := listeners w |}))
      as [_ [Hp _]].
    rewrite Hp. simpl. rewrite Hc, <- Hsame. reflexivity. }
  destruct (contexts (snd (convert scene layer view feature context w)) !! context)
    as [c'|]; [|discriminate].
  exists c'. split; [reflexivity|]. injection Hkeeps as ->. reflexivity.
Qed.

Lemma olVectorLayerToCesium_features_convertEach (olLayer : Layer) (olView : View)
    (resolution : float) (proj : Projection) (features : list (option Feature)) :
  getResolution olView = Some resolution ->
  getProjection olView = Some proj ->
  forall allPrimitives featurePrimitiveMap c w,
    contexts w !! Core.context allPrimitives = Some c ->
    projection c = proj ->
    olVectorLayerToCesium_features scene olLayer resolution features allPrimitives
      featurePrimitiveMap w =
    convertEach scene olLayer olView features allPrimitives featurePrimitiveMap w.
Proof.
  intros Hresolution Hproj.
  induction features as [|[feature|] rest IH];
    intros allPrimitives featurePrimitiveMap c w Hc Hsame.
  - reflexivity.
  - rewrite (olVectorLayerToCesium_features_step olLayer olView resolution proj feature
               rest allPrimitives featurePrimitiveMap c w Hresolution Hproj Hc Hsame).
    simpl convertEach.
    destruct (convert_keeps_projection olLayer olView feature (Core.context allPrimitives)
                proj c w Hproj Hc Hsame) as [c' [Hc' Hsame']].
    destruct (convert scene olLayer olView feature (Core.context allPrimitives) w)
      as [[[primitives|]|e] w']; simpl in Hc'.
    + apply (IH _ _ c'); assumption.
    + apply (IH _ _ c'); assumption.
    + reflexivity.
  - simpl. apply (IH _ _ c); assumption.
Qed.

(** X15: the conversion of a layer is the conversion of its features
    one at a time.  In a ready view, [olVectorLayerToCesium] gives the
    collection, the map and the world that one gets by creating the
    collection and its context and calling [convert] on each feature of
    the layer in turn with that context, writing what it returns to the
    map and adding it to the collection: [convert], which sets the
    projection of the context before it converts, finds it set
    already. *)
Theorem olVectorLayerToCesium_convertEach (olLayer : Layer) (olView : View)
    (featurePrimitiveMap : gmap nat Primitive) (w : World)
    (resolution : float) (proj : Projection) :
  getResolution olView = Some resolution ->
  getProjection olView = Some proj ->
  olVectorLayerToCesium scene olLayer olView featurePrimitiveMap w =
  let created := new_OlLayerPrimitive proj w in
  convertEach scene olLayer olView (getFeatures olLayer) (fst created)
    featurePrimitiveMap (snd created).
Proof.
  intros Hresolution Hproj. unfold olVectorLayerToCesium.
  rewrite Hresolution, Hproj.
  destruct (new_OlLayerPrimitive proj w) as [allPrimitives w0] eqn:Hnew.
  unfold new_OlLayerPrimitive in Hnew. injection Hnew as <- <-.
  cbv zeta.
  apply (olVectorLayerToCesium_features_convertEach olLayer olView resolution proj
           (getFeatures olLayer) Hresolution Hproj _ _ (new_context proj)).
  - simpl. apply lookup_insert_eq.
  - reflexivity.
Qed.

End Incremental.

(** ** What a returned tree is made of *)

Section Produced.
Context {E : Externs}.
Variable scene : Scene.
Variable layer : Layer.
Variable feature : Feature.
Variable style : Style.

Lemma allProduced_collection members :
  allProduced scene layer feature style (PrimitiveCollection members None) <->
  Forall (allProduced scene layer feature style) members.
Proof.
  unfold allProduced. rewrite renderables_collection. split.
  - intros H. inversion H as [|? ? _ Hmembers]; subst. clear H.
    induction members as [|m ms IH]; constructor; simpl in Hmembers;
      apply Forall_app in Hmembers as [Hm Hms]; [exact Hm|apply IH, Hms].
  - intros H. constructor; [constructor|].
    induction H as [|m ms Hm Hms IH]; simpl; [constructor|].
    apply Forall_app. split; assumption.
Qed.

Lemma allProduced_leaf instances appearance reference :
  produced scene layer feature style (CsPrimitive instances appearance reference) ->
  allProduced scene layer feature style (CsPrimitive instances appearance reference).
Proof. intros H. constructor; [exact H|constructor]. Qed.

Lemma allProduced_labels geometry text labels :
  style_getText style = Some text ->
  olGeometry4326TextPartToCesium scene layer feature geometry text = Normal labels ->
  allProduced scene layer feature style labels.
Proof.
  intros Htext Hlabels.
  destruct (olGeometry4326TextPartToCesium_returns scene layer feature geometry text labels
              Hlabels) as [label [-> _]].
  constructor; [|constructor].
  eapply produced_label; [exact Htext|exact Hlabels].
Qed.

(** What [wrapFillAndOutlineGeometries] returns: a collection of the
    primitive of the fill, if the style has a fill, and the primitive of
    the outline, if it has a stroke. *)
Lemma wrapFillAndOutlineGeometries_produced fillGeometry outlineGeometry :
  isFillGeometry fillGeometry = true ->
  isOutlineGeometry outlineGeometry = true ->
  exists members,
    wrapFillAndOutlineGeometries scene layer feature fillGeometry outlineGeometry style =
      PrimitiveCollection members None /\
    length members = present (style_getFill style) + present (style_getStroke style) /\
    Forall (allProduced scene layer feature style) members.
Proof.
  intros Hfill Houtline.
  assert (Hfp : is_Some (style_getFill style) ->
                allProduced scene layer feature style
                  (createColoredPrimitive layer feature fillGeometry
                     (extractColorFromOlStyle style false) None)).
  { intros H. unfold allProduced. simpl. constructor; [|constructor].
    apply (produced_fill scene layer feature style fillGeometry Hfill H). }
  assert (Hop : is_Some (style_getStroke style) ->
                allProduced scene layer feature style
                  (createColoredPrimitive layer feature outlineGeometry
                     (extractColorFromOlStyle style true)
                     (Some (extractLineWidthFromOlStyle scene style)))).
  { intros H. unfold allProduced. simpl. constructor; [|constructor].
    apply (produced_outline scene layer feature style outlineGeometry Houtline H). }
  unfold wrapFillAndOutlineGeometries.
  destruct (style_getFill style) as [fill|], (style_getStroke style) as [stroke|];
    cbn -[createColoredPrimitive extractColorFromOlStyle extractLineWidthFromOlStyle];
    eexists; (split; [reflexivity|]); (split; [reflexivity|]).
  - constructor; [apply Hfp; eexists; reflexivity|].
    constructor; [apply Hop; eexists; reflexivity|constructor].
  - constructor; [apply Hfp; eexists; reflexivity|constructor].
  - constructor; [apply Hop; eexists; reflexivity|constructor].
  - constructor.
Qed.

(** What [addTextStyle] makes of a collection: the collection, and after
    it the label collection if the style has a text component. *)
Lemma addTextStyle_produced geometry members result :
  Forall (allProduced scene layer feature style) members ->
  addTextStyle scene layer feature geometry style (PrimitiveCollection members None)
    = Normal result ->
  exists labels,
    result = PrimitiveCollection (members ++ labels) None /\
    length labels = present (style_getText style) /\
    Forall (allProduced scene layer feature style) (members ++ labels).
Proof.
  intros Hmembers. unfold addTextStyle.
  destruct (style_getText style) as [text|] eqn:Htext.
  - destruct (olGeometry4326TextPartToCesium scene layer feature geometry text)
      as [label|e] eqn:Hlabel; [|discriminate].
    simpl. intros [= <-]. exists [label]. split; [reflexivity|]. split; [reflexivity|].
    apply Forall_app. split; [exact Hmembers|].
    constructor; [|constructor]. eapply allProduced_labels; eassumption.
  - intros [= <-]. exists []. rewrite app_nil_r.
    split; [reflexivity|]. split; [reflexivity|exact Hmembers].
Qed.

(** What [addTextStyle] makes of a single primitive: the collection of
    it, and after it the label collection. *)
Lemma addTextStyle_single_produced geometry instances appearance reference result :
  produced scene layer feature style (CsPrimitive instances appearance reference) ->
  addTextStyle scene layer feature geometry style
    (CsPrimitive instances appearance reference) = Normal result ->
  exists labels,
    result = PrimitiveCollection (CsPrimitive instances appearance reference :: labels)
               None /\
    length labels = present (style_getText style) /\
    allProduced scene layer feature style result.
Proof.
  intros Hleaf Hrun.
  assert (Hsame : addTextStyle scene layer feature geometry style
                    (CsPrimitive instances appearance reference) =
                  addTextStyle scene layer feature geometry style
                    (PrimitiveCollection [CsPrimitive instances appearance reference] None))
    by reflexivity.
  rewrite Hsame in Hrun.
  apply addTextStyle_produced in Hrun as [labels [-> [Hlength Hall]]].
  - exists labels. split; [reflexivity|]. split; [exact Hlength|].
    apply allProduced_collection, Hall.
  - constructor; [apply allProduced_leaf, Hleaf|constructor].
Qed.

Lemma olCircleGeometryToCesium_produced geometry projection result :
  olCircleGeometryToCesium scene layer feature geometry projection style = Normal result ->
  exists members,
    result = PrimitiveCollection members None /\
    length members = present (style_getFill style) + present (style_getStroke style)
                     + present (style_getText style) /\
    allProduced scene layer feature style result.
Proof.
  unfold olCircleGeometryToCesium.
  destruct (olGeometryCloneTo4326 geometry projection) as [| | | |p c r| | | |];
    try discriminate.
  cbv zeta. intros Hrun.
  destruct (wrapFillAndOutlineGeometries_produced
              (CircleGeometry (ol4326CoordinateToCesiumCartesian c)
                 (Cartesian3_distance (ol4326CoordinateToCesiumCartesian c)
                    (ol4326CoordinateToCesiumCartesian (add_to_first c r)))
                 (third_or_zero c))
              (CircleOutlineGeometry (ol4326CoordinateToCesiumCartesian c)
                 (Cartesian3_distance (ol4326CoordinateToCesiumCartesian c)
                    (ol4326CoordinateToCesiumCartesian (add_to_first c r)))
                 (third_or_zero c) (third_or_zero c)) eq_refl eq_refl)
    as [members [Hwrap [Hlength Hall]]].
  rewrite Hwrap in Hrun.
  apply addTextStyle_produced in Hrun as [labels [-> [Hlabels Hall']]]; [|exact Hall].
  eexists. split; [reflexivity|]. split.
  - rewrite length_app, Hlength, Hlabels. reflexivity.
  - apply allProduced_collection, Hall'.
Qed.

Lemma olPolygonGeometryToCesium_produced geometry projection result :
  olPolygonGeometryToCesium scene layer feature geometry projection style = Normal result ->
  exists members,
    result = PrimitiveCollection members None /\
    length members = present (style_getFill style) + present (style_getStroke style)
                     + present (style_getText style) /\
    allProduced scene layer feature style result.
Proof.
  unfold olPolygonGeometryToCesium.
  destruct (olGeometryCloneTo4326 geometry projection) as [| | |p rs| | | | |];
    try discriminate.
  cbn -[olPolygonGeometryToCesium_rings addTextStyle wrapFillAndOutlineGeometries
        getLinearRings Nat.ltb].
  destruct (Nat.ltb 0 (length (getLinearRings rs))); [|discriminate].
  cbn -[olPolygonGeometryToCesium_rings addTextStyle wrapFillAndOutlineGeometries
        getLinearRings].
  destruct (olPolygonGeometryToCesium_rings _ _ _ _) as [[objects hierarchy]|e];
    [|discriminate].
  cbn -[addTextStyle wrapFillAndOutlineGeometries]. intros Hrun.
  destruct (wrapFillAndOutlineGeometries_produced
              (PolygonGeometry {| objects := objects; target := 0 |} true)
              (PolygonOutlineGeometry {| objects := objects; target := hierarchy |} true)
              eq_refl eq_refl)
    as [members [Hwrap [Hlength Hall]]].
  rewrite Hwrap in Hrun.
  apply addTextStyle_produced in Hrun as [labels [-> [Hlabels Hall']]]; [|exact Hall].
  eexists. split; [reflexivity|]. split.
  - rewrite length_app, Hlength, Hlabels. reflexivity.
  - apply allProduced_collection, Hall'.
Qed.

Lemma olLineStringGeometryToCesium_produced geometry projection result :
  olLineStringGeometryToCesium scene layer feature geometry projection style
    = Normal result ->
  exists members,
    result = PrimitiveCollection members None /\
    length members = 1 + present (style_getText style) /\
    allProduced scene layer feature style result.
Proof.
  unfold olLineStringGeometryToCesium.
  destruct (olGeometryCloneTo4326 geometry projection) as [|p cs| | | | | | |];
    try discriminate.
  cbv zeta. intros Hrun.
  apply addTextStyle_single_produced in Hrun as [labels [-> [Hlabels Hall]]].
  - eexists. split; [reflexivity|]. split; [simpl; rewrite Hlabels; reflexivity|exact Hall].
  - apply produced_polyline.
Qed.

Lemma olPointGeometryToCesium_produced geometry projection billboards
    opt_newBillboardCallback w result :
  fst (olPointGeometryToCesium scene layer feature geometry projection style billboards
         opt_newBillboardCallback w) = Normal (Some result) ->
  allProduced scene layer feature style result.
Proof.
  unfold olPointGeometryToCesium.
  destruct geometry as [p c| | | | | | | |]; try discriminate.
  destruct (style_getImage style) as [imageStyle|]; [|discriminate].
  cbv zeta. destruct (style_getText style) as [text|] eqn:Htext; [|discriminate].
  destruct (addTextStyle scene layer feature _ style new_Primitive) as [r|e] eqn:Hrun;
    [|discriminate].
  intros [= <-].
  apply addTextStyle_single_produced in Hrun as [labels [_ [_ Hall]]];
    [exact Hall|apply produced_empty].
Qed.

Lemma accumulate_produced functor geometries :
  (forall g result, functor g = Normal result ->
                    allProduced scene layer feature style result) ->
  forall members result,
    Forall (allProduced scene layer feature style) members ->
    accumulate (PrimitiveCollection members None) geometries functor = Normal result ->
    allProduced scene layer feature style result.
Proof.
  intros Hfunctor. induction geometries as [|g rest IH]; intros members result Hmembers;
    simpl.
  - intros [= <-]. apply allProduced_collection, Hmembers.
  - destruct (functor g) as [p|e] eqn:Hg; [|discriminate]. simpl.
    apply IH. apply Forall_app. split; [exact Hmembers|].
    constructor; [eapply Hfunctor, Hg|constructor].
Qed.

Lemma olMultiGeometryToCesium_points_produced projection billboards
    opt_newBillboardCallback subgeos :
  forall members w result,
    Forall (allProduced scene layer feature style) members ->
    fst (olMultiGeometryToCesium_points scene layer feature projection style billboards
           opt_newBillboardCallback subgeos (PrimitiveCollection members None) w)
      = Normal result ->
    allProduced scene layer feature style result.
Proof.
  induction subgeos as [|g rest IH]; intros members w result Hmembers.
  - simpl. intros [= <-]. apply allProduced_collection, Hmembers.
  - cbn -[olPointGeometryToCesium].
    pose proof (olPointGeometryToCesium_produced g projection billboards
                  opt_newBillboardCallback w) as Hpoint.
    destruct (olPointGeometryToCesium _ _ _ _ _ _ _ _ _) as [[[r|]|e] w1];
      simpl in Hpoint.
    + apply IH. apply Forall_app. split; [exact Hmembers|].
      constructor; [apply Hpoint; reflexivity|constructor].
    + apply IH. exact Hmembers.
    + discriminate.
Qed.

Lemma olMultiGeometryToCesium_produced geometry projection billboards
    opt_newBillboardCallback w result :
  fst (olMultiGeometryToCesium scene layer feature geometry projection style billboards
         opt_newBillboardCallback w) = Normal (Some result) ->
  allProduced scene layer feature style result.
Proof.
  unfold olMultiGeometryToCesium.
  destruct geometry as [| | | | |p cs|p ls|p ps|]; try discriminate.
  - destruct (style_getText style).
    + pose proof (olMultiGeometryToCesium_points_produced projection billboards
                    opt_newBillboardCallback (getPoints cs) [] w) as H.
      unfold new_PrimitiveCollection.
      destruct (olMultiGeometryToCesium_points _ _ _ _ _ _ _ _ _ _) as [[r|e] w1];
        [|discriminate].
      intros [= <-]. apply H; [constructor|reflexivity].
    + destruct (getPoints cs); discriminate.
  - unfold new_PrimitiveCollection.
    destruct (accumulate _ _ _) as [r|e] eqn:Hacc; [|discriminate].
    intros [= <-]. eapply accumulate_produced; [|constructor|exact Hacc].
    intros g res Hres.
    destruct (olLineStringGeometryToCesium_produced g projection res Hres)
      as [_ [_ [_ Hall]]]. exact Hall.
  - unfold new_PrimitiveCollection.
    destruct (accumulate _ _ _) as [r|e] eqn:Hacc; [|discriminate].
    intros [= <-]. eapply accumulate_produced; [|constructor|exact Hacc].
    intros g res Hres.
    destruct (olPolygonGeometryToCesium_produced g projection res Hres)
      as [_ [_ [_ Hall]]]. exact Hall.
Qed.

Lemma olFeatureToCesium_members_produced convertMember geometries :
  Forall (fun g => match g with
                   | Some g =>
                       forall w result,
                         fst (convertMember g w) = Normal (Some result) ->
                         allProduced scene layer feature style result
                   | None => True
                   end) geometries ->
  forall members w result,
    Forall (allProduced scene layer feature style) members ->
    fst (olFeatureToCesium_members convertMember geometries
           (PrimitiveCollection members None) w) = Normal result ->
    allProduced scene layer feature style result.
Proof.
  induction 1 as [|[g|] gs Hg Hgs IH]; intros members w result Hmembers; simpl.
  - intros [= <-]. apply allProduced_collection, Hmembers.
  - specialize (Hg w).
    destruct (convertMember g w) as [[[prims|]|e] w1]; simpl in Hg.
    + apply IH. apply Forall_app. split; [exact Hmembers|].
      constructor; [apply Hg; reflexivity|constructor].
    + apply IH. exact Hmembers.
    + discriminate.
  - apply IH. exact Hmembers.
Qed.

Lemma olFeatureToCesium_geom_produced context geom :
  forall w result,
    fst (olFeatureToCesium_geom scene layer feature style context geom w)
      = Normal (Some result) ->
    allProduced scene layer feature style result.
Proof.
  induction geom as [p c|p cs|p cs|p rs|p c r|p cs|p ls|p ps|p gs IHgs]
    using Geometry_induction; intros w result;
    cbn -[olPointGeometryToCesium olMultiGeometryToCesium olLineStringGeometryToCesium
          olPolygonGeometryToCesium olCircleGeometryToCesium olFeatureToCesium_members];
    destruct (contexts w !! context) as [ctx|] eqn:Hctx; try discriminate.
  - apply olPointGeometryToCesium_produced.
  - destruct (olLineStringGeometryToCesium _ _ _ _ _ _) as [res|e] eqn:H; [|discriminate].
    intros [= <-].
    destruct (olLineStringGeometryToCesium_produced _ _ _ H) as [_ [_ [_ Hall]]].
    exact Hall.
  - destruct (olPolygonGeometryToCesium _ _ _ _ _ _) as [res|e] eqn:H; [|discriminate].
    intros [= <-].
    destruct (olPolygonGeometryToCesium_produced _ _ _ H) as [_ [_ [_ Hall]]].
    exact Hall.
  - destruct (olCircleGeometryToCesium _ _ _ _ _ _) as [res|e] eqn:H; [|discriminate].
    intros [= <-].
    destruct (olCircleGeometryToCesium_produced _ _ _ H) as [_ [_ [_ Hall]]].
    exact Hall.
  - apply (olMultiGeometryToCesium_produced (MultiPoint p cs)).
  - apply (olMultiGeometryToCesium_produced (MultiLineString p ls)).
  - apply (olMultiGeometryToCesium_produced (MultiPolygon p ps)).
  - pose proof (olFeatureToCesium_members_produced _ gs IHgs [] w) as H.
    unfold new_PrimitiveCollection.
    destruct (olFeatureToCesium_members _ gs (PrimitiveCollection [] None) w)
      as [[res|e] w1]; [|discriminate].
    intros [= <-]. apply H; [constructor|reflexivity].
Qed.

End Produced.

(** ** Line widths and labels of a returned tree *)

Section Trees.
Context {E : Externs}.
Variable scene : Scene.

(** Induction on a returned tree, with the members of a collection. *)
Lemma Primitive_induction (P : Primitive -> Prop) :
  (forall instances appearance reference, P (CsPrimitive instances appearance reference)) ->
  (forall members reference, Forall P members -> P (PrimitiveCollection members reference)) ->
  (forall labels reference, P (LabelCollection labels reference)) ->
  forall p, P p.
Proof.
  intros HPrimitive HCollection HLabels.
  fix IH 1. intros [i a r|ms r|ls r];
    [apply HPrimitive| |apply HLabels].
  apply HCollection.
  induction ms as [|m ms IHms]; constructor; [apply IH|exact IHms].
Qed.

(** The labels of a tree are the labels of the label collections among
    its objects. *)
Lemma labels_of_renderables p :
  labels_of p =
  concat (map (fun r => match r with LabelCollection ls _ => ls | _ => [] end)
            (renderables p)).
Proof.
  induction p as [i a r|ms r IHms|ls r] using Primitive_induction.
  - reflexivity.
  - rewrite labels_of_collection, renderables_collection. simpl.
    induction IHms as [|m ms Hm Hms IH]; [reflexivity|].
    simpl. rewrite map_app, concat_app, <- Hm, IH. reflexivity.
  - simpl. rewrite app_nil_r. reflexivity.
Qed.

(** The options of the label [olGeometry4326TextPartToCesium] makes. *)
Lemma olGeometry4326TextPartToCesium_options layer feature geometry text labels :
  olGeometry4326TextPartToCesium scene layer feature geometry text = Normal labels ->
  exists label,
    labels = LabelCollection [label] None /\
    Some (label_text label) = text_getText text /\
    label_font label = text_getFont text /\
    label_pixelOffset label =
      (if number_neq (text_getOffsetX text) 0 && number_neq (text_getOffsetY text) 0
       then Some {| px := text_getOffsetX text; py := text_getOffsetY text |}
       else None) /\
    label_style label = labelStyleOf text /\
    label_outlineWidth label =
      match text_getStroke text with
      | Some _ => Some (extractLineWidthFromOlStyle scene text)
      | None => None
      end /\
    label_heightReference label = getHeightReference layer feature geometry /\
    carries layer feature label.
Proof.
  unfold olGeometry4326TextPartToCesium, labelStyleOf.
  destruct (text_getText text) as [content|]; [|discriminate].
  destruct (text_getTextAlign text) as [align|],
           (text_getTextBaseline text) as [baseline|];
    cbn -[extractLineWidthFromOlStyle extractColorFromOlStyle getHeightReference number_neq];
    repeat match goal with
           | |- context [truthy_string ?s] =>
               destruct (truthy_string s);
               cbn -[extractLineWidthFromOlStyle extractColorFromOlStyle
                     getHeightReference number_neq]
           | |- context [String.eqb ?s ?t] =>
               destruct (String.eqb s t);
               cbn -[extractLineWidthFromOlStyle extractColorFromOlStyle
                     getHeightReference number_neq]
           end;
    try discriminate; intros [= <-]; eexists; (split; [reflexivity|]);
    cbn -[extractLineWidthFromOlStyle extractColorFromOlStyle getHeightReference
          number_neq];
    destruct (text_getFill text), (text_getStroke text); repeat split.
Qed.

(** X16: what a conversion is made of.  Every object of the tree
    [olFeatureToCesium] returns for a feature under a style is one of
    six kinds: a collection without back-reference; the colored
    primitive of a circle or polygon fill, in the fill color of the
    style and without a line width, and only if the style has a fill;
    the colored primitive of a circle or polygon outline, in the outline
    color and with the line width of the style, and only if the style
    has a stroke; the primitive of a polyline, with the line width and
    the outline material of the style; the empty primitive; or what
    [olGeometry4326TextPartToCesium] returns for the text component of
    the style. *)
Theorem olFeatureToCesium_produces (layer : Layer) (feature : Feature) (style : Style)
    (context : nat) (opt_geom : option Ol.Geometry) (w : World) (result : Primitive) :
  fst (olFeatureToCesium scene layer feature style context opt_geom w)
    = Normal (Some result) ->
  Forall (produced scene layer feature style) (renderables result).
Proof.
  unfold olFeatureToCesium.
  destruct (contexts w !! context); [|discriminate].
  destruct opt_geom as [g|]; [apply olFeatureToCesium_geom_produced|].
  destruct (getGeometry feature) as [g|]; [|discriminate].
  apply olFeatureToCesium_geom_produced.
Qed.

(** The line widths of each kind of object are within the maximum. *)
Lemma produced_lineWidths layer feature style p :
  produced scene layer feature style p ->
  Forall (fun width => (maximumAliasedLineWidth scene <? width)%float = false)
    (lineWidths_of p).
Proof.
  intros [members|geometry Hfill _|geometry Houtline _|positions| |geometry text labels
                                                                    Htext Hlabels].
  - constructor.
  - destruct geometry; try discriminate Hfill; constructor.
  - destruct geometry; try discriminate Houtline;
      (constructor; [apply Math_min_never_exceeds|constructor]).
  - constructor; [apply Math_min_never_exceeds|constructor].
  - constructor.
  - destruct (olGeometry4326TextPartToCesium_options layer feature geometry text labels
                Hlabels) as [label [-> [_ [_ [_ [_ [Hwidth _]]]]]]].
    simpl. rewrite Hwidth.
    destruct (text_getStroke text); [|constructor].
    constructor; [apply Math_min_never_exceeds|constructor].
Qed.

(** X17: no line width in a returned tree exceeds the maximum of the GL
    context.  In the tree [olFeatureToCesium] returns, the line width of
    every outline appearance, the width of every polyline and the
    outline width of every label is one that
    [scene.maximumAliasedLineWidth] is not less than, whatever the
    widths of the strokes of the style and of its text; the primitives
    of a fill have no line width. *)
Theorem olFeatureToCesium_line_widths (layer : Layer) (feature : Feature) (style : Style)
    (context : nat) (opt_geom : option Ol.Geometry) (w : World) (result : Primitive) :
  fst (olFeatureToCesium scene layer feature style context opt_geom w)
    = Normal (Some result) ->
  Forall (fun width => (maximumAliasedLineWidth scene <? width)%float = false)
    (lineWidths result).
Proof.
  intros Hrun.
  assert (Hall : allProduced scene layer feature style result).
  { unfold olFeatureToCesium in Hrun.
    destruct (contexts w !! context); [|discriminate].
    destruct opt_geom as [g|]; [eapply olFeatureToCesium_geom_produced, Hrun|].
    destruct (getGeometry feature) as [g|]; [|discriminate].
    eapply olFeatureToCesium_geom_produced, Hrun. }
  unfold lineWidths. apply Forall_concat, Forall_map.
  eapply Forall_impl; [exact Hall|].
  intros p. apply produced_lineWidths.
Qed.

(** X18: the labels of a conversion are those of the text component of
    the style.  Every label in the tree [olFeatureToCesium] returns has
    the text and the font of the text component; its label style is
    fill-and-outline, outline or fill as the text has a fill and a
    stroke, only a stroke or only a fill, and undefined when it has
    neither; it has a pixel offset only when both offsets of the text
    are not zero: an offset along one axis alone is dropped; and it
    refers to the layer and the feature. *)
Theorem olFeatureToCesium_labels (layer : Layer) (feature : Feature) (style : Style)
    (context : nat) (opt_geom : option Ol.Geometry) (w : World) (result : Primitive) :
  fst (olFeatureToCesium scene layer feature style context opt_geom w)
    = Normal (Some result) ->
  Forall (fun label =>
            exists text,
              style_getText style = Some text /\
              Some (label_text label) = text_getText text /\
              label_font label = text_getFont text /\
              label_style label = labelStyleOf text /\
              label_pixelOffset label =
                (if number_neq (text_getOffsetX text) 0
                    && number_neq (text_getOffsetY text) 0
                 then Some {| px := text_getOffsetX text; py := text_getOffsetY text |}
                 else None) /\
              carries layer feature label)
    (labels_of result).
Proof.
  intros Hrun.
  assert (Hall : allProduced scene layer feature style result).
  { unfold olFeatureToCesium in Hrun.
    destruct (contexts w !! context); [|discriminate].
    destruct opt_geom as [g|]; [eapply olFeatureToCesium_geom_produced, Hrun|].
    destruct (getGeometry feature) as [g|]; [|discriminate].
    eapply olFeatureToCesium_geom_produced, Hrun. }
  rewrite labels_of_renderables. apply Forall_concat, Forall_map.
  eapply Forall_impl; [exact Hall|].
  intros p [members|geometry _ _|geometry _ _|positions| |geometry text labels
                                                           Htext Hlabels];
    try constructor.
  destruct (olGeometry4326TextPartToCesium_options layer feature geometry text labels
              Hlabels) as [label [-> [Ht [Hf [Ho [Hs [_ [_ Hc]]]]]]]].
  constructor; [|constructor].
  exists text. repeat split; assumption.
Qed.

End Trees.

(** ** How many members a returned collection has *)

Section MemberCounts.
Context {E : Externs}.
Variable scene : Scene.
Variable layer : Layer.
Variable feature : Feature.
Variable style : Style.

(** A point whose style has a text component gives the empty primitive
    and the label collection. *)
Lemma olPointGeometryToCesium_members geometry projection billboards
    opt_newBillboardCallback w result :
  fst (olPointGeometryToCesium scene layer feature geometry projection style billboards
         opt_newBillboardCallback w) = Normal (Some result) ->
  exists members, result = PrimitiveCollection members None /\ length members = 2.
Proof.
  unfold olPointGeometryToCesium.
  destruct geometry as [p c| | | | | | | |]; try discriminate.
  destruct (style_getImage style) as [imageStyle|]; [|discriminate].
  cbv zeta. destruct (style_getText style) as [text|] eqn:Htext; [|discriminate].
  destruct (addTextStyle scene layer feature _ style new_Primitive) as [r|e] eqn:Hrun;
    [|discriminate].
  intros [= <-].
  apply addTextStyle_single_produced in Hrun as [labels [-> [Hlength _]]];
    [|apply produced_empty].
  eexists. split; [reflexivity|]. simpl. rewrite Hlength, Htext. reflexivity.
Qed.

(** The loop over the points of a multi-point whose style has a text
    component adds one member for each point. *)
Lemma olMultiGeometryToCesium_points_members projection billboards
    opt_newBillboardCallback text subgeos :
  style_getText style = Some text ->
  forall before w result,
    fst (olMultiGeometryToCesium_points scene layer feature projection style billboards
           opt_newBillboardCallback subgeos (PrimitiveCollection before None) w)
      = Normal result ->
    exists members,
      result = PrimitiveCollection (before ++ members) None /\
      length members = length subgeos.
Proof.
  intros Htext. induction subgeos as [|g rest IH]; intros before w result.
  - simpl. intros [= <-]. exists []. rewrite app_nil_r. split; reflexivity.
  - cbn -[olPointGeometryToCesium].
    destruct (olPointGeometryToCesium scene layer feature g projection style billboards
                opt_newBillboardCallback w) as [[[r|]|e] w1] eqn:Hpoint.
    + intros Hrun. apply IH in Hrun as [members [-> Hlength]].
      exists (r :: members). rewrite <- app_assoc. split; [reflexivity|].
      simpl. rewrite Hlength. reflexivity.
    + exfalso. revert Hpoint. unfold olPointGeometryToCesium.
      destruct g; try discriminate.
      destruct (style_getImage style); [|discriminate].
      cbv zeta. rewrite Htext.
      destruct (addTextStyle _ _ _ _ _ _); discriminate.
    + discriminate.
Qed.

(** The loop over the members of a geometry collection adds at most one
    member for each member that is there. *)
Lemma olFeatureToCesium_members_length convertMember geometries :
  forall before w result,
    fst (olFeatureToCesium_members convertMember geometries
           (PrimitiveCollection before None) w) = Normal result ->
    exists members,
      result = PrimitiveCollection (before ++ members) None /\
      length members <= length (omap id geometries).
Proof.
  induction geometries as [|[g|] rest IH]; intros before w result; simpl.
  - intros [= <-]. exists []. rewrite app_nil_r. split; [reflexivity|]. apply le_n.
  - destruct (convertMember g w) as [[[prims|]|e] w1].
    + intros Hrun. apply IH in Hrun as [members [-> Hlength]].
      exists (prims :: members). rewrite <- app_assoc. split; [reflexivity|].
      apply le_n_S, Hlength.
    + intros Hrun. apply IH in Hrun as [members [-> Hlength]].
      exists members. split; [reflexivity|]. apply le_S, Hlength.
    + discriminate.
  - apply IH.
Qed.

(** X19: how many members the collection [olFeatureToCesium] returns
    has.  Whatever it returns for a geometry is a primitive collection
    without back-reference.  For a point it has two members, the empty
    primitive and the label collection (a point is returned only when
    the style has a text component).  For a line string it has the
    polyline, also when the style has no stroke, and the label
    collection if the style has a text component.  For a polygon or a
    circle it has one member for each of the fill, the stroke and the
    text component the style has: none at all, in a collection that is
    not null, for a style without them.  For a multi-point,
    multi-line-string or multi-polygon it has one member for each point,
    line string or polygon.  For a geometry collection it has at most
    one member for each member that is there.  For a linear ring nothing
    is returned. *)
Theorem olFeatureToCesium_member_count (context : nat) (geometry : Ol.Geometry)
    (w : World) (result : Primitive) :
  fst (olFeatureToCesium scene layer feature style context (Some geometry) w)
    = Normal (Some result) ->
  exists members,
    result = PrimitiveCollection members None /\
    match geometry with
    | Point _ _ => length members = 2
    | LineString _ _ => length members = 1 + present (style_getText style)
    | Polygon _ _ | Circle _ _ _ =>
        length members = present (style_getFill style) + present (style_getStroke style)
                         + present (style_getText style)
    | MultiPoint _ _ | MultiLineString _ _ | MultiPolygon _ _ =>
        length members = length (subgeometries geometry)
    | GeometryCollection _ geometries => length members <= length (omap id geometries)
    | LinearRing _ _ => False
    end.
Proof.
  unfold olFeatureToCesium.
  destruct (contexts w !! context) as [c|] eqn:Hc; [|discriminate].
  destruct geometry as [p cs|p cs|p cs|p rs|p ce r|p cs|p ls|p ps|p gs];
    cbn -[olPointGeometryToCesium olMultiGeometryToCesium olLineStringGeometryToCesium
          olPolygonGeometryToCesium olCircleGeometryToCesium olFeatureToCesium_members
          getGeometries];
    rewrite Hc.
  - apply olPointGeometryToCesium_members.
  - destruct (olLineStringGeometryToCesium _ _ _ _ _ _) as [res|e] eqn:H; [|discriminate].
    intros [= <-].
    destruct (olLineStringGeometryToCesium_produced _ _ _ _ _ _ _ H)
      as [members [-> [Hlength _]]].
    exists members. split; [reflexivity|exact Hlength].
  - discriminate.
  - destruct (olPolygonGeometryToCesium _ _ _ _ _ _) as [res|e] eqn:H; [|discriminate].
    intros [= <-].
    destruct (olPolygonGeometryToCesium_produced _ _ _ _ _ _ _ H)
      as [members [-> [Hlength _]]].
    exists members. split; [reflexivity|exact Hlength].
  - destruct (olCircleGeometryToCesium _ _ _ _ _ _) as [res|e] eqn:H; [|discriminate].
    intros [= <-].
    destruct (olCircleGeometryToCesium_produced _ _ _ _ _ _ _ H)
      as [members [-> [Hlength _]]].
    exists members. split; [reflexivity|exact Hlength].
  - unfold olMultiGeometryToCesium.
    destruct (style_getText style) as [text|] eqn:Htext;
      [|destruct (getPoints cs); discriminate].
    pose proof (olMultiGeometryToCesium_points_members (projection c) context
                  (Some (newBillboardAddedCallback context feature)) text (getPoints cs)
                  Htext [] w) as Hloop.
    unfold new_PrimitiveCollection.
    destruct (olMultiGeometryToCesium_points _ _ _ _ _ _ _ _ _ _) as [[res|e] w1];
      [|discriminate].
    intros [= <-]. destruct (Hloop res eq_refl) as [members [-> Hlength]].
    exists members. split; [reflexivity|exact Hlength].
  - unfold olMultiGeometryToCesium, new_PrimitiveCollection.
    destruct (accumulate _ _ _) as [res|e] eqn:Hacc; [|discriminate].
    intros [= <-]. apply accumulate_Forall2 in Hacc as [members [-> Hall]].
    exists members. split; [reflexivity|]. symmetry. apply (Forall2_length _ _ _ Hall).
  - unfold olMultiGeometryToCesium, new_PrimitiveCollection.
    destruct (accumulate _ _ _) as [res|e] eqn:Hacc; [|discriminate].
    intros [= <-]. apply accumulate_Forall2 in Hacc as [members [-> Hall]].
    exists members. split; [reflexivity|]. symmetry. apply (Forall2_length _ _ _ Hall).
  - pose proof (olFeatureToCesium_members_length
                  (fun geom w =>
                     olFeatureToCesium_geom scene layer feature style context geom w)
                  (getGeometries gs) [] w) as Hloop.
    unfold new_PrimitiveCollection.
    destruct (olFeatureToCesium_members _ (getGeometries gs) (PrimitiveCollection [] None) w)
      as [[res|e] w1]; [|discriminate].
    intros [= <-]. destruct (Hloop res eq_refl) as [members [-> Hlength]].
    exists members. split; [reflexivity|].
    rewrite getGeometries_omap, length_map in Hlength. exact Hlength.
Qed.

End MemberCounts.

(** ** When an image loads after a conversion *)

Section Loading.
Context {E : Externs}.
Variable scene : Scene.

(** Of the listeners that push a billboard each, those that wait for an
    image are the ones registered for it. *)
Lemma filter_pushListeners context uid (pending : list (nat * Billboard)) src :
  filter (fun l => listens src "load" l = true) (map (pushListener context uid) pending) =
  map (pushListener context uid) (filter (fun p => fst p = src) pending).
Proof.
  induction pending as [|[s bb] rest IH]; [reflexivity|].
  simpl map. rewrite !filter_cons, IH.
  assert (Hlistens : listens src "load" (pushListener context uid (s, bb)) = Nat.eqb s src).
  { unfold listens, pushListener. simpl. apply andb_true_r. }
  rewrite Hlistens. simpl fst.
  destruct (decide (Nat.eqb s src = true)) as [Heq|Hne],
           (decide (s = src)) as [Hs|Hs]; try reflexivity.
  - apply Nat.eqb_eq in Heq. contradiction.
  - subst s. rewrite Nat.eqb_refl in Hne. contradiction.
Qed.

(** When they run, they push their billboards in order. *)
Lemma fold_pushListeners context uid (pending : list (nat * Billboard)) cs :
  fold_left (fun cs l => listener_call l cs) (map (pushListener context uid) pending) cs =
  pushed context uid (map snd pending) cs.
Proof.
  revert cs. induction pending as [|[s bb] rest IH]; intros cs; [reflexivity|].
  simpl. apply IH.
Qed.

(** X20: what the load of an image does after a conversion.  When the
    load event of an image fires after [olFeatureToCesium], the
    listeners that were pending before the call run first, as they would
    have run without it, and then one billboard is pushed for each
    listener the call registered for that image: on the context of the
    call, under the identity of the feature, each with the
    back-reference to the layer and the feature; and a second load of
    the image changes nothing. *)
Theorem olFeatureToCesium_then_load (layer : Layer) (feature : Feature) (style : Style)
    (context : nat) (opt_geom : option Ol.Geometry) (w : World) (src : nat) :
  let w' := snd (olFeatureToCesium scene layer feature style context opt_geom w) in
  let before := {| contexts := contexts w'; listeners := listeners w |} in
  let loaded := dispatchEvent src "load" w' in
  exists bbs,
    contexts loaded =
      pushed context (getUid feature) bbs (contexts (dispatchEvent src "load" before)) /\
    Forall (carries layer feature) bbs /\
    length (filter (fun l => listens src "load" l = true) (listeners w')) =
      length (filter (fun l => listens src "load" l = true) (listeners w)) + length bbs /\
    dispatchEvent src "load" loaded = loaded.
Proof.
  intros w' before loaded.
  destruct (olFeatureToCesium_grows scene layer feature style context opt_geom w)
    as [pushedNow [pending [_ [_ [Hlisteners Hpending]]]]].
  fold w' in Hlisteners.
  exists (map snd (filter (fun p => fst p = src) pending)).
  split; [|split; [|split]].
  - subst loaded before. unfold dispatchEvent. simpl.
    rewrite Hlisteners, filter_app, fold_left_app, filter_pushListeners.
    apply fold_pushListeners.
  - apply Forall_map.
    assert (Hsub : Forall (fun p : nat * Billboard => carries layer feature (snd p))
                     (filter (fun p => fst p = src) pending)).
    { apply Forall_forall. intros p Hin.
      apply list_elem_of_filter in Hin as [_ Hin].
      rewrite Forall_forall in Hpending. apply Hpending, Hin. }
    exact Hsub.
  - rewrite Hlisteners, filter_app, length_app, filter_pushListeners, !length_map.
    reflexivity.
  - apply dispatchEvent_once.
Qed.

End Loading.

(** ** Exactly when a conversion fails *)

Section Convertible.
Context {E : Externs}.
Variable scene : Scene.
Variable layer : Layer.
Variable feature : Feature.
Variable style : Style.

Lemma olCircleGeometryToCesium_returns_iff props center radius projection :
  returns (olCircleGeometryToCesium scene layer feature (Circle props center radius)
             projection style) <->
  handledStyle style = true.
Proof.
  unfold olCircleGeometryToCesium. simpl olGeometryCloneTo4326. cbv zeta.
  apply addTextStyle_returns_iff.
Qed.

Lemma olLineStringGeometryToCesium_returns_iff props coordinates projection :
  returns (olLineStringGeometryToCesium scene layer feature (LineString props coordinates)
             projection style) <->
  handledStyle style = true.
Proof.
  unfold olLineStringGeometryToCesium. simpl olGeometryCloneTo4326. cbv zeta.
  apply addTextStyle_returns_iff.
Qed.

Lemma olPolygonGeometryToCesium_convertible props rings projection :
  returns (olPolygonGeometryToCesium scene layer feature (Polygon props rings) projection
             style) <->
  simpleConvertible style (Polygon props rings) = true.
Proof.
  rewrite olPolygonGeometryToCesium_returns_iff. simpl.
  rewrite andb_true_iff.
  assert (Hrings : Forall (fun ring : list Coordinate => ring <> []) rings <->
                   forallb (fun ring : list Coordinate =>
                              match ring with [] => false | _ => true end) rings = true).
  { induction rings as [|ring rest IH]; simpl.
    - split; [reflexivity|constructor].
    - rewrite andb_true_iff, <- IH. split.
      + intros H. inversion H as [|? ? Hring Hrest]; subst.
        split; [destruct ring; congruence|exact Hrest].
      + intros [Hring Hrest]. constructor; [destruct ring; congruence|exact Hrest]. }
  destruct rings as [|ring rest].
  - split; [intros [Hne _]; congruence|intros [Hne _]; discriminate].
  - rewrite <- Hrings. split.
    + intros [_ [Hall Hstyle]]. split; assumption.
    + intros [Hall Hstyle]. split; [discriminate|]. split; assumption.
Qed.

Lemma olPointGeometryToCesium_returns_iff props coordinates projection billboards
    opt_newBillboardCallback w :
  returns (fst (olPointGeometryToCesium scene layer feature (Point props coordinates)
                  projection style billboards opt_newBillboardCallback w)) <->
  simpleConvertible style (Point props coordinates) = true.
Proof.
  unfold olPointGeometryToCesium. simpl simpleConvertible.
  destruct (style_getImage style) as [imageStyle|];
    [|simpl; split; [intros []|discriminate]].
  cbv zeta.
  pose proof (addTextStyle_returns_iff scene layer feature
                (olGeometryCloneTo4326 (Point props coordinates) projection) style
                new_Primitive) as Htext.
  unfold handledStyle in *.
  destruct (style_getText style) as [text|].
  - destruct (addTextStyle _ _ _ _ _ _); simpl in *; exact Htext.
  - simpl. split; auto.
Qed.

(** [accumulate] returns when [functor] returns for every geometry. *)
Lemma accumulate_returns functor (ok : Ol.Geometry -> bool) geometries :
  (forall g, returns (functor g) <-> ok g = true) ->
  forall primitives,
    returns (accumulate primitives geometries functor) <-> forallb ok geometries = true.
Proof.
  intros Hok. induction geometries as [|g rest IH]; intros primitives; simpl.
  - split; auto.
  - specialize (Hok g). destruct (functor g) as [p|e]; simpl in *.
    + rewrite IH. destruct (ok g); [reflexivity|].
      destruct Hok as [Hok _]. discriminate (Hok I).
    + destruct (ok g); [destruct Hok as [_ Hok]; destruct (Hok eq_refl)|].
      simpl. split; [intros []|discriminate].
Qed.

Lemma olMultiGeometryToCesium_points_returns projection billboards
    opt_newBillboardCallback points :
  forall primitives w,
    returns (fst (olMultiGeometryToCesium_points scene layer feature projection style
                    billboards opt_newBillboardCallback (getPoints points) primitives w)) <->
    forallb (simpleConvertible style) (getPoints points) = true.
Proof.
  induction points as [|p rest IH]; intros primitives w.
  - simpl. split; auto.
  - simpl getPoints. cbn -[olPointGeometryToCesium simpleConvertible].
    pose proof (olPointGeometryToCesium_returns_iff None p projection billboards
                  opt_newBillboardCallback w) as Hpoint.
    destruct (olPointGeometryToCesium _ _ _ _ _ _ _ _ _) as [[[r|]|e] w1];
      simpl fst in Hpoint.
    + rewrite IH. destruct (simpleConvertible style (Point None p)); [reflexivity|].
      destruct Hpoint as [Hpoint _]. discriminate (Hpoint I).
    + rewrite IH. destruct (simpleConvertible style (Point None p)); [reflexivity|].
      destruct Hpoint as [Hpoint _]. discriminate (Hpoint I).
    + destruct (simpleConvertible style (Point None p));
        [destruct Hpoint as [_ Hpoint]; destruct (Hpoint eq_refl)|].
      simpl. split; [intros []|discriminate].
Qed.

Lemma forallb_const_false {A} (l : list A) :
  forallb (fun _ => false) l = match l with [] => true | _ => false end.
Proof. destruct l; reflexivity. Qed.

Lemma olMultiGeometryToCesium_returns_iff geometry projection billboards
    opt_newBillboardCallback w :
  match geometry with
  | MultiPoint _ _ | MultiLineString _ _ | MultiPolygon _ _ => True
  | _ => False
  end ->
  returns (fst (olMultiGeometryToCesium scene layer feature geometry projection style
                  billboards opt_newBillboardCallback w)) <->
  convertible style geometry = true.
Proof.
  unfold olMultiGeometryToCesium.
  destruct geometry as [| | | | |p cs|p ls|p ps|]; intros Htype; try contradiction;
    clear Htype.
  - cbn -[olMultiGeometryToCesium_points simpleConvertible getPoints].
    destruct (style_getText style) as [text|].
    + pose proof (olMultiGeometryToCesium_points_returns projection billboards
                    opt_newBillboardCallback cs new_PrimitiveCollection w) as Hloop.
      destruct (olMultiGeometryToCesium_points _ _ _ _ _ _ _ _ _ _) as [[r|e] w1];
        exact Hloop.
    + rewrite forallb_const_false.
      destruct (getPoints cs); simpl; split; auto; try discriminate.
  - cbn -[accumulate simpleConvertible getLineStrings olLineStringGeometryToCesium].
    pose proof (accumulate_returns
                  (fun g => olLineStringGeometryToCesium scene layer feature g projection
                              style)
                  (fun g => match g with
                            | LineString _ _ => simpleConvertible style g
                            | _ => false
                            end)) as Hacc.
    assert (Hsame : forallb (simpleConvertible style) (getLineStrings ls) =
                    forallb (fun g => match g with
                                      | LineString _ _ => simpleConvertible style g
                                      | _ => false
                                      end) (getLineStrings ls)).
    { induction ls as [|l rest IH]; [reflexivity|]. simpl. rewrite IH. reflexivity. }
    rewrite Hsame, <- (Hacc (getLineStrings ls)) with (primitives := new_PrimitiveCollection).
    + destruct (accumulate _ _ _); reflexivity.
    + intros [| pl cl | | | | | | |];
        try (unfold olLineStringGeometryToCesium; simpl; split; [intros []|discriminate]).
      apply olLineStringGeometryToCesium_returns_iff.
  - cbn -[accumulate simpleConvertible getPolygons olPolygonGeometryToCesium].
    pose proof (accumulate_returns
                  (fun g => olPolygonGeometryToCesium scene layer feature g projection
                              style)
                  (fun g => match g with
                            | Polygon _ _ => simpleConvertible style g
                            | _ => false
                            end)) as Hacc.
    assert (Hsame : forallb (simpleConvertible style) (getPolygons ps) =
                    forallb (fun g => match g with
                                      | Polygon _ _ => simpleConvertible style g
                                      | _ => false
                                      end) (getPolygons ps)).
    { induction ps as [|l rest IH]; [reflexivity|].
      simpl forallb. rewrite IH. reflexivity. }
    rewrite Hsame, <- (Hacc (getPolygons ps)) with (primitives := new_PrimitiveCollection).
    + destruct (accumulate _ _ _); reflexivity.
    + intros [| | |pp rp| | | | |];
        try (unfold olPolygonGeometryToCesium; simpl; split; [intros []|discriminate]).
      apply olPolygonGeometryToCesium_convertible.
Qed.

(** The loop over the members of a collection returns when the
    conversion of every member that is there returns, in a context that
    is there and stays. *)
Lemma olFeatureToCesium_members_returns context convertMember geometries :
  (forall g w, is_Some (contexts w !! context) ->
               is_Some (contexts (snd (convertMember g w)) !! context)) ->
  Forall (fun m => match m with
                   | Some g =>
                       forall w : World,
                         is_Some (contexts w !! context) ->
                         returns (fst (convertMember g w)) <-> convertible style g = true
                   | None => True
                   end) geometries ->
  forall primitives w,
    is_Some (contexts w !! context) ->
    returns (fst (olFeatureToCesium_members convertMember geometries primitives w)) <->
    forallb (fun m => match m with Some m => convertible style m | None => true end)
      geometries = true.
Proof.
  intros Hstays. induction 1 as [|[g|] gs Hg Hgs IH]; intros primitives w Hc; simpl.
  - split; auto.
  - specialize (Hg w Hc). specialize (Hstays g w Hc).
    destruct (convertMember g w) as [[[prims|]|e] w1]; simpl in Hg, Hstays.
    + rewrite (IH _ _ Hstays). destruct (convertible style g); [reflexivity|].
      destruct Hg as [Hg _]. discriminate (Hg I).
    + rewrite (IH _ _ Hstays). destruct (convertible style g); [reflexivity|].
      destruct Hg as [Hg _]. discriminate (Hg I).
    + destruct (convertible style g); [destruct Hg as [_ Hg]; destruct (Hg eq_refl)|].
      simpl. split; [intros []|discriminate].
  - apply IH, Hc.
Qed.

Lemma olFeatureToCesium_geom_returns_iff context geom :
  forall w,
    is_Some (contexts w !! context) ->
    returns (fst (olFeatureToCesium_geom scene layer feature style context geom w)) <->
    convertible style geom = true.
Proof.
  induction geom as [p c|p cs|p cs|p rs|p c r|p cs|p ls|p ps|p gs IHgs]
    using Geometry_induction; intros w [ctx Hctx];
    cbn -[olPointGeometryToCesium olMultiGeometryToCesium olLineStringGeometryToCesium
          olPolygonGeometryToCesium olCircleGeometryToCesium olFeatureToCesium_members
          simpleConvertible convertible];
    rewrite Hctx.
  - apply olPointGeometryToCesium_returns_iff.
  - rewrite <- (olLineStringGeometryToCesium_returns_iff p cs (projection ctx)).
    destruct (olLineStringGeometryToCesium _ _ _ _ _ _); reflexivity.
  - simpl. split; [intros []|discriminate].
  - rewrite <- (olPolygonGeometryToCesium_convertible p rs (projection ctx)).
    destruct (olPolygonGeometryToCesium _ _ _ _ _ _); reflexivity.
  - rewrite <- (olCircleGeometryToCesium_returns_iff p c r (projection ctx)).
    destruct (olCircleGeometryToCesium _ _ _ _ _ _); reflexivity.
  - apply (olMultiGeometryToCesium_returns_iff (MultiPoint p cs)). exact I.
  - apply (olMultiGeometryToCesium_returns_iff (MultiLineString p ls)). exact I.
  - apply (olMultiGeometryToCesium_returns_iff (MultiPolygon p ps)). exact I.
  - pose proof (olFeatureToCesium_members_returns context
                  (fun geom w =>
                     olFeatureToCesium_geom scene layer feature style context geom w) gs)
      as Hloop.
    simpl convertible. rewrite <- (Hloop) with (primitives := new_PrimitiveCollection)
                                               (w := w).
    + destruct (olFeatureToCesium_members _ gs new_PrimitiveCollection w) as [[r|e] w1];
        reflexivity.
    + intros g w0 Hc0.
      apply (grows_lookup_is_Some layer feature context w0 _ context
               (olFeatureToCesium_geom_grows scene layer feature style context g w0)).
      exact Hc0.
    + exact IHgs.
    + exists ctx. exact Hctx.
Qed.

(** X21: exactly when the conversion of a geometry fails, by the checks
    of the converter itself (assertions are enabled, and the functions
    of OpenLayers, Cesium and [olcs.core] it calls are taken as total).
    In a context that exists, [olFeatureToCesium] returns for a geometry
    under a style when the geometry is convertible under it, and fails
    otherwise.  A point is convertible when the style has an image
    component; a polygon when it has a ring and none of its rings is
    empty; a line string and a circle always; each of them provided the
    text component of the style, if there is one, is one a label can be
    made of.  A multi-line-string or multi-polygon is convertible when
    all its members are, a multi-point when all its points are and the
    style has a text component, a collection when all its members that
    are there are; a linear ring never is. *)
Theorem olFeatureToCesium_returns_iff (context : nat) (geom : Ol.Geometry) (w : World) :
  is_Some (contexts w !! context) ->
  returns (fst (olFeatureToCesium scene layer feature style context (Some geom) w)) <->
  convertible style geom = true.
Proof.
  intros Hc. unfold olFeatureToCesium. destruct Hc as [c Hc]. rewrite Hc.
  rewrite <- (convertible_withMembersGiven style geom).
  apply olFeatureToCesium_geom_returns_iff. exists c. exact Hc.
Qed.

End Convertible.

Section ConvertibleLayers.
Context {E : Externs}.
Variable scene : Scene.

(** The loop over the features returns when every feature that is there
    can be got past. *)
Lemma olVectorLayerToCesium_features_returns olLayer resolution features :
  forall allPrimitives featurePrimitiveMap w,
    is_Some (contexts w !! Core.context allPrimitives) ->
    returns (fst (fst (olVectorLayerToCesium_features scene olLayer resolution features
                         allPrimitives featurePrimitiveMap w))) <->
    forallb (featureConvertible olLayer resolution) (omap id features) = true.
Proof.
  induction features as [|[feature|] rest IH]; intros allPrimitives featurePrimitiveMap w Hc.
  - simpl. split; auto.
  - simpl olVectorLayerToCesium_features.
    change (omap id (Some feature :: rest)) with (feature :: omap id rest).
    simpl forallb. unfold featureConvertible at 1.
    destruct (computePlainStyle olLayer feature (layer_getStyleFunction olLayer) resolution)
      as [[| |style]|e].
    + apply IH, Hc.
    + apply IH, Hc.
    + pose proof (olFeatureToCesium_geom_returns_iff scene olLayer feature style
                    (Core.context allPrimitives)) as Hgeom.
      pose proof (grows_lookup_is_Some olLayer feature (Core.context allPrimitives) w _
                    (Core.context allPrimitives)
                    (olFeatureToCesium_grows scene olLayer feature style
                       (Core.context allPrimitives) None w)) as Hstays.
      unfold olFeatureToCesium in *. destruct Hc as [c Hc]. rewrite Hc in *.
      destruct (getGeometry feature) as [g|].
      * specialize (Hgeom (withMembersGiven g) w (ex_intro _ c Hc)).
        rewrite convertible_withMembersGiven in Hgeom.
        destruct (olFeatureToCesium_geom scene olLayer feature style
                    (Core.context allPrimitives) (withMembersGiven g) w)
          as [[[primitives|]|e] w1];
          simpl in Hgeom, Hstays.
        -- rewrite IH by (apply Hstays; eexists; reflexivity).
           destruct (convertible style g); [reflexivity|].
           destruct Hgeom as [Hgeom _]. discriminate (Hgeom I).
        -- rewrite IH by (apply Hstays; eexists; reflexivity).
           destruct (convertible style g); [reflexivity|].
           destruct Hgeom as [Hgeom _]. discriminate (Hgeom I).
        -- destruct (convertible style g);
             [destruct Hgeom as [_ Hgeom]; destruct (Hgeom eq_refl)|].
           simpl. split; [intros []|discriminate].
      * apply IH. exists c. exact Hc.
    + simpl. split; [intros []|discriminate].
  - simpl. apply IH, Hc.
Qed.

(** X22: exactly when the conversion of a layer fails, by the checks of
    the converter itself.  [olVectorLayerToCesium] returns when the view has a resolution and a
    projection and every feature of the layer that is there can be got
    past: its style resolves without failure, and the feature has no
    style, or no geometry, or a geometry that is convertible under its
    style.  Otherwise it fails: one feature that cannot be converted
    fails the conversion of the layer. *)
Theorem olVectorLayerToCesium_returns_iff (olLayer : Layer) (olView : View)
    (featurePrimitiveMap : gmap nat Primitive) (w : World) :
  returns (fst (fst (olVectorLayerToCesium scene olLayer olView featurePrimitiveMap w))) <->
  exists resolution,
    getResolution olView = Some resolution /\
    is_Some (getProjection olView) /\
    forallb (featureConvertible olLayer resolution) (featuresOf olLayer) = true.
Proof.
  unfold olVectorLayerToCesium.
  destruct (getResolution olView) as [resolution|], (getProjection olView) as [proj|].
  - destruct (new_OlLayerPrimitive proj w) as [allPrimitives w0] eqn:Hnew.
    unfold new_OlLayerPrimitive in Hnew. injection Hnew as <- <-.
    rewrite olVectorLayerToCesium_features_returns
      by (simpl; rewrite lookup_insert_eq; eexists; reflexivity).
    split.
    + intros Hall. exists resolution. split; [reflexivity|].
      split; [eexists; reflexivity|exact Hall].
    + intros [resolution' [[= <-] [_ Hall]]]. exact Hall.
  - simpl. split; [intros []|]. intros [_ [_ [[proj Hproj] _]]]. discriminate Hproj.
  - simpl. split; [intros []|]. intros [resolution [Hresolution _]]. discriminate.
  - simpl. split; [intros []|]. intros [resolution [Hresolution _]]. discriminate.
Qed.

End ConvertibleLayers.

(** ** What the result of a conversion depends on *)

Section Independence.
Context {E : Externs}.
Variable scene : Scene.
Variable layer : Layer.
Variable feature : Feature.
Variable style : Style.
Variable context : nat.

(** What [olPointGeometryToCesium] returns depends neither on the
    billboard collection nor on the callback nor on the world. *)
Lemma olPointGeometryToCesium_fst geometry projection billboards billboards'
    opt_newBillboardCallback opt_newBillboardCallback' w w' :
  fst (olPointGeometryToCesium scene layer feature geometry projection style billboards
         opt_newBillboardCallback w) =
  fst (olPointGeometryToCesium scene layer feature geometry projection style billboards'
         opt_newBillboardCallback' w').
Proof.
  unfold olPointGeometryToCesium.
  destruct geometry; try reflexivity.
  destruct (style_getImage style); [|reflexivity].
  cbv zeta. destruct (style_getText style); [|reflexivity].
  destruct (addTextStyle _ _ _ _ _ _); reflexivity.
Qed.

Lemma olMultiGeometryToCesium_points_fst projection billboards opt_newBillboardCallback
    subgeos :
  forall primitives w w',
    fst (olMultiGeometryToCesium_points scene layer feature projection style billboards
           opt_newBillboardCallback subgeos primitives w) =
    fst (olMultiGeometryToCesium_points scene layer feature projection style billboards
           opt_newBillboardCallback subgeos primitives w').
Proof.
  induction subgeos as [|g rest IH]; intros primitives w w'; [reflexivity|].
  cbn -[olPointGeometryToCesium].
  pose proof (olPointGeometryToCesium_fst g projection billboards billboards
                opt_newBillboardCallback opt_newBillboardCallback w w') as Hpoint.
  destruct (olPointGeometryToCesium scene layer feature g projection style billboards
              opt_newBillboardCallback w) as [[[r|]|e] w1],
           (olPointGeometryToCesium scene layer feature g projection style billboards
              opt_newBillboardCallback w') as [[[r'|]|e'] w1'];
    simpl in Hpoint; try discriminate Hpoint.
  - injection Hpoint as <-. apply IH.
  - apply IH.
  - injection Hpoint as <-. reflexivity.
Qed.

Lemma olMultiGeometryToCesium_fst geometry projection billboards opt_newBillboardCallback
    w w' :
  fst (olMultiGeometryToCesium scene layer feature geometry projection style billboards
         opt_newBillboardCallback w) =
  fst (olMultiGeometryToCesium scene layer feature geometry projection style billboards
         opt_newBillboardCallback w').
Proof.
  unfold olMultiGeometryToCesium.
  destruct geometry as [| | | | |p cs|p ls|p ps|]; try reflexivity.
  - destruct (style_getText style).
    + pose proof (olMultiGeometryToCesium_points_fst projection billboards
                    opt_newBillboardCallback (getPoints cs) new_PrimitiveCollection w w')
        as Hloop.
      destruct (olMultiGeometryToCesium_points _ _ _ _ _ _ _ _ _ w) as [[r|e] w1],
               (olMultiGeometryToCesium_points _ _ _ _ _ _ _ _ _ w') as [[r'|e'] w1'];
        simpl in Hloop; try discriminate Hloop; injection Hloop as <-; reflexivity.
    + destruct (getPoints cs); reflexivity.
  - destruct (accumulate _ _ _); reflexivity.
  - destruct (accumulate _ _ _); reflexivity.
Qed.

(** The loop over the members of a collection, for a conversion of the
    members that depends on the world through the projection of the
    context alone, and keeps that projection. *)
Lemma olFeatureToCesium_members_fst convertMember geometries :
  (forall g w,
     projection <$> (contexts (snd (convertMember g w)) !! context) =
     projection <$> (contexts w !! context)) ->
  Forall (fun m => match m with
                   | Some g =>
                       forall w w' : World,
                         projection <$> (contexts w !! context) =
                         projection <$> (contexts w' !! context) ->
                         fst (convertMember g w) = fst (convertMember g w')
                   | None => True
                   end) geometries ->
  forall primitives w w',
    projection <$> (contexts w !! context) = projection <$> (contexts w' !! context) ->
    fst (olFeatureToCesium_members convertMember geometries primitives w) =
    fst (olFeatureToCesium_members convertMember geometries primitives w').
Proof.
  intros Hkeeps. induction 1 as [|[g|] gs Hg Hgs IH]; intros primitives w w' Hsame;
    simpl; [reflexivity| |apply IH, Hsame].
  specialize (Hg w w' Hsame).
  pose proof (Hkeeps g w) as Hw. pose proof (Hkeeps g w') as Hw'.
  destruct (convertMember g w) as [[[prims|]|e] w1],
           (convertMember g w') as [[[prims'|]|e'] w1'];
    simpl in Hg, Hw, Hw'; try discriminate Hg.
  - injection Hg as <-. apply IH. rewrite Hw, Hw'. exact Hsame.
  - apply IH. rewrite Hw, Hw'. exact Hsame.
  - injection Hg as <-. reflexivity.
Qed.

Lemma olFeatureToCesium_geom_keeps_projection geom w :
  projection <$> (contexts (snd (olFeatureToCesium_geom scene layer feature style context
                                   geom w)) !! context) =
  projection <$> (contexts w !! context).
Proof.
  destruct (grows_onlyAdds _ _ _ _ _
              (olFeatureToCesium_geom_grows scene layer feature style context geom w))
    as [_ [Hp _]].
  exact Hp.
Qed.

Lemma olFeatureToCesium_geom_fst geom :
  forall w w',
    projection <$> (contexts w !! context) = projection <$> (contexts w' !! context) ->
    fst (olFeatureToCesium_geom scene layer feature style context geom w) =
    fst (olFeatureToCesium_geom scene layer feature style context geom w').
Proof.
  induction geom as [p c|p cs|p cs|p rs|p c r|p cs|p ls|p ps|p gs IHgs]
    using Geometry_induction; intros w w' Hsame;
    cbn -[olPointGeometryToCesium olMultiGeometryToCesium olLineStringGeometryToCesium
          olPolygonGeometryToCesium olCircleGeometryToCesium olFeatureToCesium_members];
    pose proof Hsame as Hproj;
    destruct (contexts w !! context) as [ctx|] eqn:Hc,
             (contexts w' !! context) as [ctx'|] eqn:Hc';
    simpl in Hproj; try discriminate Hproj; try reflexivity;
    injection Hproj as Hproj.
  - rewrite Hproj. apply olPointGeometryToCesium_fst.
  - rewrite Hproj. destruct (olLineStringGeometryToCesium _ _ _ _ _ _); reflexivity.
  - rewrite Hproj. destruct (olPolygonGeometryToCesium _ _ _ _ _ _); reflexivity.
  - rewrite Hproj. destruct (olCircleGeometryToCesium _ _ _ _ _ _); reflexivity.
  - rewrite Hproj. apply olMultiGeometryToCesium_fst.
  - rewrite Hproj. apply olMultiGeometryToCesium_fst.
  - rewrite Hproj. apply olMultiGeometryToCesium_fst.
  - pose proof (olFeatureToCesium_members_fst
                  (fun geom w =>
                     olFeatureToCesium_geom scene layer feature style context geom w)
                  gs olFeatureToCesium_geom_keeps_projection IHgs
                  new_PrimitiveCollection w w') as Hloop.
    rewrite Hc, Hc' in Hloop. specialize (Hloop Hsame).
    destruct (olFeatureToCesium_members _ gs new_PrimitiveCollection w) as [[r|e] w1],
             (olFeatureToCesium_members _ gs new_PrimitiveCollection w') as [[r'|e'] w1'];
      simpl in Hloop; try discriminate Hloop; injection Hloop as <-; reflexivity.
Qed.

(** X23: what a conversion returns does not depend on what was converted
    before.  The primitive [olFeatureToCesium] returns, or the error it
    fails with, depends on the world only through the projection of the
    context (and whether the context is there): not on the billboards
    the context holds, not on its feature map, not on the other contexts
    and not on the pending listeners. *)
Theorem olFeatureToCesium_result_independent (opt_geom : option Ol.Geometry)
    (w w' : World) :
  projection <$> (contexts w !! context) = projection <$> (contexts w' !! context) ->
  fst (olFeatureToCesium scene layer feature style context opt_geom w) =
  fst (olFeatureToCesium scene layer feature style context opt_geom w').
Proof.
  intros Hsame. unfold olFeatureToCesium.
  pose proof Hsame as Hproj.
  destruct (contexts w !! context) as [ctx|] eqn:Hc,
           (contexts w' !! context) as [ctx'|] eqn:Hc';
    simpl in Hproj; try discriminate Hproj; try reflexivity.
  destruct opt_geom as [g|]; [|destruct (getGeometry feature) as [g|]]; try reflexivity;
    apply olFeatureToCesium_geom_fst; rewrite Hc, Hc'; exact Hsame.
Qed.

End Independence.

(** ** The members of a collection are clones *)

Section ClonedMembers.
Context {E : Externs}.
Variable scene : Scene.
Variable layer : Layer.
Variable feature : Feature.
Variable style : Style.
Variable context : nat.

(** Two conversions of the members that agree on every member that is
    there give the same loop. *)
Lemma olFeatureToCesium_members_ext convertMember convertMember' geometries :
  Forall (fun m => match m with
                   | Some g => forall w : World, convertMember g w = convertMember' g w
                   | None => True
                   end) geometries ->
  forall primitives w,
    olFeatureToCesium_members convertMember geometries primitives w =
    olFeatureToCesium_members convertMember' geometries primitives w.
Proof.
  induction 1 as [|[g|] gs Hg Hgs IH]; intros primitives w; simpl.
  - reflexivity.
  - rewrite <- Hg.
    destruct (convertMember g w) as [[[prims|]|e] w1]; [apply IH|apply IH|reflexivity].
  - apply IH.
Qed.

(** The switch fails for want of a context as [olFeatureToCesium]
    does. *)
Lemma olFeatureToCesium_of_clone geom w :
  olFeatureToCesium scene layer feature style context (Some (clone geom)) w =
  olFeatureToCesium_geom scene layer feature style context (clone geom) w.
Proof.
  unfold olFeatureToCesium. rewrite withMembersGiven_clone.
  destruct (contexts w !! context) as [c|] eqn:Hc; [reflexivity|].
  destruct geom; simpl; rewrite Hc; reflexivity.
Qed.

(** [olFeatureToCesium] on a geometry collection, as it is written: the
    loop over what [getGeometries] gives, each member that is there
    converted by [olFeatureToCesium] itself. *)
Lemma olFeatureToCesium_GeometryCollection props geometries w :
  olFeatureToCesium scene layer feature style context
    (Some (GeometryCollection props geometries)) w =
  match contexts w !! context with
  | None => (Throw (TypeError "Cannot read property 'projection' of undefined"), w)
  | Some _ =>
      match olFeatureToCesium_members
              (fun geom w =>
                 olFeatureToCesium scene layer feature style context (Some geom) w)
              (getGeometries geometries) new_PrimitiveCollection w with
      | (Normal primitives, w) => (Normal (Some primitives), w)
      | (Throw e, w) => (Throw e, w)
      end
  end.
Proof.
  unfold olFeatureToCesium at 1.
  destruct (contexts w !! context) as [c|] eqn:Hc; [|reflexivity].
  cbn -[olFeatureToCesium_members getGeometries]. rewrite Hc.
  rewrite (olFeatureToCesium_members_ext
             (fun geom w => olFeatureToCesium_geom scene layer feature style context geom w)
             (fun geom w =>
                olFeatureToCesium scene layer feature style context (Some geom) w));
    [reflexivity|].
  unfold getGeometries. apply Forall_map.
  induction geometries as [|[g|] gs IH]; constructor; try exact IH; [|exact I].
  intros w0. simpl. symmetry. apply olFeatureToCesium_of_clone.
Qed.

Lemma getHeightReference_inherited geometry :
  geometry_altitudeMode geometry = None ->
  getHeightReference layer feature geometry = inheritedHeightReference layer feature.
Proof.
  intros H. unfold inheritedHeightReference, getHeightReference. rewrite H. reflexivity.
Qed.

Lemma olGeometryCloneTo4326_altitudeMode geometry projection :
  geometry_altitudeMode (olGeometryCloneTo4326 geometry projection) =
  geometry_altitudeMode geometry.
Proof. destruct geometry; reflexivity. Qed.

Lemma clone_altitudeMode geometry : geometry_altitudeMode (clone geometry) = None.
Proof. destruct geometry; reflexivity. Qed.

(** *** The billboards *)

Lemma pushes_refl P w : pushes P feature context w w.
Proof.
  exists [], []. simpl. rewrite app_nil_r. repeat split; constructor.
Qed.

Lemma pushes_trans P w1 w2 w3 :
  pushes P feature context w1 w2 -> pushes P feature context w2 w3 ->
  pushes P feature context w1 w3.
Proof.
  intros [bbs1 [pending1 [Hc1 [Hl1 [Hb1 Hp1]]]]] [bbs2 [pending2 [Hc2 [Hl2 [Hb2 Hp2]]]]].
  exists (bbs1 ++ bbs2), (pending1 ++ pending2). repeat split.
  - rewrite Hc2, Hc1. unfold pushed. rewrite fold_left_app. reflexivity.
  - rewrite Hl2, Hl1, map_app, app_assoc. reflexivity.
  - apply Forall_app. split; assumption.
  - apply Forall_app. split; assumption.
Qed.

(** The billboard of a point that has no properties has the height
    reference of the feature or the layer. *)
Lemma olPointGeometryToCesium_pushes coordinates projection w :
  pushes (billboardInherits layer feature) feature context w
    (snd (olPointGeometryToCesium scene layer feature (Point None coordinates) projection
            style context (Some (newBillboardAddedCallback context feature)) w)).
Proof.
  unfold olPointGeometryToCesium.
  destruct (style_getImage style) as [imageStyle|]; [|apply pushes_refl].
  cbv zeta. simpl olGeometryCloneTo4326.
  set (geometry4326 := Point None (transformTo4326 projection coordinates)).
  assert (Hworld : pushes (billboardInherits layer feature) feature context w
            (if instanceof_Image (image_getImage imageStyle)
                && negb (isImageLoaded (image_getImage imageStyle))
             then
               match image_getImage imageStyle with
               | Some image =>
                   listenOnce (image_id image) "load"
                     (fun cs =>
                        reallyCreateBillboard layer feature geometry4326 style imageStyle
                          (image_getImage imageStyle) context
                          (Some (newBillboardAddedCallback context feature)) cs) w
               | None => w
               end
             else
               {| contexts :=
                    reallyCreateBillboard layer feature geometry4326 style imageStyle
                      (image_getImage imageStyle) context
                      (Some (newBillboardAddedCallback context feature)) (contexts w);
                  listeners := listeners w |})).
  { destruct (image_getImage imageStyle) as [image|] eqn:Himage.
    - destruct (instanceof_Image (Some image) && negb (isImageLoaded (Some image)))
        eqn:Hloading.
      + destruct image as [id|id src nh nw complete|id]; try discriminate.
        exists [], [(id, billboardOf layer feature geometry4326 imageStyle
                           (HTMLImageElement id src nh nw complete))].
        repeat split; repeat constructor.
      + destruct (supportedImage (Some image)) eqn:Hsupported.
        * rewrite reallyCreateBillboard_supported by exact Hsupported.
          exists [billboardOf layer feature geometry4326 imageStyle image], [].
          split; [reflexivity|]. split; [simpl; rewrite app_nil_r; reflexivity|].
          split; repeat constructor.
        * rewrite reallyCreateBillboard_unsupported by exact Hsupported.
          destruct w; apply pushes_refl.
    - simpl. destruct w; apply pushes_refl. }
  destruct (style_getText style); [|exact Hworld].
  destruct (addTextStyle _ _ _ _ _ _); exact Hworld.
Qed.

Lemma olMultiGeometryToCesium_points_pushes projection points :
  forall primitives w,
    pushes (billboardInherits layer feature) feature context w
      (snd (olMultiGeometryToCesium_points scene layer feature projection style context
              (Some (newBillboardAddedCallback context feature)) (getPoints points)
              primitives w)).
Proof.
  induction points as [|c rest IH]; intros primitives w.
  - apply pushes_refl.
  - simpl getPoints. cbn -[olPointGeometryToCesium].
    pose proof (olPointGeometryToCesium_pushes c projection w) as Hpoint.
    destruct (olPointGeometryToCesium _ _ _ _ _ _ _ _ _) as [[[result|]|e] w1];
      simpl in Hpoint.
    + eapply pushes_trans; [exact Hpoint|apply IH].
    + eapply pushes_trans; [exact Hpoint|apply IH].
    + exact Hpoint.
Qed.

Lemma olMultiGeometryToCesium_pushes geometry projection w :
  pushes (billboardInherits layer feature) feature context w
    (snd (olMultiGeometryToCesium scene layer feature geometry projection style context
            (Some (newBillboardAddedCallback context feature)) w)).
Proof.
  unfold olMultiGeometryToCesium.
  destruct geometry as [| | | | |p cs|p ls|p ps|]; try apply pushes_refl.
  - destruct (style_getText style).
    + pose proof (olMultiGeometryToCesium_points_pushes projection cs
                    new_PrimitiveCollection w) as H.
      destruct (olMultiGeometryToCesium_points _ _ _ _ _ _ _ _ _ _) as [[r|e] w1];
        exact H.
    + destruct (getPoints cs); apply pushes_refl.
  - destruct (accumulate _ _ _); apply pushes_refl.
  - destruct (accumulate _ _ _); apply pushes_refl.
Qed.

Lemma olFeatureToCesium_members_pushes P convertMember geometries :
  Forall (fun g => match g with
                   | Some g => forall w, pushes P feature context w (snd (convertMember g w))
                   | None => True
                   end) geometries ->
  forall primitives w,
    pushes P feature context w
      (snd (olFeatureToCesium_members convertMember geometries primitives w)).
Proof.
  induction 1 as [|[g|] gs Hg Hgs IH]; intros primitives w; simpl.
  - apply pushes_refl.
  - specialize (Hg w).
    destruct (convertMember g w) as [[[prims|]|e] w1]; simpl in Hg.
    + eapply pushes_trans; [exact Hg|apply IH].
    + eapply pushes_trans; [exact Hg|apply IH].
    + exact Hg.
  - apply IH.
Qed.

(** The members of a clone, as the loop over them takes them. *)
Lemma Forall_getGeometries (P : Ol.Geometry -> Prop) geometries :
  Forall (fun m => match m with Some g => P (clone g) | None => True end) geometries ->
  Forall (fun m => match m with Some g => P g | None => True end)
    (getGeometries geometries).
Proof.
  intros H. unfold getGeometries. apply Forall_map.
  eapply Forall_impl; [exact H|]. intros [g|]; simpl; auto.
Qed.

Lemma olFeatureToCesium_geom_pushes geom :
  forall w,
    pushes (billboardInherits layer feature) feature context w
      (snd (olFeatureToCesium_geom scene layer feature style context (clone geom) w)).
Proof.
  induction geom as [p c|p cs|p cs|p rs|p c r|p cs|p ls|p ps|p gs IHgs]
    using Geometry_induction; intros w;
    cbn -[olPointGeometryToCesium olMultiGeometryToCesium olLineStringGeometryToCesium
          olPolygonGeometryToCesium olCircleGeometryToCesium olFeatureToCesium_members];
    destruct (contexts w !! context) as [ctx|] eqn:Hctx; try apply pushes_refl.
  - apply olPointGeometryToCesium_pushes.
  - destruct (olLineStringGeometryToCesium _ _ _ _ _ _); apply pushes_refl.
  - destruct (olPolygonGeometryToCesium _ _ _ _ _ _); apply pushes_refl.
  - destruct (olCircleGeometryToCesium _ _ _ _ _ _); apply pushes_refl.
  - apply (olMultiGeometryToCesium_pushes (MultiPoint None cs)).
  - apply (olMultiGeometryToCesium_pushes (MultiLineString None ls)).
  - apply (olMultiGeometryToCesium_pushes (MultiPolygon None ps)).
  - pose proof (olFeatureToCesium_members_pushes (billboardInherits layer feature) _ _
                  (Forall_getGeometries _ gs IHgs) new_PrimitiveCollection w) as H.
    fold (getGeometries gs).
    destruct (olFeatureToCesium_members _ (getGeometries gs) new_PrimitiveCollection w)
      as [[r|e] w1]; exact H.
Qed.


(** *** The labels *)

Lemma labelsInherit_collection members reference :
  labelsInherit layer feature (PrimitiveCollection members reference) <->
  Forall (labelsInherit layer feature) members.
Proof.
  unfold labelsInherit. rewrite labels_of_collection.
  induction members as [|m ms IH]; simpl.
  - split; constructor.
  - rewrite Forall_app, Forall_cons, IH. reflexivity.
Qed.

Lemma labelsInherit_add primitives p :
  labelsInherit layer feature primitives -> labelsInherit layer feature p ->
  labelsInherit layer feature (add primitives p).
Proof.
  destruct primitives as [gi a r|ms r|ls r]; simpl; intros Hps Hp; try exact Hps.
  apply labelsInherit_collection. apply labelsInherit_collection in Hps.
  apply Forall_app. split; [exact Hps|]. constructor; [exact Hp|constructor].
Qed.

Lemma labelsInherit_single instances appearance reference :
  labelsInherit layer feature (CsPrimitive instances appearance reference).
Proof. constructor. Qed.

Lemma labelsInherit_empty : labelsInherit layer feature new_PrimitiveCollection.
Proof. constructor. Qed.

Lemma wrapFillAndOutlineGeometries_labels fillGeometry outlineGeometry :
  labelsInherit layer feature
    (wrapFillAndOutlineGeometries scene layer feature fillGeometry outlineGeometry style).
Proof.
  unfold wrapFillAndOutlineGeometries.
  destruct (style_getFill style), (style_getStroke style); cbv zeta;
    repeat apply labelsInherit_add; try apply labelsInherit_empty;
    apply labelsInherit_single.
Qed.

(** The label of a geometry that has no properties has the height
    reference of the feature or the layer. *)
Lemma addTextStyle_labels geometry primitive result :
  geometry_altitudeMode geometry = None ->
  labelsInherit layer feature primitive ->
  addTextStyle scene layer feature geometry style primitive = Normal result ->
  labelsInherit layer feature result.
Proof.
  intros Hnone Hp. unfold addTextStyle.
  set (primitives := match primitive with
                     | PrimitiveCollection _ _ => primitive
                     | _ => add new_PrimitiveCollection primitive
                     end).
  assert (Hps : labelsInherit layer feature primitives).
  { subst primitives. destruct primitive; try exact Hp;
      apply labelsInherit_add; try apply labelsInherit_empty; exact Hp. }
  destruct (style_getText style) as [text|].
  - destruct (olGeometry4326TextPartToCesium scene layer feature geometry text)
      as [label|e] eqn:Hlabel; simpl; [|discriminate].
    intros [= <-]. apply labelsInherit_add; [exact Hps|].
    destruct (olGeometry4326TextPartToCesium_options scene layer feature geometry text
                label Hlabel) as [l [-> [_ [_ [_ [_ [_ [Hheight _]]]]]]]].
    constructor; [|constructor].
    unfold labelInherits. rewrite Hheight. apply getHeightReference_inherited, Hnone.
  - intros [= <-]. exact Hps.
Qed.

Lemma olCircleGeometryToCesium_labels geometry projection result :
  geometry_altitudeMode geometry = None ->
  olCircleGeometryToCesium scene layer feature geometry projection style = Normal result ->
  labelsInherit layer feature result.
Proof.
  intros Hnone. unfold olCircleGeometryToCesium.
  pose proof (olGeometryCloneTo4326_altitudeMode geometry projection) as Hclone.
  rewrite Hnone in Hclone.
  destruct (olGeometryCloneTo4326 geometry projection); try discriminate.
  apply addTextStyle_labels; [exact Hclone|apply wrapFillAndOutlineGeometries_labels].
Qed.

Lemma olLineStringGeometryToCesium_labels geometry projection result :
  geometry_altitudeMode geometry = None ->
  olLineStringGeometryToCesium scene layer feature geometry projection style
    = Normal result ->
  labelsInherit layer feature result.
Proof.
  intros Hnone. unfold olLineStringGeometryToCesium.
  pose proof (olGeometryCloneTo4326_altitudeMode geometry projection) as Hclone.
  rewrite Hnone in Hclone.
  destruct (olGeometryCloneTo4326 geometry projection); try discriminate.
  apply addTextStyle_labels; [exact Hclone|apply labelsInherit_single].
Qed.

Lemma olPolygonGeometryToCesium_labels geometry projection result :
  geometry_altitudeMode geometry = None ->
  olPolygonGeometryToCesium scene layer feature geometry projection style = Normal result ->
  labelsInherit layer feature result.
Proof.
  intros Hnone. unfold olPolygonGeometryToCesium.
  pose proof (olGeometryCloneTo4326_altitudeMode geometry projection) as Hclone.
  rewrite Hnone in Hclone.
  destruct (olGeometryCloneTo4326 geometry projection); try discriminate.
  cbv zeta. unfold new_object.
  destruct (assert _); [|discriminate]. simpl JS.bind.
  destruct (olPolygonGeometryToCesium_rings _ _ _ _) as [[objects hierarchy]|];
    [|discriminate].
  simpl JS.bind.
  apply addTextStyle_labels; [exact Hclone|apply wrapFillAndOutlineGeometries_labels].
Qed.

Lemma olPointGeometryToCesium_labels coordinates projection billboards
    opt_newBillboardCallback w result :
  fst (olPointGeometryToCesium scene layer feature (Point None coordinates) projection
         style billboards opt_newBillboardCallback w) = Normal (Some result) ->
  labelsInherit layer feature result.
Proof.
  unfold olPointGeometryToCesium.
  destruct (style_getImage style); [|discriminate]. cbv zeta.
  destruct (style_getText style); [|discriminate].
  destruct (addTextStyle _ _ _ _ _ _) as [primitives|e] eqn:Hadd; [|discriminate].
  intros [= <-].
  eapply addTextStyle_labels; [|apply labelsInherit_single|exact Hadd]. reflexivity.
Qed.

Lemma accumulate_labels functor geometries :
  Forall (fun g => forall result, functor g = Normal result ->
                                  labelsInherit layer feature result) geometries ->
  forall primitives result,
    labelsInherit layer feature primitives ->
    accumulate primitives geometries functor = Normal result ->
    labelsInherit layer feature result.
Proof.
  induction 1 as [|g rest Hg Hrest IH]; intros primitives result Hps; simpl.
  - intros [= <-]. exact Hps.
  - destruct (functor g) as [p|e] eqn:Hfg; simpl; [|discriminate].
    apply IH. apply labelsInherit_add; [exact Hps|]. apply Hg. reflexivity.
Qed.

Lemma olMultiGeometryToCesium_points_labels projection billboards
    opt_newBillboardCallback points :
  forall primitives w result,
    labelsInherit layer feature primitives ->
    fst (olMultiGeometryToCesium_points scene layer feature projection style billboards
           opt_newBillboardCallback (getPoints points) primitives w) = Normal result ->
    labelsInherit layer feature result.
Proof.
  induction points as [|c rest IH]; intros primitives w result Hps.
  - simpl. intros [= <-]. exact Hps.
  - simpl getPoints. cbn -[olPointGeometryToCesium].
    pose proof (olPointGeometryToCesium_labels c projection billboards
                  opt_newBillboardCallback w) as Hpoint.
    destruct (olPointGeometryToCesium _ _ _ _ _ _ _ _ _) as [[[p|]|e] w1];
      simpl in Hpoint.
    + apply IH. apply labelsInherit_add; [exact Hps|]. apply Hpoint. reflexivity.
    + apply IH. exact Hps.
    + discriminate.
Qed.

Lemma olMultiGeometryToCesium_labels geometry projection billboards
    opt_newBillboardCallback w result :
  fst (olMultiGeometryToCesium scene layer feature geometry projection style billboards
         opt_newBillboardCallback w) = Normal (Some result) ->
  labelsInherit layer feature result.
Proof.
  unfold olMultiGeometryToCesium.
  destruct geometry as [| | | | |p cs|p ls|p ps|]; try discriminate.
  - destruct (style_getText style).
    + pose proof (olMultiGeometryToCesium_points_labels projection billboards
                    opt_newBillboardCallback cs new_PrimitiveCollection w) as H.
      destruct (olMultiGeometryToCesium_points _ _ _ _ _ _ _ _ _ _) as [[r|e] w1];
        [|discriminate].
      intros [= <-]. apply H; [apply labelsInherit_empty|reflexivity].
    + destruct (getPoints cs); discriminate.
  - destruct (accumulate _ _ _) as [r|e] eqn:Hacc; [|discriminate].
    intros [= <-]. eapply accumulate_labels; [|apply labelsInherit_empty|exact Hacc].
    unfold getLineStrings. apply Forall_map, Forall_forall.
    intros line _ res. apply olLineStringGeometryToCesium_labels. reflexivity.
  - destruct (accumulate _ _ _) as [r|e] eqn:Hacc; [|discriminate].
    intros [= <-]. eapply accumulate_labels; [|apply labelsInherit_empty|exact Hacc].
    unfold getPolygons. apply Forall_map, Forall_forall.
    intros polygon _ res. apply olPolygonGeometryToCesium_labels. reflexivity.
Qed.

Lemma olFeatureToCesium_members_labels convertMember geometries :
  Forall (fun g => match g with
                   | Some g =>
                       forall w result,
                         fst (convertMember g w) = Normal (Some result) ->
                         labelsInherit layer feature result
                   | None => True
                   end) geometries ->
  forall primitives w result,
    labelsInherit layer feature primitives ->
    fst (olFeatureToCesium_members convertMember geometries primitives w)
      = Normal result ->
    labelsInherit layer feature result.
Proof.
  induction 1 as [|[g|] gs Hg Hgs IH]; intros primitives w result Hps; simpl.
  - intros [= <-]. exact Hps.
  - specialize (Hg w).
    destruct (convertMember g w) as [[[prims|]|e] w1]; simpl in Hg.
    + apply IH. apply labelsInherit_add; [exact Hps|]. apply Hg. reflexivity.
    + apply IH. exact Hps.
    + discriminate.
  - apply IH. exact Hps.
Qed.

Lemma olFeatureToCesium_geom_labels geom :
  forall w result,
    fst (olFeatureToCesium_geom scene layer feature style context (clone geom) w)
      = Normal (Some result) ->
    labelsInherit layer feature result.
Proof.
  induction geom as [p c|p cs|p cs|p rs|p c r|p cs|p ls|p ps|p gs IHgs]
    using Geometry_induction; intros w result;
    cbn -[olPointGeometryToCesium olMultiGeometryToCesium olLineStringGeometryToCesium
          olPolygonGeometryToCesium olCircleGeometryToCesium olFeatureToCesium_members];
    destruct (contexts w !! context) as [ctx|] eqn:Hctx; try discriminate.
  - apply olPointGeometryToCesium_labels.
  - destruct (olLineStringGeometryToCesium _ _ _ _ _ _) as [r|e] eqn:H; [|discriminate].
    intros [= <-]. eapply olLineStringGeometryToCesium_labels, H. reflexivity.
  - destruct (olPolygonGeometryToCesium _ _ _ _ _ _) as [r|e] eqn:H; [|discriminate].
    intros [= <-]. eapply olPolygonGeometryToCesium_labels, H. reflexivity.
  - destruct (olCircleGeometryToCesium _ _ _ _ _ _) as [res|e] eqn:H; [|discriminate].
    intros [= <-]. eapply olCircleGeometryToCesium_labels, H. reflexivity.
  - apply (olMultiGeometryToCesium_labels (MultiPoint None cs)).
  - apply (olMultiGeometryToCesium_labels (MultiLineString None ls)).
  - apply (olMultiGeometryToCesium_labels (MultiPolygon None ps)).
  - pose proof (olFeatureToCesium_members_labels _ _
                  (Forall_getGeometries _ gs IHgs) new_PrimitiveCollection w) as H.
    fold (getGeometries gs).
    destruct (olFeatureToCesium_members _ (getGeometries gs) new_PrimitiveCollection w)
      as [[r|e] w1]; [|discriminate].
    intros [= <-]. apply H; [apply labelsInherit_empty|reflexivity].
Qed.

(** X11: the members of a geometry collection reach the converter as
    clones, which have the coordinates of the members and none of their
    properties.  So of a collection only the types and the coordinates
    of the members that are there count: [olFeatureToCesium] gives the
    same result and the same world for a collection and for the
    collection, without properties, of the clones of its members that
    are not null.  The ['altitudeMode'] of the collection and of its
    members, at any depth, is never read: every billboard the conversion
    of a collection pushes on the context, at once or when an image
    loads, and every label in the tree it returns has the height
    reference the feature asks for or, failing that, the layer. *)
Theorem olFeatureToCesium_collection_members_only (props : Properties)
    (geometries : list (option Ol.Geometry)) (w : World) :
  let run := olFeatureToCesium scene layer feature style context
               (Some (GeometryCollection props geometries)) w in
  run = olFeatureToCesium scene layer feature style context
          (Some (GeometryCollection None (map Some (map clone (omap id geometries))))) w /\
  pushes (billboardInherits layer feature) feature context w (snd run) /\
  (forall result,
     fst run = Normal (Some result) ->
     Forall (labelInherits layer feature) (labels_of result)).
Proof.
  intros run.
  assert (Hrun : run = olFeatureToCesium_geom scene layer feature style context
                         (clone (GeometryCollection props geometries)) w).
  { subst run. rewrite <- olFeatureToCesium_of_clone.
    rewrite !olFeatureToCesium_GeometryCollection.
    change (clone (GeometryCollection props geometries))
      with (GeometryCollection None (getGeometries geometries)).
    rewrite olFeatureToCesium_GeometryCollection, getGeometries_idempotent.
    reflexivity. }
  split; [|split].
  - subst run. rewrite !olFeatureToCesium_GeometryCollection.
    destruct (contexts w !! context); [|reflexivity].
    rewrite <- getGeometries_omap.
    assert (Hsame : getGeometries (map Some (omap id (getGeometries geometries))) =
                    map Some (omap id (getGeometries geometries))).
    { rewrite getGeometries_omap. unfold getGeometries. rewrite !map_map.
      apply map_ext. intros g. simpl. rewrite clone_idempotent. reflexivity. }
    rewrite Hsame, olFeatureToCesium_members_omap. reflexivity.
  - rewrite Hrun. apply olFeatureToCesium_geom_pushes.
  - intros result. rewrite Hrun. apply olFeatureToCesium_geom_labels.
Qed.

End ClonedMembers.

(** ** The properties on concrete inputs *)

Section Instances.
Import Examples.

(** The example of the specification: a stroke of width 50 under a
    maximum of 8 gives 8. *)
Lemma extractLineWidthFromOlStyle_clamps_witness :
  extractLineWidthFromOlStyle scene8 fillAndStroke = 8%float.
Proof.
  apply (extractLineWidthFromOlStyle_clamps scene8 fillAndStroke stroke50 50%float);
    reflexivity.
Defined.

(** A stroke without a width gives [NaN], where the default is 1. *)
Lemma extractLineWidthFromOlStyle_undefined_width_witness :
  extractLineWidthFromOlStyle scene8 (styleOf None (Some strokeNoWidth) None None) = nan /\
  extractLineWidthFromOlStyle scene8 (styleOf None (Some strokeNoWidth) None None)
    <> 1%float.
Proof.
  assert (H : extractLineWidthFromOlStyle scene8
                (styleOf None (Some strokeNoWidth) None None) = nan).
  { apply (extractLineWidthFromOlStyle_undefined_width scene8
             (styleOf None (Some strokeNoWidth) None None) strokeNoWidth);
      reflexivity. }
  split; [exact H|]. rewrite H. exact nan_is_not_one.
Defined.

(** A style with only a stroke has a material for its outline and none
    for its fill. *)
Lemma olStyleToCesium_materials_witness :
  is_Some (olStyleToCesium (E:=flatExterns) circleFeature strokeOnly true) /\
  olStyleToCesium (E:=flatExterns) circleFeature strokeOnly false = None.
Proof.
  destruct (olStyleToCesium_materials (E:=flatExterns) circleFeature strokeOnly true)
    as (_ & _ & _ & _ & H).
  apply H; [eexists|]; reflexivity.
Defined.

(** A dashed stroke gives the striped material. *)
Lemma olStyleToCesium_dashed :
  olStyleToCesium (E:=flatExterns) circleFeature
    (styleOf None (Some dashedStroke) None None) true =
  Some (Stripe false 500 black {| red := 0; green := 0; blue := 0; alpha := 0 |}).
Proof. reflexivity. Qed.

(** A feature whose style function answers null, in a layer without
    style function: the specification resolves the style to null, the
    call fails. *)
Lemma computePlainStyle_null_style_throws_witness :
  resolveStyle hiddenFeature None 1%float = Null /\
  computePlainStyle emptyLayer hiddenFeature None 1%float =
    Throw (AssertionError "Assertion failed").
Proof.
  apply (computePlainStyle_null_style_throws emptyLayer hiddenFeature (fun _ => Null)
           None 1%float); [reflexivity|reflexivity|exact I].
Defined.

(** A feature styled with one candidate gets that candidate. *)
Lemma computePlainStyle_first_candidate_witness :
  computePlainStyle emptyLayer circleFeature None 1%float = Normal (Defined fillAndStroke).
Proof.
  apply (computePlainStyle_first_candidate emptyLayer circleFeature None 1%float
           fillAndStroke []).
  reflexivity.
Defined.

(** A polygon with one hole: the fill has both rings, the outline has
    the ring of the hole alone. *)
Lemma olPolygonGeometryToCesium_hierarchies_witness :
  exists fill outline : Hierarchy,
    olPolygonGeometryToCesium (E:=flatExterns) scene8 emptyLayer polygonFeature
      (Polygon None [outerRing; hole1]) epsg4326 fillAndStroke =
    addTextStyle (E:=flatExterns) scene8 emptyLayer polygonFeature
      (Polygon None [outerRing; hole1]) fillAndStroke
      (wrapFillAndOutlineGeometries (E:=flatExterns) scene8 emptyLayer polygonFeature
         (PolygonGeometry fill true) (PolygonOutlineGeometry outline true)
         fillAndStroke) /\
    ring_boundaries fill = [map flatCartesian outerRing; map flatCartesian hole1] /\
    length (hole_entries fill) = 1 /\
    ring_boundaries outline = [map flatCartesian hole1] /\
    hole_entries outline = [].
Proof.
  apply (olPolygonGeometryToCesium_hierarchies (E:=flatExterns) scene8 emptyLayer
           polygonFeature None outerRing [hole1] epsg4326 fillAndStroke).
  repeat constructor; discriminate.
Defined.

(** A circle of radius 3 in its projection: both geometries have the
    radius 300000, the distance of the converted center and the
    converted point. *)
Lemma olCircleGeometryToCesium_radius_witness :
  exists primitives,
    olCircleGeometryToCesium (E:=flatExterns) scene8 emptyLayer circleFeature circle
      epsg4326 fillAndStroke = Normal primitives /\
    map radius_of (geometries_of primitives) = [Some 300000%float; Some 300000%float].
Proof.
  destruct (olCircleGeometryToCesium_radius (E:=flatExterns) scene8 emptyLayer
              circleFeature None [1; 2]%float 3%float epsg4326 fillAndStroke)
    as (_ & Hgeometries & _).
  eexists. split; [reflexivity|].
  destruct (Hgeometries _ eq_refl) as [-> _]. reflexivity.
Defined.

(** A point with a text and an icon that is still loading: no billboard
    while the call runs, one once the image has loaded, in the
    collection and in the feature map; the label is returned at once. *)
Lemma olPointGeometryToCesium_defers_unloaded_image_witness :
  let style := iconStyle (Some loadingImage) (Some nameText) in
  let feature := pointFeature style in
  let run :=
    olPointGeometryToCesium (E:=flatExterns) scene8 emptyLayer feature point epsg4326
      style 0 (Some (newBillboardAddedCallback 0 feature)) oneContext in
  let bb := billboardOf (E:=flatExterns) emptyLayer feature point (iconOf (Some loadingImage))
              loadingImage in
  billboards_of 0 (contexts (snd run)) = [] /\
  length (listeners (snd run)) = 1 /\
  billboards_of 0 (contexts (dispatchEvent 7 "load" (snd run))) = [bb] /\
  featureToCesiumMap_of 0 (contexts (dispatchEvent 7 "load" (snd run))) !! 6 = Some bb /\
  listeners (dispatchEvent 7 "load" (snd run)) = [] /\
  exists label,
    fst run = Normal (Some (PrimitiveCollection
                              [new_Primitive; LabelCollection [label] None] None)) /\
    label_text label = "name".
Proof.
  intros style feature run bb.
  destruct (olPointGeometryToCesium_defers_unloaded_image (E:=flatExterns) scene8
              emptyLayer feature None [1; 2]%float epsg4326 style
              (iconOf (Some loadingImage)) loadingImage 0
              (Some (newBillboardAddedCallback 0 feature)) oneContext
              eq_refl eq_refl eq_refl)
    as (Hcontexts & (listener & Hlisteners & _) & Hfire & Hrest & _ & _ & Hlabel).
  subst run. unfold point.
  change (image_id loadingImage) with 7 in Hfire, Hrest.
  split; [rewrite Hcontexts; reflexivity|].
  split; [rewrite Hlisteners; reflexivity|].
  split; [rewrite Hfire; reflexivity|].
  split; [rewrite Hfire; reflexivity|].
  split; [rewrite Hrest; reflexivity|].
  destruct (Hlabel nameText eq_refl eq_refl) as (label & Hrun & Htext & _).
  exists label. split; [exact Hrun|]. injection Htext as ->. reflexivity.
Defined.

(** A point with a text and a video as its icon: the world stays as it
    is and the label is returned. *)
Lemma olPointGeometryToCesium_skips_unsupported_image_witness :
  let style := iconStyle (Some video) (Some nameText) in
  let feature := pointFeature style in
  let run :=
    olPointGeometryToCesium (E:=flatExterns) scene8 emptyLayer feature point epsg4326
      style 0 (Some (newBillboardAddedCallback 0 feature)) oneContext in
  snd run = oneContext /\
  exists label,
    fst run = Normal (Some (PrimitiveCollection
                              [new_Primitive; LabelCollection [label] None] None)) /\
    label_text label = "name".
Proof.
  intros style feature run.
  destruct (olPointGeometryToCesium_skips_unsupported_image (E:=flatExterns) scene8
              emptyLayer feature None [1; 2]%float epsg4326 style (iconOf (Some video)) 0
              (Some (newBillboardAddedCallback 0 feature)) oneContext eq_refl eq_refl)
    as (Hworld & _ & Hlabel & _).
  split; [exact Hworld|].
  destruct (Hlabel nameText eq_refl eq_refl) as (label & Hrun & Htext & _).
  exists label. split; [exact Hrun|]. injection Htext as ->. reflexivity.
Defined.


(** A layer of a polygon, a feature without geometry and a circle: with
    a view that is not ready the conversion fails and [convert] returns
    null; with a ready view the layer converts like the layer of the
    polygon and the circle, and [convert] returns null for the feature
    without geometry. *)
Lemma view_not_ready_and_skipped_features_witness :
  fst (fst (olVectorLayerToCesium (E:=flatExterns) scene8 threeFeatures
              viewWithoutResolution ∅ emptyWorld)) =
    Throw (AssertionError "Failure: View not ready") /\
  convert (E:=flatExterns) scene8 threeFeatures viewWithoutProjection noGeometryFeature 0
    oneContext = (Normal None, oneContext) /\
  olVectorLayerToCesium (E:=flatExterns) scene8 threeFeatures readyView ∅ emptyWorld =
    olVectorLayerToCesium (E:=flatExterns) scene8
      (layerOf [Some polygonFeature; Some circleFeature] None) readyView ∅ emptyWorld /\
  fst (convert (E:=flatExterns) scene8 threeFeatures readyView noGeometryFeature 0
         oneContext) = Normal None.
Proof.
  destruct (view_not_ready_and_skipped_features (E:=flatExterns) scene8 threeFeatures
              viewWithoutResolution noGeometryFeature ∅ 0 emptyWorld)
    as [Hfails _].
  destruct (view_not_ready_and_skipped_features (E:=flatExterns) scene8 threeFeatures
              viewWithoutProjection noGeometryFeature ∅ 0 oneContext)
    as [Hnull _].
  destruct (view_not_ready_and_skipped_features (E:=flatExterns) scene8 threeFeatures
              readyView noGeometryFeature ∅ 0 emptyWorld)
    as [_ Hlayer].
  destruct (view_not_ready_and_skipped_features (E:=flatExterns) scene8 threeFeatures
              readyView noGeometryFeature ∅ 0 oneContext)
    as [_ Hconvert].
  split; [rewrite (proj1 (Hfails (or_introl eq_refl))); reflexivity|].
  split; [exact (proj2 (Hnull (or_intror eq_refl)))|].
  split.
  - destruct (Hlayer 1%float epsg4326 (Defined fillAndStroke) eq_refl eq_refl eq_refl
                (or_intror eq_refl)) as [Hskip _].
    rewrite (Hskip [Some polygonFeature] [Some circleFeature] eq_refl). reflexivity.
  - destruct (Hconvert 1%float epsg4326 (Defined fillAndStroke) eq_refl eq_refl eq_refl
                (or_intror eq_refl)) as [_ Hc].
    apply Hc. eexists. reflexivity.
Defined.

(** A layer that holds a feature whose style function answers null,
    with a ready view: the style of the feature resolves to null, the
    conversion of the layer fails, and so does [convert] on the
    feature. *)
Lemma null_style_feature_not_skipped_witness :
  resolveStyle hiddenFeature None 1%float = Null /\
  throws (fst (fst (olVectorLayerToCesium (E:=flatExterns) scene8 hiddenFeatureLayer
                      readyView ∅ emptyWorld))) /\
  convert (E:=flatExterns) scene8 hiddenFeatureLayer readyView hiddenFeature 0 oneContext =
    (Throw (AssertionError "Assertion failed"), oneContext).
Proof.
  destruct (null_style_feature_not_skipped (E:=flatExterns) scene8 hiddenFeatureLayer
              readyView hiddenFeature (fun _ => Null) 1%float epsg4326 ∅ 0 emptyWorld
              eq_refl eq_refl eq_refl eq_refl I) as [Hresolve [Hlayer _]].
  destruct (null_style_feature_not_skipped (E:=flatExterns) scene8 hiddenFeatureLayer
              readyView hiddenFeature (fun _ => Null) 1%float epsg4326 ∅ 0 oneContext
              eq_refl eq_refl eq_refl eq_refl I) as [_ [_ [_ Hconvert]]].
  split; [exact Hresolve|]. split; [|exact Hconvert].
  apply Hlayer. right. left. reflexivity.
Defined.


(** C9, a counterexample: the conversion of a circle returns a primitive
    collection that carries no back-reference. *)
Lemma collection_without_reference :
  exists result,
    fst (olFeatureToCesium (E:=flatExterns) scene8 emptyLayer circleFeature fillAndStroke
           0 None oneContext) = Normal (Some result) /\
    In result (renderables result) /\
    ~ carries emptyLayer circleFeature result.
Proof.
  eexists. split; [reflexivity|]. split; [left; reflexivity|].
  unfold carries. simpl. discriminate.
Qed.

(** The conversion of a circle with a text: the two primitives and the
    label carry the back-reference to the layer and the feature. *)
Lemma olFeatureToCesium_references_witness :
  let style := styleOf (Some redFill) (Some stroke50) None (Some nameText) in
  exists fill outline label,
    fst (olFeatureToCesium (E:=flatExterns) scene8 emptyLayer circleFeature style 0 None
           oneContext) =
      Normal (Some (PrimitiveCollection [fill; outline; LabelCollection [label] None] None)) /\
    leaves_carry emptyLayer circleFeature
      (PrimitiveCollection [fill; outline; LabelCollection [label] None] None) /\
    reference_of fill = Some {| olLayer := 1; olFeature := 5 |} /\
    reference_of outline = Some {| olLayer := 1; olFeature := 5 |} /\
    reference_of label = Some {| olLayer := 1; olFeature := 5 |}.
Proof.
  intros style.
  destruct (olFeatureToCesium_references (E:=flatExterns) scene8 emptyLayer circleFeature
              style 0 None oneContext) as [Hleaves _].
  do 3 eexists. split; [reflexivity|]. split; [apply Hleaves; reflexivity|].
  repeat split.
Defined.

End Instances.

(** ** More properties on concrete inputs *)

Section MoreInstances.
Import Examples.

(** The layer of a point with a loaded icon, a null entry and a circle:
    its conversion returns, and the billboard in its context refers to
    the layer and to a feature of the layer. *)
Lemma olVectorLayerToCesium_context_witness :
  let run := olVectorLayerToCesium (E:=flatExterns) scene8 iconLayer readyView ∅
               emptyWorld in
  exists result c,
    fst (fst run) = Normal result /\
    contexts (snd run) !! Core.context result = Some c /\
    Some (projection c) = getProjection readyView /\
    Forall (fun bb => exists feature,
              In feature (featuresOf iconLayer) /\ carries iconLayer feature bb)
      (billboards c) /\
    (forall uid,
       (forall feature, In feature (featuresOf iconLayer) -> getUid feature <> uid) ->
       featureToCesiumMap c !! uid = None).
Proof.
  intros run.
  destruct (fst (fst run)) as [result|e] eqn:Hrun;
    [|vm_compute in Hrun; discriminate Hrun].
  destruct (olVectorLayerToCesium_context (E:=flatExterns) scene8 iconLayer readyView ∅
              emptyWorld result Hrun) as [c H].
  exists result, c. split; [reflexivity|exact H].
Defined.

(** The conversion of a collection of a circle and a line string leaves
    the world as it was. *)
Lemma olFeatureToCesium_without_points_witness :
  snd (olFeatureToCesium (E:=flatExterns) scene8 emptyLayer circleFeature fillAndStroke 0
         (Some circleAndLine) oneContext) = oneContext.
Proof.
  apply (olFeatureToCesium_without_points (E:=flatExterns) scene8 emptyLayer circleFeature
           fillAndStroke 0 circleAndLine oneContext).
  reflexivity.
Defined.

(** A multi-line-string of two lines converts to the collection of what
    its two lines convert to. *)
Lemma olFeatureToCesium_multi_geometry_witness :
  let convertLine g :=
    fst (olFeatureToCesium (E:=flatExterns) scene8 emptyLayer circleFeature strokeOnly 0
           (Some g) oneContext) in
  exists first second,
    convertLine (LineString None outerRing) = Normal (Some first) /\
    convertLine (LineString None hole1) = Normal (Some second) /\
    convertLine twoLines = Normal (Some (PrimitiveCollection [first; second] None)).
Proof.
  intros convertLine.
  destruct (convertLine (LineString None outerRing)) as [[first|]|e] eqn:Hfirst;
    try (vm_compute in Hfirst; discriminate Hfirst).
  destruct (convertLine (LineString None hole1)) as [[second|]|e] eqn:Hsecond;
    try (vm_compute in Hsecond; discriminate Hsecond).
  exists first, second. split; [reflexivity|]. split; [reflexivity|].
  apply (olFeatureToCesium_multi_geometry (E:=flatExterns) scene8 emptyLayer circleFeature
           strokeOnly 0 twoLines [first; second] (new_context epsg4326) oneContext
           (or_introl eq_refl) eq_refl).
  constructor; [exact Hfirst|]. constructor; [exact Hsecond|constructor].
Defined.

(** The collection of a circle, a null member and a line string converts
    to what the collection of the circle converts to, followed by what
    the collection of the null member and the line string converts
    to. *)
Lemma olFeatureToCesium_collection_app_witness :
  let convertCollection geometries w :=
    olFeatureToCesium (E:=flatExterns) scene8 emptyLayer circleFeature fillAndStroke 0
      (Some (GeometryCollection None geometries)) w in
  let members (run : completion (option Primitive) * World) :=
    match fst run with
    | Normal (Some (PrimitiveCollection members _)) => members
    | _ => []
    end in
  let run1 := convertCollection [Some circle] oneContext in
  let run2 := convertCollection [None; Some (LineString None hole1)] (snd run1) in
  length (members run1) = 1 /\ length (members run2) = 1 /\
  olFeatureToCesium (E:=flatExterns) scene8 emptyLayer circleFeature fillAndStroke 0
    (Some circleAndLine) oneContext =
  (Normal (Some (PrimitiveCollection (members run1 ++ members run2) None)), snd run2).
Proof.
  intros convertCollection members run1 run2.
  split; [reflexivity|]. split; [reflexivity|].
  apply (olFeatureToCesium_collection_app (E:=flatExterns) scene8 emptyLayer circleFeature
           fillAndStroke 0 None None (Some "clampToGround")
           [Some circle] [None; Some (LineString None hole1)]
           (members run1) (members run2) oneContext (snd run1) (snd run2));
    reflexivity.
Defined.

(** A multi-point of two points under a style with an icon and no text:
    the conversion fails and leaves the world as it was. *)
Lemma olFeatureToCesium_multi_point_without_text_witness :
  olFeatureToCesium (E:=flatExterns) scene8 emptyLayer circleFeature
    (iconStyle (Some loadedImage) None) 0 (Some twoPoints) oneContext =
  (Throw (TypeError "this.olPointGeometryToCesium is not a function"), oneContext).
Proof.
  apply (olFeatureToCesium_multi_point_without_text (E:=flatExterns) scene8 emptyLayer
           circleFeature (iconStyle (Some loadedImage) None) 0 (Some "clampToGround")
           [[1; 2]; [3; 4]]%float (new_context epsg4326) oneContext);
    reflexivity.
Defined.

(** A point with a loaded icon and a text aligned in a way the label
    builder has no case for: the conversion fails, and the billboard is
    in the context. *)
Lemma olFeatureToCesium_label_failure_keeps_billboard_witness :
  let style := iconStyle (Some loadedImage) (Some justifiedText) in
  let feature := pointFeature style in
  let run := olFeatureToCesium (E:=flatExterns) scene8 emptyLayer feature style 0 None
               oneContext in
  let bb := billboardOf (E:=flatExterns) emptyLayer feature point (iconOf (Some loadedImage))
              loadedImage in
  throws (fst run) /\
  billboards_of 0 (contexts (snd run)) = [bb] /\
  featureToCesiumMap_of 0 (contexts (snd run)) = {[ 6 := bb ]}.
Proof.
  intros style feature run bb.
  exact (olFeatureToCesium_label_failure_keeps_billboard (E:=flatExterns) scene8 emptyLayer
           feature None [1; 2]%float style (iconOf (Some loadedImage)) loadedImage
           justifiedText 0 (new_context epsg4326) oneContext
           eq_refl eq_refl eq_refl eq_refl eq_refl eq_refl eq_refl eq_refl).
Defined.

(** A multi-point of two points that asks to be clamped to the ground,
    with a loaded icon and a text: two members, two billboards, neither
    of them clamped to the ground, and the feature map holds the
    second. *)
Lemma olFeatureToCesium_multi_point_with_text_witness :
  let style := iconStyle (Some loadedImage) (Some nameText) in
  let run := olFeatureToCesium (E:=flatExterns) scene8 emptyLayer circleFeature style 0
               (Some twoPoints) oneContext in
  let bb c := billboardOf (E:=flatExterns) emptyLayer circleFeature (Point None c)
                (iconOf (Some loadedImage)) loadedImage in
  (exists members,
     fst run = Normal (Some (PrimitiveCollection members None)) /\ length members = 2) /\
  billboards_of 0 (contexts (snd run)) = [bb [1; 2]%float; bb [3; 4]%float] /\
  featureToCesiumMap_of 0 (contexts (snd run)) = {[ 5 := bb [3; 4]%float ]} /\
  listeners (snd run) = [] /\
  billboard_heightReference (bb [1; 2]%float) = HeightReference_NONE.
Proof.
  intros style run bb.
  destruct (olFeatureToCesium_multi_point_with_text (E:=flatExterns) scene8 emptyLayer
              circleFeature style (iconOf (Some loadedImage)) loadedImage nameText 0
              (Some "clampToGround") [[1; 2]; [3; 4]]%float (new_context epsg4326)
              oneContext eq_refl eq_refl eq_refl eq_refl eq_refl eq_refl eq_refl)
    as [Hmembers [Hbillboards [Hmap Hlisteners]]].
  split; [exact Hmembers|]. split; [exact Hbillboards|]. split; [exact Hmap|].
  split; [exact Hlisteners|reflexivity].
Defined.

(** The layer of a point, a null entry and a circle converts as its
    features convert one at a time into a new context. *)
Lemma olVectorLayerToCesium_convertEach_witness :
  olVectorLayerToCesium (E:=flatExterns) scene8 iconLayer readyView ∅ emptyWorld =
  convertEach (E:=flatExterns) scene8 iconLayer readyView (getFeatures iconLayer)
    {| Core.context := 0; Core.primitives := [] |} ∅ oneContext.
Proof.
  exact (olVectorLayerToCesium_convertEach (E:=flatExterns) scene8 iconLayer readyView ∅
           emptyWorld 1%float epsg4326 eq_refl eq_refl).
Defined.

(** A circle with a fill, a stroke of width 50 and a text with a stroke
    of width 50 and an offset along one axis: the collection, the two
    primitives and the label collection are objects of the six kinds;
    the two line widths are the maximum, 8; and the label has no pixel
    offset. *)
Lemma olFeatureToCesium_produces_witness :
  let style := styleOf (Some redFill) (Some stroke50) None (Some outlinedText) in
  exists result,
    fst (olFeatureToCesium (E:=flatExterns) scene8 emptyLayer circleFeature style 0 None
           oneContext) = Normal (Some result) /\
    length (renderables result) = 4 /\
    Forall (produced (E:=flatExterns) scene8 emptyLayer circleFeature style)
      (renderables result).
Proof.
  intros style. eexists. split; [reflexivity|]. split; [reflexivity|].
  apply (olFeatureToCesium_produces (E:=flatExterns) scene8 emptyLayer circleFeature style
           0 None oneContext).
  reflexivity.
Defined.

Lemma olFeatureToCesium_line_widths_witness :
  let style := styleOf (Some redFill) (Some stroke50) None (Some outlinedText) in
  exists result,
    fst (olFeatureToCesium (E:=flatExterns) scene8 emptyLayer circleFeature style 0 None
           oneContext) = Normal (Some result) /\
    lineWidths result = [8; 8]%float /\
    Forall (fun width => (maximumAliasedLineWidth scene8 <? width)%float = false)
      (lineWidths result).
Proof.
  intros style. eexists. split; [reflexivity|]. split; [reflexivity|].
  apply (olFeatureToCesium_line_widths (E:=flatExterns) scene8 emptyLayer circleFeature
           style 0 None oneContext).
  reflexivity.
Defined.

Lemma olFeatureToCesium_labels_witness :
  let style := styleOf (Some redFill) (Some stroke50) None (Some outlinedText) in
  exists result label,
    fst (olFeatureToCesium (E:=flatExterns) scene8 emptyLayer circleFeature style 0 None
           oneContext) = Normal (Some result) /\
    labels_of result = [label] /\
    label_text label = "name" /\
    label_style label = Some LabelStyle_FILL_AND_OUTLINE /\
    label_pixelOffset label = None /\
    carries emptyLayer circleFeature label.
Proof.
  intros style. eexists. eexists. split; [reflexivity|]. split; [reflexivity|].
  pose proof (olFeatureToCesium_labels (E:=flatExterns) scene8 emptyLayer circleFeature
                style 0 None oneContext _ eq_refl) as Hlabels.
  inversion Hlabels as [|label labels [text [Hstyle [Htext [_ [Hlabel [Hoffset Hc]]]]]] _];
    subst.
  simpl in Hstyle. injection Hstyle as <-.
  split; [reflexivity|]. split; [exact Hlabel|]. split; [exact Hoffset|exact Hc].
Defined.

(** A circle under a style without fill, stroke and text converts to an
    empty collection, which is not null; a line string under that style
    to a collection of one member. *)
Lemma olFeatureToCesium_member_count_witness :
  let unstyled := styleOf None None None None in
  let run g :=
    fst (olFeatureToCesium (E:=flatExterns) scene8 emptyLayer circleFeature unstyled 0
           (Some g) oneContext) in
  run circle = Normal (Some (PrimitiveCollection [] None)) /\
  exists members,
    run (LineString None hole1) = Normal (Some (PrimitiveCollection members None)) /\
    length members = 1.
Proof.
  intros unstyled run. split; [reflexivity|].
  destruct (run (LineString None hole1)) as [[result|]|e] eqn:Hrun;
    try (vm_compute in Hrun; discriminate Hrun).
  destruct (olFeatureToCesium_member_count (E:=flatExterns) scene8 emptyLayer circleFeature
              unstyled 0 (LineString None hole1) oneContext result Hrun)
    as [members [-> Hlength]].
  exists members. split; [reflexivity|exact Hlength].
Defined.

(** The collection of a circle and a line string converts under a style
    with a fill and a stroke; with a multi-point among its members and
    a style without text it does not. *)
Lemma olFeatureToCesium_returns_iff_witness :
  returns (fst (olFeatureToCesium (E:=flatExterns) scene8 emptyLayer circleFeature
                  fillAndStroke 0 (Some circleAndLine) oneContext)) /\
  ~ returns (fst (olFeatureToCesium (E:=flatExterns) scene8 emptyLayer circleFeature
                    fillAndStroke 0
                    (Some (GeometryCollection None [Some circle; Some twoPoints]))
                    oneContext)).
Proof.
  split.
  - apply (olFeatureToCesium_returns_iff (E:=flatExterns) scene8 emptyLayer circleFeature
             fillAndStroke 0 circleAndLine oneContext).
    + eexists. reflexivity.
    + reflexivity.
  - intros Hreturns.
    apply (olFeatureToCesium_returns_iff (E:=flatExterns) scene8 emptyLayer circleFeature
             fillAndStroke 0 (GeometryCollection None [Some circle; Some twoPoints])
             oneContext) in Hreturns.
    + discriminate Hreturns.
    + eexists. reflexivity.
Defined.

(** The conversion of a circle returns the same in a context that holds
    the billboard of a point converted before as in a context that is
    empty. *)
Lemma olFeatureToCesium_result_independent_witness :
  let style := iconStyle (Some loadedImage) None in
  let after := snd (olFeatureToCesium (E:=flatExterns) scene8 emptyLayer
                      (pointFeature style) style 0 None oneContext) in
  length (billboards_of 0 (contexts after)) = 1 /\
  fst (olFeatureToCesium (E:=flatExterns) scene8 emptyLayer circleFeature fillAndStroke 0
         None oneContext) =
  fst (olFeatureToCesium (E:=flatExterns) scene8 emptyLayer circleFeature fillAndStroke 0
         None after).
Proof.
  intros style after. split; [reflexivity|].
  apply (olFeatureToCesium_result_independent (E:=flatExterns) scene8 emptyLayer
           circleFeature fillAndStroke 0 None oneContext after).
  reflexivity.
Defined.

(** A point that asks to be clamped to the ground, with a loaded icon:
    its billboard is clamped to the ground when the point is the
    geometry of the feature, and is not when the point is a member of a
    collection. *)
Lemma olFeatureToCesium_collection_members_only_witness :
  let style := iconStyle (Some loadedImage) None in
  let run geometry :=
    olFeatureToCesium (E:=flatExterns) scene8 emptyLayer (pointFeature style) style 0
      (Some geometry) oneContext in
  map billboard_heightReference (billboards_of 0 (contexts (snd (run clampedPoint)))) =
    [HeightReference_CLAMP_TO_GROUND] /\
  map billboard_heightReference
    (billboards_of 0 (contexts (snd (run clampedPointCollection)))) =
    [HeightReference_NONE].
Proof.
  intros style run. split; [reflexivity|].
  unfold run, clampedPointCollection.
  rewrite (proj1 (olFeatureToCesium_collection_members_only (E:=flatExterns) scene8
                    emptyLayer (pointFeature style) style 0 None [Some clampedPoint]
                    oneContext)).
  reflexivity.
Defined.

End MoreInstances.
